(** * svn2git: the fast-import repository engine ([src/repository.cpp])

    A shallow embedding of [FastImportRepository], its nested
    [Transaction], the marks-file reader [lastValidMark] and the
    incremental-resume routine [setupIncremental], followed by the
    properties of the emitted fast-import stream, of the two mark
    counters and of the branch registry.

    Conventions of the embedding:
    - [int], [uint] and [qint64] values are [Z] and their arithmetic is
      exact: the source never relies on wrap-around, and an overflow of a
      counter would take more than [2^31 - 1] commits, transactions or
      lines of the marks file.  The one place where the range of [int]
      decides a result, [QString::toInt], checks it;
    - [QByteArray] and [QString] are both [string] (byte strings, UTF-8);
    - [QHash<QString, Branch>] is a [gmap string Branch]; the non-const
      [operator[]] of [QHash], which inserts a default-constructed value
      for a missing key, is [touch_branch], and [br_at] is the value the
      returned reference denotes;
    - [Q_ASSERT], [qFatal], [QVector::last()] on an empty vector and an
      out-of-range [QVector::operator[]] abort the program: [Abort];
    - everything written to the importer's stdin is appended to [wire];
      [qWarning], [qCritical] and [qDebug] messages are appended to
      [diag], each one as its fixed text, without the values streamed
      into it; the texts printed with [printf] are left out;
    - the child process is taken to accept every byte written to it, so
      the waits for written bytes succeed; whether it ends when
      [closeFastImport] closes it is an argument of [closeFastImport]
      ([ChildExit]), and a child that stops on its own is a step of
      [reachable];
    - the Qt functions used by the source ([toInt], [trimmed], [readLine],
      [number], [QRegExp::exactMatch] for the one pattern of the source,
      [qUpperBound]) are embedded from their documented behaviour. *)

From Stdlib Require Import ZArith String Ascii List Bool Lia.
From stdpp Require Import base option list gmap strings fin_maps.

Local Open Scope string_scope.
Local Open Scope Z_scope.

(** ** Byte strings: the few [QByteArray] / [QString] operations used *)

Module Bytes.

Definition isEmpty (s : string) : bool :=
  match s with EmptyString => true | String _ _ => false end.

Definition is_space (c : ascii) : bool :=
  let n := nat_of_ascii c in
  (Nat.eqb n 32 || (Nat.leb 9 n && Nat.leb n 13))%bool.

Definition is_digit (c : ascii) : bool :=
  let n := nat_of_ascii c in (Nat.leb 48 n && Nat.leb n 57)%bool.

Definition digit_val (c : ascii) : Z := Z.of_nat (nat_of_ascii c) - 48.

Fixpoint ltrim (s : string) : string :=
  match s with
  | String c s' => if is_space c then ltrim s' else s
  | EmptyString => EmptyString
  end.

Fixpoint rtrim (s : string) : string :=
  match s with
  | String c s' =>
      let r := rtrim s' in
      if (isEmpty r && is_space c)%bool then EmptyString else String c r
  | EmptyString => EmptyString
  end.

(** [QByteArray::trimmed()] *)
Definition trimmed (s : string) : string := rtrim (ltrim s).

(** [indexOf(c)]: position of the first [c], or [None] for Qt's [-1]. *)
Fixpoint indexOf (c : ascii) (s : string) : option Z :=
  match s with
  | EmptyString => None
  | String d s' =>
      if Ascii.eqb c d then Some 0
      else match indexOf c s' with Some i => Some (i + 1) | None => None end
  end.

(** [truncate(pos)] keeps the first [pos] bytes. *)
Definition truncate (pos : Z) (s : string) : string :=
  substring 0 (Z.to_nat pos) s.

(** [mid(pos)]: everything from byte [pos] on. *)
Fixpoint mid_from (pos : nat) (s : string) : string :=
  match pos, s with
  | O, _ => s
  | S p, String _ s' => mid_from p s'
  | S _, EmptyString => EmptyString
  end.

(** [mid(pos, len)]; Qt reads a negative [len] as "up to the end". *)
Definition mid (pos len : Z) (s : string) : string :=
  if len <? 0 then mid_from (Z.to_nat pos) s
  else substring (Z.to_nat pos) (Z.to_nat len) s.

Definition startsWith (p s : string) : bool := String.prefix p s.

Fixpoint endsWith_char (c : ascii) (s : string) : bool :=
  match s with
  | EmptyString => false
  | String d EmptyString => Ascii.eqb c d
  | String _ s' => endsWith_char c s'
  end.

Definition len (s : string) : Z := Z.of_nat (String.length s).

Definition digit_char (d : Z) : ascii :=
  if d <? 10 then ascii_of_nat (48 + Z.to_nat d)
  else ascii_of_nat (87 + Z.to_nat d).

Fixpoint number_go (fuel : nat) (base n : Z) (acc : string) : string :=
  let acc' := String (digit_char (n mod base)) acc in
  match fuel with
  | O => acc'
  | S f => if n / base =? 0 then acc' else number_go f base (n / base) acc'
  end.

(** [QByteArray::number(n, base)]: a minus sign for a negative [n], then
    the digits of [|n|], most significant first.  The fuel is the number
    of bits of [|n|], which no base above 1 can exhaust. *)
Definition number_base (base n : Z) : string :=
  let a := Z.abs n in
  let ds := number_go (Z.to_nat (Z.log2 a)) base a EmptyString in
  if n <? 0 then String "-"%char ds else ds.

Definition number (n : Z) : string := number_base 10 n.

Fixpoint digits_value (s : string) (acc : Z) : option Z :=
  match s with
  | EmptyString => Some acc
  | String c s' =>
      if is_digit c then digits_value s' (10 * acc + digit_val c) else None
  end.

Definition INT_MIN : Z := - 2 ^ 31.
Definition INT_MAX : Z := 2 ^ 31 - 1.

(** [QString::toInt()] in base 10: surrounding white space is ignored,
    one sign is accepted, at least one digit is needed and nothing else
    may follow; a text that is no number, or a number outside the range
    of [int], gives 0. *)
Definition toInt (s : string) : Z :=
  let t := trimmed s in
  let '(neg, body) :=
    match t with
    | String "-"%char b => (true, b)
    | String "+"%char b => (false, b)
    | _ => (false, t)
    end in
  if isEmpty body then 0
  else match digits_value body 0 with
       | Some v =>
           let v' := if neg then - v else v in
           if ((INT_MIN <=? v') && (v' <=? INT_MAX))%bool then v' else 0
       | None => 0
       end.

(** [QFile::readLine()] in a loop up to [atEnd()]: the lines of a file,
    each one with its terminating newline (the last one may lack it). *)
Fixpoint read_lines (s : string) : list string :=
  match s with
  | EmptyString => []
  | String c s' =>
      if Ascii.eqb c "010"%char then String c EmptyString :: read_lines s'
      else match read_lines s' with
           | [] => [String c EmptyString]
           | l :: ls => String c l :: ls
           end
  end.

End Bytes.

Definition nl : string := String "010"%char EmptyString.

(** [unlines ls]: every element of [ls] followed by a newline. *)
Definition unlines (ls : list string) : string :=
  foldr (fun l acc => l +:+ nl +:+ acc) EmptyString ls.

(** ** Aborts, diagnostics and vectors *)

Inductive Fatal : Type :=
| AssertFailed (what : string)
| FatalError (msg : string)
| DivisionByZero.

Inductive result (A : Type) : Type :=
| Ok (a : A)
| Abort (f : Fatal).
Arguments Ok {A} a.
Arguments Abort {A} f.

#[global] Instance result_ret : MRet result := fun A a => Ok a.
#[global] Instance result_bind : MBind result :=
  fun A B f m => match m with Ok a => f a | Abort e => Abort e end.
#[global] Instance result_fmap : FMap result :=
  fun A B f m => match m with Ok a => Ok (f a) | Abort e => Abort e end.

Definition Q_ASSERT (what : string) (b : bool) : result unit :=
  if b then Ok tt else Abort (AssertFailed what).

Inductive Diag : Type :=
| Warning (msg : string)
| Critical (msg : string)
| Debug (msg : string).

Definition is_warning (d : Diag) : bool :=
  match d with Warning _ => true | _ => false end.

(** [QVector<int>::last()]; Qt asserts that the vector is not empty. *)
Definition vlast (v : list Z) : result Z :=
  match last v with
  | Some x => Ok x
  | None => Abort (AssertFailed "QVector::last: !isEmpty()")
  end.

(** [QVector<int>::operator[](i)]; Qt asserts that [i] is in range. *)
Definition vat (v : list Z) (i : Z) : result Z :=
  match (if 0 <=? i then v !! Z.to_nat i else None) with
  | Some x => Ok x
  | None => Abort (AssertFailed "QVector::operator[]: index out of range")
  end.

(** [qUpperBound(v, value)] of QtAlgorithms: the binary search

      n = end - begin;
      while (n > 0) { half = n >> 1; middle = begin + half;
                      if (value < *middle) n = half;
                      else { begin = middle + 1; n -= half + 1; } }
      return begin;

    as an index into [v].  [n] shrinks in every round, so [fuel] rounds
    are enough whenever [n <= fuel] ([qUpperBound_loop_fuel] below). *)
Fixpoint qUpperBound_loop (fuel : nat) (v : list Z) (value : Z) (begin n : Z) : Z :=
  match fuel with
  | O => begin
  | S f =>
      if 0 <? n then
        let half := Z.shiftr n 1 in
        let middle := begin + half in
        if value <? nth (Z.to_nat middle) v 0
        then qUpperBound_loop f v value begin half
        else qUpperBound_loop f v value (middle + 1) (n - (half + 1))
      else begin
  end.

Definition qUpperBound (v : list Z) (value : Z) : Z :=
  qUpperBound_loop (length v) v value 0 (Z.of_nat (length v)).

(** ** The data model *)

Definition maxSimultaneousProcesses : Z := 100.

Definition maxMark : Z := Z.shiftl 1 20 - 1.

Definition EXIT_SUCCESS : Z := 0.
Definition EXIT_FAILURE : Z := 1.

(** The command-line options read through [CommandLineParser]:
    [contains("dry-run")], [contains("add-metadata")] and
    [optionArgument("commit-interval", "10000").toInt()]. *)
Record Config : Type := {
  dry_run : bool;
  add_metadata : bool;
  commit_interval : Z
}.

Definition default_config : Config :=
  {| dry_run := false; add_metadata := false;
     commit_interval := Bytes.toInt "10000" |}.

Record Branch : Type := {
  created : Z;
  commits : list Z;
  marks : list Z
}.

(** What [QHash::operator[]] inserts for a missing key. *)
Definition default_Branch : Branch :=
  {| created := 0; commits := []; marks := [] |}.

Record AnnotatedTag : Type := {
  supportingRef : string;
  tag_svnprefix : string;
  tag_author : string;
  tag_log : string;
  dt : Z;
  tag_revnum : Z
}.

(** [FastImportRepository].  [running] is
    [fastImport.state() != QProcess::NotRunning]; [wire] is every byte
    written to [fastImport] so far; [diag] the messages logged so far. *)
Record Repo : Type := {
  branches : gmap string Branch;
  annotatedTags : gmap string AnnotatedTag;
  name : string;
  commitCount : Z;
  outstandingTransactions : Z;
  last_commit_mark : Z;
  next_file_mark : Z;
  processHasStarted : bool;
  running : bool;
  wire : string;
  diag : list Diag
}.

Record Transaction : Type := {
  branch : string;
  svnprefix : string;
  author : string;
  log : string;
  datetime : Z;
  revnum : Z;
  merges : list Z;
  deletedFiles : list string;
  modifiedFiles : string
}.

(** The files of one repository: the progress log [log-<name>], its
    backup [log-<name>.old] and the marks file; [None] is a missing file. *)
Record Files : Type := {
  logfile : option string;
  logfile_old : option string;
  marksfile : option string
}.

(** ** Field updates *)

Definition set_branches (bs : gmap string Branch) (r : Repo) : Repo :=
  {| branches := bs; annotatedTags := annotatedTags r; name := name r;
     commitCount := commitCount r;
     outstandingTransactions := outstandingTransactions r;
     last_commit_mark := last_commit_mark r;
     next_file_mark := next_file_mark r;
     processHasStarted := processHasStarted r; running := running r;
     wire := wire r; diag := diag r |}.

Definition set_annotatedTags (ts : gmap string AnnotatedTag) (r : Repo) : Repo :=
  {| branches := branches r; annotatedTags := ts; name := name r;
     commitCount := commitCount r;
     outstandingTransactions := outstandingTransactions r;
     last_commit_mark := last_commit_mark r;
     next_file_mark := next_file_mark r;
     processHasStarted := processHasStarted r; running := running r;
     wire := wire r; diag := diag r |}.

Definition set_commitCount (n : Z) (r : Repo) : Repo :=
  {| branches := branches r; annotatedTags := annotatedTags r; name := name r;
     commitCount := n;
     outstandingTransactions := outstandingTransactions r;
     last_commit_mark := last_commit_mark r;
     next_file_mark := next_file_mark r;
     processHasStarted := processHasStarted r; running := running r;
     wire := wire r; diag := diag r |}.

Definition set_outstandingTransactions (n : Z) (r : Repo) : Repo :=
  {| branches := branches r; annotatedTags := annotatedTags r; name := name r;
     commitCount := commitCount r;
     outstandingTransactions := n;
     last_commit_mark := last_commit_mark r;
     next_file_mark := next_file_mark r;
     processHasStarted := processHasStarted r; running := running r;
     wire := wire r; diag := diag r |}.

Definition set_last_commit_mark (n : Z) (r : Repo) : Repo :=
  {| branches := branches r; annotatedTags := annotatedTags r; name := name r;
     commitCount := commitCount r;
     outstandingTransactions := outstandingTransactions r;
     last_commit_mark := n;
     next_file_mark := next_file_mark r;
     processHasStarted := processHasStarted r; running := running r;
     wire := wire r; diag := diag r |}.

Definition set_next_file_mark (n : Z) (r : Repo) : Repo :=
  {| branches := branches r; annotatedTags := annotatedTags r; name := name r;
     commitCount := commitCount r;
     outstandingTransactions := outstandingTransactions r;
     last_commit_mark := last_commit_mark r;
     next_file_mark := n;
     processHasStarted := processHasStarted r; running := running r;
     wire := wire r; diag := diag r |}.

Definition set_process (started run : bool) (r : Repo) : Repo :=
  {| branches := branches r; annotatedTags := annotatedTags r; name := name r;
     commitCount := commitCount r;
     outstandingTransactions := outstandingTransactions r;
     last_commit_mark := last_commit_mark r;
     next_file_mark := next_file_mark r;
     processHasStarted := started; running := run;
     wire := wire r; diag := diag r |}.

(** [fastImport.write(bytes)] *)
Definition write (bytes : string) (r : Repo) : Repo :=
  {| branches := branches r; annotatedTags := annotatedTags r; name := name r;
     commitCount := commitCount r;
     outstandingTransactions := outstandingTransactions r;
     last_commit_mark := last_commit_mark r;
     next_file_mark := next_file_mark r;
     processHasStarted := processHasStarted r; running := running r;
     wire := wire r +:+ bytes; diag := diag r |}.

(** [qWarning() << ...], [qCritical() << ...], [qDebug() << ...] *)
Definition notes (ds : list Diag) (r : Repo) : Repo :=
  {| branches := branches r; annotatedTags := annotatedTags r; name := name r;
     commitCount := commitCount r;
     outstandingTransactions := outstandingTransactions r;
     last_commit_mark := last_commit_mark r;
     next_file_mark := next_file_mark r;
     processHasStarted := processHasStarted r; running := running r;
     wire := wire r; diag := diag r ++ ds |}.

Definition note (d : Diag) (r : Repo) : Repo := notes [d] r.

Definition set_merges (ms : list Z) (t : Transaction) : Transaction :=
  {| branch := branch t; svnprefix := svnprefix t; author := author t;
     log := log t; datetime := datetime t; revnum := revnum t;
     merges := ms; deletedFiles := deletedFiles t;
     modifiedFiles := modifiedFiles t |}.

Definition set_deletedFiles (ds : list string) (t : Transaction) : Transaction :=
  {| branch := branch t; svnprefix := svnprefix t; author := author t;
     log := log t; datetime := datetime t; revnum := revnum t;
     merges := merges t; deletedFiles := ds;
     modifiedFiles := modifiedFiles t |}.

Definition set_modifiedFiles (m : string) (t : Transaction) : Transaction :=
  {| branch := branch t; svnprefix := svnprefix t; author := author t;
     log := log t; datetime := datetime t; revnum := revnum t;
     merges := merges t; deletedFiles := deletedFiles t;
     modifiedFiles := m |}.

(** ** The branch registry as a [QHash] *)

(** [branches[k]] as an lvalue: the key is inserted if it is missing. *)
Definition touch_branch (k : string) (bs : gmap string Branch) : gmap string Branch :=
  match bs !! k with
  | Some _ => bs
  | None => <[k := default_Branch]> bs
  end.

(** The [Branch] that the reference [branches[k]] denotes. *)
Definition br_at (k : string) (bs : gmap string Branch) : Branch :=
  default default_Branch (bs !! k).

(** [if (!ref.startsWith("refs/")) ref.prepend("refs/heads/")] *)
Definition to_branchRef (b : string) : string :=
  if Bytes.startsWith "refs/" b then b else "refs/heads/" +:+ b.

(** The constructor: one not-yet-created branch per rule, and the default
    branch [master], created at revision 1. *)
Definition new_repository (rule_name : string) (rule_branches : list string) : Repo :=
  let bs := foldl (fun m b => <[b := default_Branch]> m) ∅ rule_branches in
  let master := br_at "master" bs in
  {| branches := <["master" := {| created := 1; commits := commits master;
                                  marks := marks master |}]> bs;
     annotatedTags := ∅; name := rule_name;
     commitCount := 0; outstandingTransactions := 0;
     last_commit_mark := 0; next_file_mark := maxMark;
     processHasStarted := false; running := false;
     wire := EmptyString; diag := [] |}.

(** ** The marks-file reader *)

(** The mark of one line: the text between the leading [:] and the first
    space, through [toInt]; 0 when the line has another shape. *)
Definition line_mark (line : string) : Z :=
  match line with
  | String ":"%char _ =>
      match Bytes.indexOf " "%char line with
      | Some sp => Bytes.toInt (Bytes.mid 1 (sp - 1) line)
      | None => 0
      end
  | _ => 0
  end.

Fixpoint lastValidMark_loop (lines : list string) (prev_mark : Z) : Z * list Diag :=
  match lines with
  | [] => (prev_mark, [])
  | line :: rest =>
      if Bytes.isEmpty line then lastValidMark_loop rest prev_mark
      else
        let mark := line_mark line in
        if mark =? 0 then (0, [Critical "marks file corrupt?"])
        else if mark =? prev_mark then (0, [Critical "marks file has duplicates"])
        else if mark <? prev_mark then (0, [Critical "marks file not sorted"])
        else if prev_mark + 1 <? mark then (prev_mark, [])
        else lastValidMark_loop rest mark
  end.

(** [lastValidMark(name)] on the content of the marks file of [name]; the
    lines are what [readLine()] returns, newline included. *)
Definition lastValidMark (marks_content : option string) : Z * list Diag :=
  match marks_content with
  | None => (0, [])
  | Some content => lastValidMark_loop (Bytes.read_lines content) 0
  end.

(** ** The progress log *)

Fixpoint strip_prefix (p s : string) : option string :=
  match p, s with
  | EmptyString, _ => Some s
  | String a p', String b s' => if Ascii.eqb a b then strip_prefix p' s' else None
  | String _ _, EmptyString => None
  end.

Fixpoint span_digits (s : string) : string * string :=
  match s with
  | String c s' =>
      if Bytes.is_digit c
      then let (d, rest) := span_digits s' in (String c d, rest)
      else (EmptyString, s)
  | EmptyString => (EmptyString, EmptyString)
  end.

Fixpoint all_digits (s : string) : bool :=
  match s with
  | EmptyString => true
  | String c s' => (Bytes.is_digit c && all_digits s')%bool
  end.

(** The tail of the pattern, up to the end of the text: any text (greedy),
    then [ = :], then digits only.  The greedy group takes the last place
    where [ = :] and nothing but digits follow. *)
Fixpoint match_tail (s : string) : option (string * string) :=
  match s with
  | EmptyString => None
  | String c s' =>
      match match_tail s' with
      | Some (b, d) => Some (String c b, d)
      | None =>
          match strip_prefix " = :" s with
          | Some d =>
              if (negb (Bytes.isEmpty d) && all_digits d)%bool
              then Some (EmptyString, d) else None
          | None => None
          end
      end
  end.

(** [progress.exactMatch(line)] for the pattern of [setupIncremental]:
    [progress SVN r], digits (capture 1), [ branch ], any text (capture 2),
    [ = :], digits (capture 3). *)
Definition progress_exactMatch (line : string) : option (string * string * string) :=
  match strip_prefix "progress SVN r" line with
  | None => None
  | Some s1 =>
      let (d1, s2) := span_digits s1 in
      if Bytes.isEmpty d1 then None
      else match strip_prefix " branch " s2 with
           | None => None
           | Some s3 =>
               match match_tail s3 with
               | Some (b, d3) => Some (d1, b, d3)
               | None => None
               end
           end
  end.

(** ** Incremental resume *)

Inductive Scan : Type :=
| ScanEnd (last_revnum : Z) (r : Repo)
| BeyondCutoff (pos : Z) (cutoff : Z) (r : Repo).

(** One line of the log as the loop body reads it: the comment from [#]
    on is cut, the rest trimmed; an empty line or one that the pattern
    does not match is passed over ([None]); otherwise the revision, the
    branch and the mark. *)
Definition log_entry (raw : string) : option (Z * string * Z) :=
  let line := match Bytes.indexOf "#"%char raw with
              | Some hash => Bytes.truncate hash raw
              | None => raw
              end in
  let line := Bytes.trimmed line in
  if Bytes.isEmpty line then None
  else match progress_exactMatch line with
       | None => None
       | Some (cap1, branch, cap3) => Some (Bytes.toInt cap1, branch, Bytes.toInt cap3)
       end.

(** The [while (!logfile.atEnd())] loop of [setupIncremental]; [pos] is
    [logfile.pos()] before the line is read. *)
Fixpoint scan_log (lines : list string) (pos cutoff last_valid_mark last_revnum : Z)
    (r : Repo) : Scan :=
  match lines with
  | [] => ScanEnd last_revnum r
  | raw :: rest =>
      let next := pos + Bytes.len raw in
      match log_entry raw with
      | None => scan_log rest next cutoff last_valid_mark last_revnum r
      | Some (revnum, branch, mark) =>
          if cutoff <=? revnum then BeyondCutoff pos cutoff r
          else
            let r1 := if revnum <? last_revnum
                      then note (Warning "revision numbers are not monotonic") r
                      else r in
            if last_valid_mark <? mark
            then BeyondCutoff pos revnum
                   (note (Warning "unknown commit mark found: rewinding -- did you hit Ctrl-C?") r1)
            else
              let r2 := if last_commit_mark r1 <? mark
                        then set_last_commit_mark mark r1 else r1 in
              let br := br_at branch (branches r2) in
              let cr := if ((created br =? 0) || (mark =? 0)
                            || (match marks br with [] => true | _ => false end))%bool
                        then revnum else created br in
              let br' := {| created := cr;
                            commits := commits br ++ [revnum];
                            marks := marks br ++ [mark] |} in
              scan_log rest next cutoff last_valid_mark revnum
                (set_branches (<[branch := br']> (branches r2)) r2)
      end
  end.

(** [setupIncremental(cutoff)]: the return value, the final value of the
    by-reference [cutoff], the repository and the files. *)
Definition setupIncremental (cutoff : Z) (r : Repo) (fs : Files) : Z * Z * Repo * Files :=
  match logfile fs with
  | None => (1, cutoff, r, fs)
  | Some content =>
      let (last_valid_mark, ds) := lastValidMark (marksfile fs) in
      match scan_log (Bytes.read_lines content) 0 cutoff last_valid_mark 0 (notes ds r) with
      | ScanEnd last_revnum r1 =>
          let retval := last_revnum + 1 in
          (retval, cutoff, r1,
           if retval =? cutoff
           then {| logfile := logfile fs; logfile_old := None; marksfile := marksfile fs |}
           else fs)
      | BeyondCutoff pos cutoff' r1 =>
          (cutoff', cutoff', note (Debug "truncating history to revision") r1,
           {| logfile := Some (Bytes.truncate pos content);
              logfile_old := Some content;
              marksfile := marksfile fs |})
      end
  end.

(** [restoreLog()] *)
Definition restoreLog (fs : Files) : Files :=
  match logfile_old fs with
  | None => fs
  | Some bkup => {| logfile := Some bkup; logfile_old := None; marksfile := marksfile fs |}
  end.

(** ** The importer process *)

(** What the child does once [closeFastImport] has closed its stdin: it
    finishes within the first [waitForFinished()], it finishes within the
    200 ms after [terminate()], or it is still there after both waits. *)
Inductive ChildExit : Type :=
| Finishes
| FinishesOnTerminate
| DoesNotDie.

(** [closeFastImport()]; [child] is what the two [waitForFinished] calls
    see.  A child that does not die stays running, and
    [processHasStarted] is cleared all the same. *)
Definition closeFastImport (child : ChildExit) (r : Repo) : Repo :=
  let r1 :=
    if running r then
      let r0 := write ("checkpoint" +:+ nl) r in
      match child with
      | Finishes => set_process (processHasStarted r0) false r0
      | FinishesOnTerminate => set_process (processHasStarted r0) false r0
      | DoesNotDie =>
          note (Warning "git-fast-import for repository did not die") r0
      end
    else r in
  set_process false (running r1) r1.

Definition reload_one (kb : string * Branch) : string :=
  let (branch, br) := kb in
  match last (marks br) with
  | None => EmptyString
  | Some m =>
      if m =? 0 then EmptyString
      else
        let branchRef := to_branchRef branch in
        "reset " +:+ branchRef +:+ nl +:+ "from :" +:+ Bytes.number m +:+ nl +:+ nl
        +:+ "progress Branch " +:+ branchRef +:+ " reloaded" +:+ nl
  end.

(** [reloadBranches()]; the source walks [branches.keys()] in the order of
    the hash table, the model in the order of [map_to_list]. *)
Definition reloadBranches (r : Repo) : Repo :=
  foldl (fun acc kb => write (reload_one kb) acc) r (map_to_list (branches r)).

(** [startFastImport()] *)
Definition startFastImport (r : Repo) : result Repo :=
  if running r then Ok r
  else if processHasStarted r
       then Abort (FatalError "git-fast-import has been started once and crashed?")
       else Ok (reloadBranches (set_process true true r)).

(** ** Branches *)

(** [markFrom(branchFrom, branchRevNum, branchFromDesc)]: the mark, the
    description as left in the by-reference argument, and the repository
    ([branches[branchFrom]] inserts a missing key). *)
Definition markFrom (branchFrom : string) (branchRevNum : Z) (branchFromDesc : string)
    (r : Repo) : result (Z * string * Repo) :=
  let r' := set_branches (touch_branch branchFrom (branches r)) r in
  let brFrom := br_at branchFrom (branches r) in
  if created brFrom =? 0 then Ok (-1, branchFromDesc, r')
  else
    match commits brFrom with
    | [] => Ok (-1, branchFromDesc, r')
    | _ :: _ =>
        last_commit ← vlast (commits brFrom);
        if branchRevNum =? last_commit then
          m ← vlast (marks brFrom);
          Ok (m, branchFromDesc, r')
        else
          let it := qUpperBound (commits brFrom) branchRevNum in
          if it =? 0 then Ok (0, branchFromDesc, r')
          else
            let it := it - 1 in
            closestCommit ← vat (commits brFrom) it;
            let desc :=
              if Bytes.isEmpty branchFromDesc then branchFromDesc
              else
                branchFromDesc +:+ " at r" +:+ Bytes.number branchRevNum
                +:+ (if closestCommit =? branchRevNum then EmptyString
                     else " => r" +:+ Bytes.number closestCommit) in
            m ← vat (marks brFrom) it;
            Ok (m, desc, r')
    end.

(** [resetBranch(branch, revnum, mark, resetTo, comment)] *)
Definition resetBranch (branch : string) (revnum mark : Z) (resetTo comment : string)
    (r : Repo) : result (Z * Repo) :=
  let branchRef := to_branchRef branch in
  let br := br_at branch (branches r) in
  backup ←
    (if created br =? 0 then Ok false
     else if created br =? revnum then Ok false
     else m ← vlast (marks br); Ok (negb (m =? 0)));
  let r1 :=
    if backup : bool then
      let backupBranch := "refs/backups/r" +:+ Bytes.number revnum
                          +:+ Bytes.mid 4 (-1) branchRef in
      write ("reset " +:+ backupBranch +:+ nl +:+ "from " +:+ branchRef +:+ nl +:+ nl)
        (note (Warning "backing up branch") r)
    else r in
  let br' := {| created := revnum;
                commits := commits br ++ [revnum];
                marks := marks br ++ [mark] |} in
  let r2 := set_branches (<[branch := br']> (branches r1)) r1 in
  Ok (EXIT_SUCCESS,
      write ("reset " +:+ branchRef +:+ nl +:+ "from " +:+ resetTo +:+ nl +:+ nl
             +:+ "progress SVN r" +:+ Bytes.number revnum
             +:+ " branch " +:+ branch +:+ " = :" +:+ Bytes.number mark
             +:+ " # " +:+ comment +:+ nl +:+ nl) r2).

(** [createBranch(branch, revnum, branchFrom, branchRevNum)] *)
Definition createBranch (branch : string) (revnum : Z) (branchFrom : string)
    (branchRevNum : Z) (r : Repo) : result (Z * Repo) :=
  r0 ← startFastImport r;
  '(mark, branchFromDesc, r1) ← markFrom branchFrom branchRevNum
                                  ("from branch " +:+ branchFrom) r0;
  if mark =? -1 then
    Ok (EXIT_FAILURE,
        note (Critical "is branching from a branch that doesn't exist. Can't continue.") r1)
  else
    let '(branchFromRef, branchFromDesc, r2) :=
      if mark =? 0
      then (to_branchRef branchFrom, branchFromDesc +:+ ", deleted/unknown",
            note (Warning "is branching but no exported commits exist in repository") r1)
      else (":" +:+ Bytes.number mark, branchFromDesc, r1) in
    resetBranch branch revnum mark branchFromRef branchFromDesc
      (note (Debug "Creating branch") r2).

Definition null_sha : string :=
  "0000000000000000000000000000000000000000".

(** [deleteBranch(branch, revnum)] *)
Definition deleteBranch (branch : string) (revnum : Z) (r : Repo) : result (Z * Repo) :=
  r0 ← startFastImport r;
  resetBranch branch revnum 0 null_sha "delete" r0.

(** ** Transactions *)

(** [newTransaction(branch, svnprefix, revnum)].  A [commit-interval] of 0
    makes the remainder a division by zero. *)
Definition newTransaction (cfg : Config) (branch svnprefix : string) (revnum : Z)
    (r : Repo) : result (Repo * Transaction) :=
  r0 ← startFastImport r;
  let r1 := match branches r0 !! branch with
            | Some _ => r0
            | None => note (Warning "is not a known branch in repository") r0
            end in
  let txn := {| branch := branch; svnprefix := svnprefix;
                author := EmptyString; log := EmptyString;
                datetime := 0; revnum := revnum;
                merges := []; deletedFiles := [];
                modifiedFiles := EmptyString |} in
  let r2 := set_commitCount (commitCount r1 + 1) r1 in
  if commit_interval cfg =? 0 then Abort DivisionByZero
  else
    let r3 := if Z.rem (commitCount r2) (commit_interval cfg) =? 0
              then note (Debug "checkpoint!, marks file trunkated")
                     (write ("checkpoint" +:+ nl) r2)
              else r2 in
    Ok (set_outstandingTransactions (outstandingTransactions r3 + 1) r3, txn).

(** [forgetTransaction(t)], called by [~Transaction()] *)
Definition forgetTransaction (r : Repo) : Repo :=
  let r1 := set_outstandingTransactions (outstandingTransactions r - 1) r in
  if outstandingTransactions r1 =? 0 then set_next_file_mark maxMark r1 else r1.

Definition setAuthor (a : string) (t : Transaction) : Transaction :=
  {| branch := branch t; svnprefix := svnprefix t; author := a;
     log := log t; datetime := datetime t; revnum := revnum t;
     merges := merges t; deletedFiles := deletedFiles t;
     modifiedFiles := modifiedFiles t |}.

Definition setDateTime (d : Z) (t : Transaction) : Transaction :=
  {| branch := branch t; svnprefix := svnprefix t; author := author t;
     log := log t; datetime := d; revnum := revnum t;
     merges := merges t; deletedFiles := deletedFiles t;
     modifiedFiles := modifiedFiles t |}.

Definition setLog (l : string) (t : Transaction) : Transaction :=
  {| branch := branch t; svnprefix := svnprefix t; author := author t;
     log := l; datetime := datetime t; revnum := revnum t;
     merges := merges t; deletedFiles := deletedFiles t;
     modifiedFiles := modifiedFiles t |}.

Definition contains_Z (x : Z) (l : list Z) : bool := existsb (Z.eqb x) l.

(** [noteCopyFromBranch(branchFrom, branchRevNum)] *)
Definition noteCopyFromBranch (branchFrom : string) (branchRevNum : Z)
    (t : Transaction) (r : Repo) : result (Repo * Transaction) :=
  if String.eqb (branch t) branchFrom
  then Ok (note (Warning "Cannot merge inside a branch") r, t)
  else
    '(mark, dummy, r1) ← markFrom branchFrom branchRevNum EmptyString r;
    _ ← Q_ASSERT "dummy.isEmpty()" (Bytes.isEmpty dummy);
    if mark =? -1 then
      Ok (note (Warning "is copying from a branch that doesn't exist.  Continuing, assuming the files exist.") r1, t)
    else if mark =? 0 then
      Ok (note (Warning "Unknown revision.  Continuing, assuming the files exist.") r1, t)
    else
      let r2 := note (Warning "has some files copied from") r1 in
      if contains_Z mark (merges t)
      then Ok (note (Debug "merge point already recorded") r2, t)
      else Ok (note (Debug "adding as a merge point") r2,
               set_merges (merges t ++ [mark]) t).

(** [deleteFile(path)] *)
Definition deleteFile (path : string) (t : Transaction) : Transaction :=
  let pathNoSlash :=
    if Bytes.endsWith_char "/"%char path
    then Bytes.truncate (Bytes.len path - 1) path else path in
  set_deletedFiles (deletedFiles t ++ [pathNoSlash]) t.

(** [addFile(path, mode, length)]; the returned device is the importer's
    stdin, see [sink_write]. *)
Definition addFile (cfg : Config) (path : string) (mode length : Z)
    (t : Transaction) (r : Repo) : result (Repo * Transaction) :=
  let mark := next_file_mark r in
  let r1 := set_next_file_mark (next_file_mark r - 1) r in
  _ ← Q_ASSERT "mark > repository->last_commit_mark + 1"
        (last_commit_mark r1 + 1 <? mark);
  let t1 := set_modifiedFiles
              (modifiedFiles t +:+ "M " +:+ Bytes.number_base 8 mode +:+ " :"
               +:+ Bytes.number mark +:+ " " +:+ path +:+ nl) t in
  let r2 := if dry_run cfg then r1
            else write ("blob" +:+ nl +:+ "mark :" +:+ Bytes.number mark +:+ nl
                        +:+ "data " +:+ Bytes.number length +:+ nl) r1 in
  Ok (r2, t1).

(** The caller of [addFile] writes the body of the blob to the device it
    got back, which is [fastImport]. *)
Definition sink_write (bytes : string) (r : Repo) : Repo := write bytes r.

(** The [foreach (int merge, merges)] loop of [commit]: the marks written
    as [merge] lines, in order, and the messages logged.  [i] is the parent
    count so far; the loop is left at the first merge that would be the
    17th parent. *)
Fixpoint merge_loop (parentmark : Z) (i : Z) (merges : list Z) : list Z * list Diag :=
  match merges with
  | [] => ([], [])
  | merge :: rest =>
      if merge =? parentmark then
        let (ms, ds) := merge_loop parentmark i rest in
        (ms, Debug "Skipping marking as a merge point as it matches the parent" :: ds)
      else if 16 <? i + 1 then ([], [Warning "too many merge parents"])
      else let (ms, ds) := merge_loop parentmark (i + 1) rest in (merge :: ms, ds)
  end.

Definition merge_desc (ms : list Z) : string :=
  foldr (fun m acc => " :" +:+ Bytes.number m +:+ acc) EmptyString ms.

Definition merge_lines (ms : list Z) : string :=
  foldr (fun m acc => "merge :" +:+ Bytes.number m +:+ nl +:+ acc) EmptyString ms.

Definition contains_string (x : string) (l : list string) : bool :=
  existsb (String.eqb x) l.

Definition deletion_lines (deletedFiles : list string) : string :=
  if contains_string EmptyString deletedFiles then "deleteall" +:+ nl
  else foldr (fun df acc => "D " +:+ df +:+ nl +:+ acc) EmptyString deletedFiles.

(** The commit message: the log with a final newline, and the metadata
    trailer under [add-metadata]. *)
Definition commit_message (cfg : Config) (log svnprefix : string) (revnum : Z) : string :=
  let message := if Bytes.endsWith_char "010"%char log then log else log +:+ nl in
  if add_metadata cfg
  then message +:+ nl +:+ "svn path=" +:+ svnprefix +:+ "; revision="
       +:+ Bytes.number revnum +:+ nl
  else message.

Definition commit_header (t : Transaction) (mark : Z) (message : string) : string :=
  "commit " +:+ to_branchRef (branch t) +:+ nl
  +:+ "mark :" +:+ Bytes.number mark +:+ nl
  +:+ "committer " +:+ author t +:+ " " +:+ Bytes.number (datetime t) +:+ " -0000" +:+ nl
  +:+ "data " +:+ Bytes.number (Bytes.len message) +:+ nl.

Definition commit_progress (t : Transaction) (mark : Z) (desc : string) : string :=
  nl +:+ "progress SVN r" +:+ Bytes.number (revnum t)
  +:+ " branch " +:+ branch t +:+ " = :" +:+ Bytes.number mark
  +:+ (if Bytes.isEmpty desc then EmptyString else " # merge from") +:+ desc
  +:+ nl +:+ nl.

(** [Transaction::commit()].  [processCache.touch(repository)] moves this
    repository to the end of the process cache and may close the importers
    of other repositories; it leaves this repository as it is.  The final
    wait for the child to take the bytes is taken to succeed. *)
Definition commit (cfg : Config) (t : Transaction) (r : Repo) : result Repo :=
  let mark := last_commit_mark r + 1 in
  let r1 := set_last_commit_mark mark r in
  _ ← Q_ASSERT "mark < repository->next_file_mark - 1"
        (mark <? next_file_mark r1 - 1);
  let message := commit_message cfg (log t) (svnprefix t) (revnum t) in
  let br := br_at (branch t) (branches r1) in
  '(parentmark, cr, r2) ←
    (if (negb (created br =? 0)
         && negb (match marks br with [] => true | _ => false end))%bool
     then pm ← vlast (marks br); Ok (pm, created br, r1)
     else Ok (0, revnum t,
              note (Warning "Branch doesn't exist at revision -- did you resume from the wrong revision?") r1));
  let br' := {| created := cr;
                commits := commits br ++ [revnum t];
                marks := marks br ++ [mark] |} in
  let r3 := set_branches (<[branch t := br']> (branches r2)) r2 in
  let r4 := write (commit_header t mark message) r3 in
  let r5 := write nl (write message r4) in
  let (ms, ds) := merge_loop parentmark (if parentmark =? 0 then 0 else 1) (merges t) in
  let r6 := write (merge_lines ms) (notes ds r5) in
  let r7 := write (deletion_lines (deletedFiles t)) r6 in
  let r8 := write (modifiedFiles t) r7 in
  Ok (write (commit_progress t mark (merge_desc ms)) r8).

(** ** Annotated tags *)

(** [createAnnotatedTag(ref, svnprefix, revnum, author, dt, log)] *)
Definition createAnnotatedTag (ref svnprefix : string) (revnum : Z)
    (author : string) (dt : Z) (log : string) (r : Repo) : Repo :=
  let tagName := if Bytes.startsWith "refs/tags/" ref
                 then Bytes.mid 10 (-1) ref else ref in
  set_annotatedTags
    (<[tagName := {| supportingRef := ref; tag_svnprefix := svnprefix;
                     tag_author := author; tag_log := log; dt := dt;
                     tag_revnum := revnum |}]> (annotatedTags r)) r.

Definition tag_text (cfg : Config) (kt : string * AnnotatedTag) : string :=
  let (tagName, tag) := kt in
  let message := commit_message cfg (tag_log tag) (tag_svnprefix tag) (tag_revnum tag) in
  let branchRef := to_branchRef (supportingRef tag) in
  "progress Creating annotated tag " +:+ tagName +:+ " from ref " +:+ branchRef +:+ nl
  +:+ "tag " +:+ tagName +:+ nl
  +:+ "from " +:+ branchRef +:+ nl
  +:+ "tagger " +:+ tag_author tag +:+ " " +:+ Bytes.number (dt tag) +:+ " -0000" +:+ nl
  +:+ "data " +:+ Bytes.number (Bytes.len message) +:+ nl
  +:+ message +:+ nl.

(** [finalizeTags()]; the tags are walked in the order of the table. *)
Definition finalizeTags (cfg : Config) (r : Repo) : result Repo :=
  if decide (annotatedTags r = ∅) then Ok r
  else
    r0 ← startFastImport r;
    Ok (foldl (fun acc kt => write (tag_text cfg kt) acc) r0
          (map_to_list (annotatedTags r0))).

(** ** The calls a client can make on one repository *)

Inductive Op : Type :=
| OpNewTransaction (branch svnprefix : string) (revnum : Z)
| OpAddFile (t : Transaction) (path : string) (mode length : Z)
| OpSinkWrite (bytes : string)
| OpNoteCopyFromBranch (t : Transaction) (branchFrom : string) (branchRevNum : Z)
| OpCommit (t : Transaction)
| OpForgetTransaction
| OpCreateBranch (branch : string) (revnum : Z) (branchFrom : string) (branchRevNum : Z)
| OpDeleteBranch (branch : string) (revnum : Z)
| OpCreateAnnotatedTag (ref svnprefix : string) (revnum : Z) (author : string)
    (dt : Z) (log : string)
| OpFinalizeTags
| OpSetupIncremental (cutoff : Z) (fs : Files)
| OpCloseFastImport (child : ChildExit).

(** The repository after one call. *)
Definition run_op (cfg : Config) (op : Op) (r : Repo) : result Repo :=
  match op with
  | OpNewTransaction b p n => fst <$> newTransaction cfg b p n r
  | OpAddFile t path mode length => fst <$> addFile cfg path mode length t r
  | OpSinkWrite bytes => Ok (sink_write bytes r)
  | OpNoteCopyFromBranch t from n => fst <$> noteCopyFromBranch from n t r
  | OpCommit t => commit cfg t r
  | OpForgetTransaction => Ok (forgetTransaction r)
  | OpCreateBranch b n from m => snd <$> createBranch b n from m r
  | OpDeleteBranch b n => snd <$> deleteBranch b n r
  | OpCreateAnnotatedTag ref p n a d l => Ok (createAnnotatedTag ref p n a d l r)
  | OpFinalizeTags => finalizeTags cfg r
  | OpSetupIncremental cutoff fs =>
      let '(_, _, r', _) := setupIncremental cutoff r fs in Ok r'
  | OpCloseFastImport child => Ok (closeFastImport child r)
  end.

(** ** The scenarios of the specification *)

(** A repository made from the rule [{name: "R", branches: ["master"]}]. *)
Definition fresh_repository : Repo := new_repository "R" ["master"].

(** S1: one commit on [master] carrying one file. *)
Definition scenario_S1 : result Repo :=
  '(r1, t) ← newTransaction default_config "master" "/p" 3 fresh_repository;
  let t := setLog "hello" (setDateTime 1000 (setAuthor "A <a@x>" t)) in
  '(r2, t) ← addFile default_config "f" 33188 5 t r1;
  let r3 := sink_write "hello" r2 in
  commit default_config t r3.

(** S2: after S1, branch [b] is made from [master] at revision 3. *)
Definition scenario_S2 : result (Z * Repo) :=
  r ← scenario_S1;
  createBranch "b" 5 "master" 3 r.

(** S5: the log names marks 1 and 2, the marks file holds mark 1 only. *)
Definition files_S5 : Files :=
  {| logfile := Some (unlines ["progress SVN r1 branch master = :1";
                               "progress SVN r2 branch master = :2"]);
     logfile_old := None;
     marksfile := Some (unlines [":1 da39a3ee5e6b4b0d3255bfef95601890afd80709"]) |}.

(** ** Notions used in the statements *)

(** The bytes written to the importer between two states of a repository:
    the wire of [after] without the wire of [before] in front. *)
Definition written (before after : Repo) : option string :=
  strip_prefix (wire before) (wire after).

(** Everything that [reloadBranches] writes. *)
Definition reload_text (bs : gmap string Branch) : string :=
  foldr (fun kb acc => reload_one kb +:+ acc) EmptyString (map_to_list bs).

(** The two vectors of every branch have the same length. *)
Definition parallel_vectors (r : Repo) : Prop :=
  forall k b, branches r !! k = Some b -> length (commits b) = length (marks b).

(** The counters and the tags of two states agree. *)
Definition same_counters (r r' : Repo) : Prop :=
  commitCount r' = commitCount r
  /\ outstandingTransactions r' = outstandingTransactions r
  /\ last_commit_mark r' = last_commit_mark r
  /\ next_file_mark r' = next_file_mark r
  /\ annotatedTags r' = annotatedTags r.

(** The repository that a scan of the log ends with. *)
Definition scan_repo (s : Scan) : Repo :=
  match s with ScanEnd _ r => r | BeyondCutoff _ _ r => r end.

(** The implicit parent of a commit on the branch of [t]: the last mark of
    the branch when it was created and has marks, 0 otherwise. *)
Definition parent_mark (t : Transaction) (r : Repo) : Z :=
  let br := br_at (branch t) (branches r) in
  if (negb (created br =? 0)
      && negb (match marks br with [] => true | _ => false end))%bool
  then default 0 (last (marks br)) else 0.

(** The marks that [commit()] writes as [merge] lines. *)
Definition merge_marks (t : Transaction) (r : Repo) : list Z :=
  let parentmark := parent_mark t r in
  fst (merge_loop parentmark (if parentmark =? 0 then 0 else 1) (merges t)).

(** A vector of revisions in non-decreasing order. *)
Definition nondecreasing (v : list Z) : Prop :=
  forall i j x y, (i <= j)%nat -> v !! i = Some x -> v !! j = Some y -> x <= y.

(** The text of a list of lines, one after the other. *)
Definition concat_lines (ls : list string) : string :=
  foldr String.append EmptyString ls.



(** A log whose only entry is at revision 5 with mark 7, beside the marks
    file of S5, which ends at mark 1. *)
Definition files_beyond_cutoff : Files :=
  {| logfile := Some (unlines ["progress SVN r5 branch master = :7"]);
     logfile_old := None;
     marksfile := marksfile files_S5 |}.

(** A transaction on a branch [x] that the registry does not hold notes a
    copy from [x] itself: the entries of [x] before and after the call. *)
Definition self_copy_scenario : result (option Branch * option Branch) :=
  '(r1, t) ← newTransaction default_config "x" "/p" 1 fresh_repository;
  '(r2, _) ← noteCopyFromBranch "x" 1 t r1;
  Ok (branches r1 !! "x", branches r2 !! "x").

(** The calls a client makes on an open transaction.  [TAddFile] stands
    for [addFile] followed by the body of the file, written to the device
    that [addFile] returned. *)
Inductive TxnOp : Type :=
| TSetAuthor (a : string)
| TSetDateTime (d : Z)
| TSetLog (l : string)
| TNoteCopyFromBranch (branchFrom : string) (branchRevNum : Z)
| TDeleteFile (path : string)
| TAddFile (path : string) (mode : Z) (body : string).

Definition run_txn_op (cfg : Config) (op : TxnOp) (t : Transaction) (r : Repo)
    : result (Repo * Transaction) :=
  match op with
  | TSetAuthor a => Ok (r, setAuthor a t)
  | TSetDateTime d => Ok (r, setDateTime d t)
  | TSetLog l => Ok (r, setLog l t)
  | TNoteCopyFromBranch branchFrom n => noteCopyFromBranch branchFrom n t r
  | TDeleteFile path => Ok (r, deleteFile path t)
  | TAddFile path mode body =>
      '(r1, t1) ← addFile cfg path mode (Bytes.len body) t r;
      Ok (sink_write body r1, t1)
  end.

Fixpoint run_txn (cfg : Config) (ops : list TxnOp) (t : Transaction) (r : Repo)
    : result (Repo * Transaction) :=
  match ops with
  | [] => Ok (r, t)
  | op :: rest =>
      '(r1, t1) ← run_txn_op cfg op t r;
      run_txn cfg rest t1 r1
  end.

(** The files of the [TAddFile] calls, in order. *)
Definition added_files (ops : list TxnOp) : list (string * Z * string) :=
  flat_map (fun op => match op with
                      | TAddFile path mode body => [(path, mode, body)]
                      | _ => []
                      end) ops.

(** The blobs of [files], in order, for blob marks counting down from [mark]. *)
Fixpoint blob_stream (mark : Z) (files : list (string * Z * string)) : string :=
  match files with
  | [] => EmptyString
  | (_, _, body) :: rest =>
      "blob" +:+ nl +:+ "mark :" +:+ Bytes.number mark +:+ nl
      +:+ "data " +:+ Bytes.number (Bytes.len body) +:+ nl
      +:+ body +:+ blob_stream (mark - 1) rest
  end.

(** The modification lines of [files], in order. *)
Fixpoint M_lines (mark : Z) (files : list (string * Z * string)) : string :=
  match files with
  | [] => EmptyString
  | (path, mode, _) :: rest =>
      "M " +:+ Bytes.number_base 8 mode +:+ " :" +:+ Bytes.number mark
      +:+ " " +:+ path +:+ nl +:+ M_lines (mark - 1) rest
  end.

(** The states of a repository that a client can bring about: the one the
    constructor builds and every one that a call returns; and, between two
    calls, the state in which a running child has stopped on its own (it
    crashed, or it never came up after [start]). *)
Inductive reachable (cfg : Config) : Repo -> Prop :=
| reachable_new (rule_name : string) (rule_branches : list string) :
    reachable cfg (new_repository rule_name rule_branches)
| reachable_step (op : Op) (r r' : Repo) :
    reachable cfg r -> run_op cfg op r = Ok r' -> reachable cfg r'
| reachable_child_stops (r : Repo) :
    reachable cfg r -> running r = true ->
    reachable cfg (set_process (processHasStarted r) false r).

(** The message of the parent cap. *)
Definition too_many_parents (d : Diag) : bool :=
  match d with
  | Warning msg => String.eqb msg "too many merge parents"
  | _ => false
  end.

(** S4: a branch [b] whose last mark is 2, and a transaction on it with
    the merges 2 and 5. *)
Definition repository_S4 : Repo :=
  set_last_commit_mark 5
    (set_branches
       (<["b" := {| created := 4; commits := [4]; marks := [2] |}]>
          (branches fresh_repository))
       fresh_repository).

Definition transaction_S4 : Transaction :=
  {| branch := "b"; svnprefix := "/b"; author := "A <a@x>"; log := "merge";
     datetime := 2000; revnum := 9; merges := [2; 5]; deletedFiles := [];
     modifiedFiles := EmptyString |}.

(** ** The rest of the file: process cache, file names, prefixing facade *)

(** [QLinkedList::removeOne(x)]: the first occurrence of [x] is taken out.
    ([ProcessCache::remove] is [removeOne] from Qt 4.4 on.) *)
Fixpoint removeOne {A : Type} `{EqDecision A} (x : A) (l : list A) : list A :=
  match l with
  | [] => []
  | y :: l' => if decide (x = y) then l' else y :: removeOne x l'
  end.

(** The loop [while (size() >= maxSimultaneousProcesses)
    takeFirst()->closeFastImport();] of [ProcessCache::touch].  The
    repositories are told apart by their address, here any type with a
    decidable equality.  [closeFastImport()] ends with
    [processCache.remove(this)], which is the [removeOne] on what is left.
    The result is the repositories closed, in order, and the cache.  Every
    round shortens the cache, so [length cache] rounds are enough. *)
Fixpoint evict {A : Type} `{EqDecision A} (fuel : nat) (cache : list A)
    : list A * list A :=
  match fuel with
  | O => ([], cache)
  | S f =>
      if maxSimultaneousProcesses <=? Z.of_nat (length cache) then
        match cache with
        | [] => ([], [])
        | first :: rest =>
            let (closed, cache') := evict f (removeOne first rest) in
            (first :: closed, cache')
        end
      else ([], cache)
  end.

(** [ProcessCache::touch(repo)]: the repositories whose importer is closed,
    and the cache afterwards. *)
Definition touch {A : Type} `{EqDecision A} (repo : A) (cache : list A)
    : list A * list A :=
  let cache1 := removeOne repo cache in
  let (closed, cache2) := evict (length cache1) cache1 in
  (closed, (cache2 ++ [repo])%list).

(** [name.replace(before, after)] for two characters. *)
Fixpoint replace_char (before after : ascii) (s : string) : string :=
  match s with
  | EmptyString => EmptyString
  | String c s' =>
      String (if Ascii.eqb c before then after else c) (replace_char before after s')
  end.

(** [marksFileName(name)] *)
Definition marksFileName (name : string) : string :=
  "marks-" +:+ replace_char "/" "_" name.

(** [logFileName(name)] *)
Definition logFileName (name : string) : string :=
  "log-" +:+ replace_char "/" "_" name.

(** [PrefixingRepository::Transaction]: [deleteFile] and [addFile] hand
    [prefix + path] to the transaction they wrap; every other call is
    passed on as it is. *)
Definition Prefixing_deleteFile (prefix path : string) (t : Transaction) : Transaction :=
  deleteFile (prefix +:+ path) t.

Definition Prefixing_addFile (cfg : Config) (prefix path : string) (mode length : Z)
    (t : Transaction) (r : Repo) : result (Repo * Transaction) :=
  addFile cfg (prefix +:+ path) mode length t r.

(** One call on a transaction of a [PrefixingRepository] with [prefix]. *)
Definition run_prefixing_txn_op (cfg : Config) (prefix : string) (op : TxnOp)
    (t : Transaction) (r : Repo) : result (Repo * Transaction) :=
  match op with
  | TDeleteFile path => Ok (r, Prefixing_deleteFile prefix path t)
  | TAddFile path mode body =>
      '(r1, t1) ← Prefixing_addFile cfg prefix path mode (Bytes.len body) t r;
      Ok (sink_write body r1, t1)
  | _ => run_txn_op cfg op t r
  end.

Fixpoint run_prefixing_txn (cfg : Config) (prefix : string) (ops : list TxnOp)
    (t : Transaction) (r : Repo) : result (Repo * Transaction) :=
  match ops with
  | [] => Ok (r, t)
  | op :: rest =>
      '(r1, t1) ← run_prefixing_txn_op cfg prefix op t r;
      run_prefixing_txn cfg prefix rest t1 r1
  end.

(** [PrefixingRepository::setupIncremental(int &)]: always 1, the cutoff
    is not touched. *)
Definition Prefixing_setupIncremental (cutoff : Z) : Z * Z := (1, cutoff).

(** A file with [prefix] in front of its path. *)
Definition prefix_file (prefix : string) (f : string * Z * string) : string * Z * string :=
  let '(path, mode, body) := f in (prefix +:+ path, mode, body).

(** ** Notions used in the statements about the log *)

(** The entries of a log, in order. *)
Definition log_entries (content : string) : list (Z * string * Z) :=
  omap log_entry (Bytes.read_lines content).

(** The revisions and the marks that the entries hold for one branch. *)
Definition entries_revs (b : string) (es : list (Z * string * Z)) : list Z :=
  flat_map (fun '(rev, b', _) => if String.eqb b' b then [rev] else []) es.

Definition entries_marks (b : string) (es : list (Z * string * Z)) : list Z :=
  flat_map (fun '(_, b', mark) => if String.eqb b' b then [mark] else []) es.

(** The revision of the last entry, [start] without entries. *)
Definition entries_last_rev (start : Z) (es : list (Z * string * Z)) : Z :=
  foldl (fun _ '(rev, _, _) => rev) start es.

(** The greatest mark among [start] and the entries. *)
Definition entries_max_mark (start : Z) (es : list (Z * string * Z)) : Z :=
  foldl (fun acc '(_, _, mark) => if acc <? mark then mark else acc) start es.

(** The only branch with a creation revision and no marks is the [master]
    of the constructor. *)
Definition only_master_unmarked (bs : gmap string Branch) : Prop :=
  forall k b, bs !! k = Some b -> marks b = [] ->
    created b = 0 \/ (k = "master" /\ created b = 1).

(** A call on a transaction with [prefix] in front of its path. *)
Definition prefix_op (prefix : string) (op : TxnOp) : TxnOp :=
  match op with
  | TDeleteFile path => TDeleteFile (prefix +:+ path)
  | TAddFile path mode body => TAddFile (prefix +:+ path) mode body
  | _ => op
  end.

(** A transaction as [newTransaction] makes it, for the statements. *)
Definition new_txn (branch svnprefix : string) (revnum : Z) : Transaction :=
  {| branch := branch; svnprefix := svnprefix;
     author := EmptyString; log := EmptyString;
     datetime := 0; revnum := revnum;
     merges := []; deletedFiles := [];
     modifiedFiles := EmptyString |}.

(** Everything that [finalizeTags] writes for the tags [ts]. *)
Definition tags_text (cfg : Config) (ts : gmap string AnnotatedTag) : string :=
  foldr (fun kt acc => tag_text cfg kt +:+ acc) EmptyString (map_to_list ts).

(** The local [pathNoSlash] of [deleteFile]: the path without one final
    slash. *)
Definition pathNoSlash (path : string) : string :=
  if Bytes.endsWith_char "/"%char path
  then Bytes.truncate (Bytes.len path - 1) path else path.

(** The paths of the [TDeleteFile] calls, in order. *)
Definition deleted_paths (ops : list TxnOp) : list string :=
  flat_map (fun op => match op with
                      | TDeleteFile path => [path]
                      | _ => []
                      end) ops.

(** The child has stopped on its own: the process is not running although
    it was started and not closed.  This is the state that the [qFatal] of
    [startFastImport] is for. *)
Definition crashed (r : Repo) : Prop :=
  running r = false /\ processHasStarted r = true.

(** * Properties *)

(** ** Checks of the string primitives *)

Example number_decimal : Bytes.number 1048575 = "1048575".
Proof. reflexivity. Qed.

Example number_negative : Bytes.number (-1) = "-1".
Proof. reflexivity. Qed.

Example number_zero : Bytes.number 0 = "0".
Proof. reflexivity. Qed.

Example number_octal : Bytes.number_base 8 33188 = "100644".
Proof. reflexivity. Qed.

Example toInt_spaces : Bytes.toInt " 42 " = 42.
Proof. reflexivity. Qed.

Example toInt_not_a_number : Bytes.toInt "4x" = 0.
Proof. reflexivity. Qed.

Example toInt_out_of_range : Bytes.toInt "2147483648" = 0.
Proof. reflexivity. Qed.

Example read_lines_keeps_newlines :
  Bytes.read_lines ("a" +:+ nl +:+ nl +:+ "b") = ["a" +:+ nl; nl; "b"].
Proof. reflexivity. Qed.

Example progress_pattern :
  progress_exactMatch "progress SVN r12 branch a = :1 = :34"
  = Some ("12", "a = :1", "34").
Proof. reflexivity. Qed.

Example progress_pattern_reset_line :
  log_entry ("progress SVN r5 branch b = :1 # from branch master" +:+ nl)
  = Some (5, "b", 1).
Proof. reflexivity. Qed.

Example progress_pattern_other :
  log_entry ("progress Branch refs/heads/master reloaded" +:+ nl) = None.
Proof. reflexivity. Qed.

Example default_commit_interval : commit_interval default_config = 10000.
Proof. reflexivity. Qed.

Example deleteall_S6 : deletion_lines [EmptyString] = "deleteall" +:+ nl.
Proof. reflexivity. Qed.

(** [QByteArray::number] never runs out of rounds: with a base of at least
    2, any supply of fuel that covers the bits of [n] gives the same text. *)
Lemma log2_div_lt base n : 2 <= base -> n / base <> 0 -> 0 <= n ->
  Z.log2 (n / base) < Z.log2 n.
Proof.
  intros Hb Hq Hn.
  assert (Hge : base <= n).
  { destruct (Z_lt_le_dec n base) as [Hlt|]; [|assumption].
    rewrite Z.div_small in Hq by lia. congruence. }
  assert (Hle : n / base <= n / 2) by (apply Z.div_le_compat_l; lia).
  assert (Hpos : 0 < n / base).
  { pose proof (Z.div_pos n base). assert (0 <= n / base) by (apply Z.div_pos; lia). lia. }
  apply Z.le_lt_trans with (Z.log2 (n / 2)); [apply Z.log2_le_mono; exact Hle|].
  change 2 with (2 ^ 1). rewrite <- Z.shiftr_div_pow2 by lia.
  rewrite Z.log2_shiftr by lia.
  assert (1 <= Z.log2 n).
  { change 1 with (Z.log2 2). apply Z.log2_le_mono. lia. }
  lia.
Qed.

Lemma number_go_fuel base : 2 <= base -> forall f1 f2 n acc,
  0 <= n -> (Z.to_nat (Z.log2 n) <= f1)%nat -> (Z.to_nat (Z.log2 n) <= f2)%nat ->
  Bytes.number_go f1 base n acc = Bytes.number_go f2 base n acc.
Proof.
  intros Hb. induction f1 as [|f1 IH]; intros f2 n acc Hn H1 H2.
  - destruct f2 as [|f2]; [reflexivity|]. cbn.
    destruct (Z.eqb_spec (n / base) 0) as [|Hq]; [reflexivity|].
    pose proof (log2_div_lt base n Hb Hq Hn).
    pose proof (Z.log2_nonneg (n / base)). lia.
  - destruct f2 as [|f2]; cbn.
    + destruct (Z.eqb_spec (n / base) 0) as [|Hq]; [reflexivity|].
      pose proof (log2_div_lt base n Hb Hq Hn).
      pose proof (Z.log2_nonneg (n / base)). lia.
    + destruct (Z.eqb_spec (n / base) 0) as [|Hq]; [reflexivity|].
      pose proof (log2_div_lt base n Hb Hq Hn).
      apply IH; [apply Z.div_pos; lia|lia|lia].
Qed.

(** ** The state after scenario S1 *)

(** After S1 the vectors of [master] hold revision 3 with mark 1. *)
Lemma scenario_S1_master :
  (fun r => branches r !! "master") <$> scenario_S1
  = Ok (Some {| created := 3; commits := [3]; marks := [1] |}).
Proof. vm_compute. reflexivity. Qed.

(** ** Scenario S2 *)

(** C6, as the code has it. In the state left by S1,
    [createBranch("b", 5, "master", 3)] succeeds and writes a reset of
    [refs/heads/b] to [:1] whose progress line carries the mark [:1] and
    the comment [from branch master]: revision 3 is the last commit of
    [master], so [markFrom] answers on its fast path and leaves the
    description alone. *)
Theorem scenario_S2_wire :
  (r1 ← scenario_S1;
   '(status, r2) ← createBranch "b" 5 "master" 3 r1;
   Ok (status, written r1 r2))
  = Ok (EXIT_SUCCESS,
        Some (unlines ["reset refs/heads/b";
                       "from :1";
                       "";
                       "progress SVN r5 branch b = :1 # from branch master";
                       ""])).
Proof. vm_compute. reflexivity. Qed.

(** The lookup behind it: revision 3 is the last commit of [master]. *)
Example scenario_S2_markFrom :
  (r1 ← scenario_S1;
   '(mark, desc, _) ← markFrom "master" 3 "from branch master" r1;
   Ok (mark, desc))
  = Ok (1, "from branch master").
Proof. vm_compute. reflexivity. Qed.

(** C6, as stated, fails: the bytes written are not the ones with the mark
    [:0] and the suffix [ at r3]. *)
Lemma scenario_S2_not_as_stated :
  (r1 ← scenario_S1;
   '(_, r2) ← createBranch "b" 5 "master" 3 r1;
   Ok (written r1 r2))
  <> Ok (Some (unlines ["reset refs/heads/b";
                        "from :1";
                        "";
                        "progress SVN r5 branch b = :0 # from branch master at r3";
                        ""])).
Proof. vm_compute. discriminate. Qed.

(** ** The marks-file reader on blank lines *)

(** C4. [readLine()] keeps the newline, so a blank line is the one-byte
    text of a newline and the test [line.isEmpty()] does not see it: its
    mark is 0 and the reader reports a corrupt file and returns 0 wherever
    the line stands.  With a blank line between the marks 1 and 2 the
    result is 0; without it, 2. *)
Theorem lastValidMark_blank_line :
  (forall rest prev_mark,
      lastValidMark_loop (nl :: rest) prev_mark
      = (0, [Critical "marks file corrupt?"]))
  /\ lastValidMark (Some (unlines [":1 da39a3ee5e6b4b0d3255bfef95601890afd80709";
                                   "";
                                   ":2 356a192b7913b04c54574d18c28d46e6395428ab"]))
     = (0, [Critical "marks file corrupt?"])
  /\ lastValidMark (Some (unlines [":1 da39a3ee5e6b4b0d3255bfef95601890afd80709";
                                   ":2 356a192b7913b04c54574d18c28d46e6395428ab"]))
     = (2, []).
Proof.
  split; [ intros rest prev_mark; reflexivity | ].
  split; vm_compute; reflexivity.
Qed.

(** ** Resetting a branch without marks *)

(** C9. The constructor leaves [master] created at revision 1 with empty
    vectors.  Deleting it at another revision makes [resetBranch] evaluate
    [br.marks.last()] on the empty vector, which is an assertion failure of
    [QVector], not a well-defined test. *)
Theorem deleteBranch_fresh_master_aborts :
  branches fresh_repository !! "master"
  = Some {| created := 1; commits := []; marks := [] |}
  /\ deleteBranch "master" 2 fresh_repository
     = Abort (AssertFailed "QVector::last: !isEmpty()").
Proof. split; vm_compute; reflexivity. Qed.

(** ** The parent cap of a commit *)

Lemma merge_loop_spec parentmark merges (f : Diag -> bool) :
  f (Debug "Skipping marking as a merge point as it matches the parent") = false ->
  f (Warning "too many merge parents") = true ->
  forall i,
    let candidates := List.filter (fun m => negb (m =? parentmark)) merges in
    let room := Z.to_nat (16 - i) in
    fst (merge_loop parentmark i merges) = take room candidates
    /\ List.filter f (snd (merge_loop parentmark i merges))
       = (if (room <? length candidates)%nat
          then [Warning "too many merge parents"] else []).
Proof.
  intros Hdebug Hwarn.
  induction merges as [|m rest IH]; intros i; cbn zeta.
  - cbn. rewrite take_nil. split; [reflexivity|].
    destruct (Z.to_nat (16 - i)); reflexivity.
  - cbn [merge_loop List.filter].
    destruct (Z.eqb_spec m parentmark) as [->|Hne]; cbn [negb].
    + specialize (IH i). cbn zeta in IH.
      destruct (merge_loop parentmark i rest) as [ms ds].
      cbn [fst snd List.filter] in *. rewrite Hdebug. exact IH.
    + destruct (Z.ltb_spec 16 (i + 1)) as [Hfull|Hroom].
      * replace (Z.to_nat (16 - i)) with 0%nat by lia.
        cbn [fst snd List.filter take length Nat.ltb Nat.leb]. rewrite Hwarn.
        split; reflexivity.
      * specialize (IH (i + 1)). cbn zeta in IH.
        destruct (merge_loop parentmark (i + 1) rest) as [ms ds].
        cbn [fst snd] in *. destruct IH as [IHms IHds].
        replace (Z.to_nat (16 - i)) with (S (Z.to_nat (16 - (i + 1)))) by lia.
        cbn [take length]. split; [f_equal; exact IHms|].
        rewrite IHds. reflexivity.
Qed.

(** The merge loop by itself: what it writes and what it warns about. *)
Lemma merge_loop_cap (parentmark : Z) (merges : list Z) :
  let i0 := if parentmark =? 0 then 0 else 1 in
  let cap := if parentmark =? 0 then 16%nat else 15%nat in
  let candidates := List.filter (fun m => negb (m =? parentmark)) merges in
  let emitted := fst (merge_loop parentmark i0 merges) in
  let warnings := List.filter is_warning (snd (merge_loop parentmark i0 merges)) in
  emitted = take cap candidates
  /\ (length emitted <= cap)%nat
  /\ warnings = (if (cap <? length candidates)%nat
                 then [Warning "too many merge parents"] else []).
Proof.
  cbn zeta.
  pose proof (merge_loop_spec parentmark merges is_warning eq_refl eq_refl
                (if parentmark =? 0 then 0 else 1)) as [Hms Hds].
  cbn zeta in Hms, Hds.
  replace (Z.to_nat (16 - (if parentmark =? 0 then 0 else 1)))
    with (if parentmark =? 0 then 16%nat else 15%nat) in *
    by (destruct (parentmark =? 0); reflexivity).
  split; [exact Hms|]. split; [|exact Hds].
  rewrite Hms, length_take. lia.
Qed.

Example merge_S4 : merge_lines (fst (merge_loop 2 1 [2; 5])) = "merge :5" +:+ nl.
Proof. reflexivity. Qed.

(** ** The binary search *)

Lemma shiftr_1_half n : 0 < n -> 0 <= Z.shiftr n 1 < n.
Proof.
  intros Hn. rewrite Z.shiftr_div_pow2 by lia. change (2 ^ 1) with 2.
  split; [apply Z.div_pos; lia | apply Z.div_lt; lia].
Qed.

(** The search never runs out of rounds: any two supplies of fuel that
    cover [n] give the same answer. *)
Lemma qUpperBound_loop_fuel v value : forall f1 f2 begin n,
  (Z.to_nat n <= f1)%nat -> (Z.to_nat n <= f2)%nat ->
  qUpperBound_loop f1 v value begin n = qUpperBound_loop f2 v value begin n.
Proof.
  induction f1 as [|f1 IH]; intros f2 begin n H1 H2.
  - assert (n <= 0) by lia.
    destruct f2; cbn; [reflexivity|].
    destruct (Z.ltb_spec 0 n); [lia|reflexivity].
  - destruct f2 as [|f2].
    + assert (n <= 0) by lia. cbn.
      destruct (Z.ltb_spec 0 n); [lia|reflexivity].
    + cbn. destruct (Z.ltb_spec 0 n) as [Hn|]; [|reflexivity].
      pose proof (shiftr_1_half n Hn).
      destruct (value <? _); apply IH; lia.
Qed.

Lemma qUpperBound_loop_range v value : forall fuel begin n,
  0 <= n -> begin <= qUpperBound_loop fuel v value begin n <= begin + n.
Proof.
  induction fuel as [|fuel IH]; intros begin n Hn; cbn; [lia|].
  destruct (Z.ltb_spec 0 n) as [Hpos|]; [|lia].
  pose proof (shiftr_1_half n Hpos).
  destruct (value <? _).
  - specialize (IH begin (Z.shiftr n 1)). lia.
  - specialize (IH (begin + Z.shiftr n 1 + 1) (n - (Z.shiftr n 1 + 1))). lia.
Qed.

Lemma qUpperBound_range v value :
  0 <= qUpperBound v value <= Z.of_nat (length v).
Proof.
  unfold qUpperBound.
  pose proof (qUpperBound_loop_range v value (length v) 0 (Z.of_nat (length v))).
  lia.
Qed.

(** On a vector in non-decreasing order the search returns the
    strictly-greater position: everything before it is at most [value],
    everything from it on is greater. *)
Lemma qUpperBound_loop_sorted v value : nondecreasing v -> forall fuel begin n,
  (Z.to_nat n <= fuel)%nat -> 0 <= begin -> 0 <= n -> begin + n <= Z.of_nat (length v) ->
  (forall i x, Z.of_nat i < begin -> v !! i = Some x -> x <= value) ->
  (forall i x, begin + n <= Z.of_nat i -> v !! i = Some x -> value < x) ->
  let p := qUpperBound_loop fuel v value begin n in
  (forall i x, Z.of_nat i < p -> v !! i = Some x -> x <= value)
  /\ (forall i x, p <= Z.of_nat i -> v !! i = Some x -> value < x).
Proof.
  intros Hsorted. induction fuel as [|fuel IH]; intros begin n Hfuel Hb Hn Hlen Hlo Hhi.
  - cbn. assert (n = 0) by lia. subst n. split; [exact Hlo|].
    intros i x Hi. apply Hhi. lia.
  - cbn. destruct (Z.ltb_spec 0 n) as [Hpos|Hz].
    2:{ assert (n = 0) by lia. subst n. split; [exact Hlo|].
        intros i x Hi. apply Hhi. lia. }
    pose proof (shiftr_1_half n Hpos) as Hhalf.
    set (half := Z.shiftr n 1) in *.
    assert (Hmid : exists y, v !! Z.to_nat (begin + half) = Some y).
    { apply lookup_lt_is_Some_2. lia. }
    destruct Hmid as [y Hy].
    rewrite (nth_lookup_Some _ _ _ _ Hy).
    destruct (Z.ltb_spec value y) as [Hlt|Hge].
    + apply IH; try lia; [exact Hlo|].
      intros i x Hi Hx. destruct (Z_lt_le_dec (Z.of_nat i) (begin + n)).
      * assert (y <= x); [|lia].
        apply (Hsorted (Z.to_nat (begin + half)) i); [lia|exact Hy|exact Hx].
      * apply (Hhi i); [lia|exact Hx].
    + apply IH; try lia.
      * intros i x Hi Hx.
        assert (x <= y); [|lia].
        apply (Hsorted i (Z.to_nat (begin + half))); [lia|exact Hx|exact Hy].
      * intros i x Hi Hx. apply (Hhi i); [lia|exact Hx].
Qed.

Lemma qUpperBound_sorted v value : nondecreasing v ->
  (forall i x, Z.of_nat i < qUpperBound v value -> v !! i = Some x -> x <= value)
  /\ (forall i x, qUpperBound v value <= Z.of_nat i -> v !! i = Some x -> value < x).
Proof.
  intros Hs. unfold qUpperBound.
  apply (qUpperBound_loop_sorted v value Hs); try lia.
  intros i x Hi Hx. apply lookup_lt_Some in Hx. lia.
Qed.

(** ** Resolving a mark from a branch and a revision *)

Lemma vlast_Some v x : last v = Some x -> vlast v = Ok x.
Proof. unfold vlast. intros ->. reflexivity. Qed.

Lemma vat_Some v i x : 0 <= i -> v !! Z.to_nat i = Some x -> vat v i = Ok x.
Proof.
  unfold vat. intros Hi Hx. destruct (Z.leb_spec 0 i); [|lia]. rewrite Hx. reflexivity.
Qed.

(** C5. For a source branch whose two vectors have the same length (as
    they do in every reachable state, see [reachable_parallel_vectors]), [markFrom] returns, and:
    the result is -1 when the branch was never created or has no commits;
    it is the last mark when the revision is the last commit (fast path);
    otherwise it is 0 when the binary search stops at the beginning of the
    commits, and otherwise the mark at the position before the one found,
    in which case [ at r<revnum>], and [ => r<closest>] when the closest
    commit is another revision, is appended to the description exactly when
    the description was not empty on entry.  On every other path the
    description is as on entry.  The position that the binary search finds
    lies within the commits, and on commits in non-decreasing order it is
    the strictly-greater position: every commit before it is at most the
    revision, every commit from it on is greater. *)
Theorem markFrom_resolution (r : Repo) (branchFrom : string) (branchRevNum : Z)
    (desc : string) :
  let brFrom := br_at branchFrom (branches r) in
  length (commits brFrom) = length (marks brFrom) ->
  exists mark desc',
    markFrom branchFrom branchRevNum desc r
    = Ok (mark, desc', set_branches (touch_branch branchFrom (branches r)) r)
    /\ (created brFrom = 0 \/ commits brFrom = [] -> mark = -1 /\ desc' = desc)
    /\ (created brFrom <> 0 -> last (commits brFrom) = Some branchRevNum ->
        last (marks brFrom) = Some mark /\ desc' = desc)
    /\ (created brFrom <> 0 -> commits brFrom <> [] ->
        last (commits brFrom) <> Some branchRevNum ->
        let it := qUpperBound (commits brFrom) branchRevNum in
        0 <= it <= Z.of_nat (length (commits brFrom))
        /\ (nondecreasing (commits brFrom) ->
            (forall i x, Z.of_nat i < it -> commits brFrom !! i = Some x ->
                         x <= branchRevNum)
            /\ (forall i x, it <= Z.of_nat i -> commits brFrom !! i = Some x ->
                            branchRevNum < x))
        /\ (it = 0 -> mark = 0 /\ desc' = desc)
        /\ (it <> 0 ->
            exists closestCommit,
              commits brFrom !! Z.to_nat (it - 1) = Some closestCommit
              /\ marks brFrom !! Z.to_nat (it - 1) = Some mark
              /\ desc' = if Bytes.isEmpty desc then desc
                         else desc +:+ " at r" +:+ Bytes.number branchRevNum
                              +:+ (if closestCommit =? branchRevNum then EmptyString
                                   else " => r" +:+ Bytes.number closestCommit))).
Proof.
  intros brFrom Hlen. unfold markFrom. fold brFrom.
  destruct (Z.eqb_spec (created brFrom) 0) as [Hc|Hc].
  { exists (-1), desc. split; [reflexivity|]. repeat split; try congruence; tauto. }
  destruct (commits brFrom) as [|c cs] eqn:Hcs.
  { exists (-1), desc. split; [reflexivity|].
    split; [auto|]. split; [intros _ Hl; discriminate Hl|]. intros _ Hne. congruence. }
  destruct (last (c :: cs)) as [lc|] eqn:Hlc;
    [|apply last_None in Hlc; discriminate Hlc].
  destruct (marks brFrom) as [|m ms] eqn:Hms; [discriminate Hlen|].
  destruct (last (m :: ms)) as [lm|] eqn:Hlm;
    [|apply last_None in Hlm; discriminate Hlm].
  rewrite (vlast_Some _ _ Hlc). cbn [mbind result_bind].
  destruct (Z.eqb_spec branchRevNum lc) as [->|Hne].
  { rewrite (vlast_Some _ _ Hlm). cbn [mbind result_bind].
    exists lm, desc. split; [reflexivity|].
    split; [intros [?|?]; congruence|].
    split; [auto|]. intros _ _ Hl. congruence. }
  pose proof (qUpperBound_range (c :: cs) branchRevNum) as Hrange.
  destruct (Z.eqb_spec (qUpperBound (c :: cs) branchRevNum) 0) as [Hz|Hnz].
  { exists 0, desc. split; [reflexivity|].
    split; [intros [?|?]; congruence|].
    split; [intros _ Hl; congruence|].
    intros _ _ _. cbn zeta. split; [exact Hrange|].
    split; [exact (qUpperBound_sorted (c :: cs) branchRevNum)|].
    split; [auto|]. intros Hnz. congruence. }
  set (it := qUpperBound (c :: cs) branchRevNum) in *.
  assert (Hpos : 0 <= it - 1) by lia.
  assert (Hin : (Z.to_nat (it - 1) < length (c :: cs))%nat) by lia.
  destruct (lookup_lt_is_Some_2 (c :: cs) _ Hin) as [closest Hclosest].
  rewrite Hlen in Hin.
  destruct (lookup_lt_is_Some_2 (m :: ms) _ Hin) as [mk Hmk].
  rewrite (vat_Some _ _ _ Hpos Hclosest). cbn [mbind result_bind].
  rewrite (vat_Some _ _ _ Hpos Hmk). cbn [mbind result_bind].
  eexists mk, _. split; [reflexivity|].
  split; [intros [?|?]; congruence|].
  split; [intros _ Hl; congruence|].
  intros _ _ _. cbn zeta. split; [exact Hrange|].
  split; [exact (qUpperBound_sorted (c :: cs) branchRevNum)|].
  split; [intros Hz; congruence|].
  intros _. exists closest. repeat split; assumption.
Qed.

Lemma markFrom_resolution_witness :
  exists mark desc',
    markFrom "master" 4 "from branch master"
      (set_branches {["master" := {| created := 1; commits := [1; 3; 5];
                                     marks := [10; 20; 30] |}]}
         fresh_repository)
    = Ok (mark, desc',
          set_branches {["master" := {| created := 1; commits := [1; 3; 5];
                                        marks := [10; 20; 30] |}]}
            fresh_repository)
    /\ mark = 20 /\ desc' = "from branch master at r4 => r3".
Proof.
  pose proof (markFrom_resolution
    (set_branches {["master" := {| created := 1; commits := [1; 3; 5];
                                   marks := [10; 20; 30] |}]}
       fresh_repository) "master" 4 "from branch master" eq_refl)
    as (mark & desc' & Hrun & _ & _ & Hslow).
  exists mark, desc'.
  split; [rewrite Hrun; reflexivity|].
  specialize (Hslow ltac:(discriminate) ltac:(discriminate) ltac:(discriminate)).
  cbn zeta in Hslow.
  change (commits (br_at "master" (branches (set_branches
            {["master" := {| created := 1; commits := [1; 3; 5];
                             marks := [10; 20; 30] |}]} fresh_repository))))
    with [1; 3; 5] in Hslow.
  change (marks (br_at "master" (branches (set_branches
            {["master" := {| created := 1; commits := [1; 3; 5];
                             marks := [10; 20; 30] |}]} fresh_repository))))
    with [10; 20; 30] in Hslow.
  destruct Hslow as (Hrange & Hsorted & _ & Hfound).
  assert (Hnd : nondecreasing [1; 3; 5]).
  { intros i j x y Hij Hi Hj.
    destruct i as [|[|[|i]]]; destruct j as [|[|[|j]]]; cbn in Hi, Hj;
      try discriminate; injection Hi as <-; injection Hj as <-; lia. }
  destruct (Hsorted Hnd) as [Hbefore Hfrom].
  set (it := qUpperBound [1; 3; 5] 4) in *.
  assert (Hit : it = 2).
  { destruct (Z_lt_le_dec it 2) as [Hlt|Hge].
    - pose proof (Hfrom 1%nat 3 ltac:(lia) eq_refl). lia.
    - destruct (Z_lt_le_dec 2 it) as [Hgt|Hle]; [|lia].
      pose proof (Hbefore 2%nat 5 ltac:(lia) eq_refl). lia. }
  destruct (Hfound ltac:(lia)) as (closest & Hc & Hm & Hd).
  rewrite Hit in Hc, Hm. cbn in Hc, Hm.
  injection Hc as <-. injection Hm as <-.
  split; [reflexivity|]. rewrite Hd. reflexivity.
Defined.

(** ** What each operation leaves alone *)

Lemma append_empty_r (s : string) : s +:+ EmptyString = s.
Proof.
  induction s as [|c s IH]; [reflexivity|].
  change (String c (s +:+ EmptyString) = String c s). rewrite IH. reflexivity.
Qed.

Lemma append_assoc (a b c : string) : (a +:+ b) +:+ c = a +:+ (b +:+ c).
Proof.
  induction a as [|x a IH]; [reflexivity|].
  change (String x ((a +:+ b) +:+ c) = String x (a +:+ (b +:+ c))).
  rewrite IH. reflexivity.
Qed.

Lemma write_empty r : write EmptyString r = r.
Proof. destruct r. unfold write. cbn. rewrite append_empty_r. reflexivity. Qed.

Lemma write_write a b r : write b (write a r) = write (a +:+ b) r.
Proof. unfold write. cbn. rewrite append_assoc. reflexivity. Qed.

Lemma foldl_write {A} (f : A -> string) (l : list A) : forall r,
  foldl (fun acc x => write (f x) acc) r l
  = write (foldr (fun x acc => f x +:+ acc) EmptyString l) r.
Proof.
  induction l as [|x l IH]; intros r; cbn.
  - symmetry. apply write_empty.
  - rewrite IH, write_write. reflexivity.
Qed.

Lemma reloadBranches_eq r :
  reloadBranches r = write (reload_text (branches r)) r.
Proof. unfold reloadBranches, reload_text. apply foldl_write. Qed.

Lemma same_counters_refl r : same_counters r r.
Proof. repeat split. Qed.

Lemma same_counters_trans r1 r2 r3 :
  same_counters r1 r2 -> same_counters r2 r3 -> same_counters r1 r3.
Proof. unfold same_counters. intuition congruence. Qed.

#[local] Hint Resolve same_counters_refl : core.

(** Steps through [x ← e; k] in a hypothesis [H : _ = Ok _]. *)
Ltac bind_inv H :=
  match type of H with
  | mbind _ ?e = Ok _ =>
      let E := fresh "E" in
      destruct e eqn:E; cbn [mbind result_bind] in H; [|discriminate H]
  | fmap _ ?e = Ok _ =>
      let E := fresh "E" in
      destruct e eqn:E; cbn [fmap result_fmap] in H; [|discriminate H]
  end.

Lemma startFastImport_inv r r0 :
  startFastImport r = Ok r0 ->
  (running r = true /\ r0 = r)
  \/ (running r = false /\ processHasStarted r = false
      /\ r0 = write (reload_text (branches r)) (set_process true true r)).
Proof.
  unfold startFastImport. rewrite reloadBranches_eq.
  destruct (running r); [intros [= <-]; left; auto|].
  destruct (processHasStarted r); [discriminate|].
  intros [= <-]. right. auto.
Qed.

Lemma startFastImport_frame r r0 :
  startFastImport r = Ok r0 ->
  same_counters r r0 /\ branches r0 = branches r /\ diag r0 = diag r
  /\ running r0 = true.
Proof.
  intros H. apply startFastImport_inv in H as [[Hrun ->]|(_ & _ & ->)]; cbn; auto.
  repeat split.
Qed.

Lemma markFrom_inv branchFrom n desc r mark desc' r' :
  markFrom branchFrom n desc r = Ok (mark, desc', r') ->
  r' = set_branches (touch_branch branchFrom (branches r)) r.
Proof.
  unfold markFrom. intros H.
  destruct (created _ =? 0); [congruence|].
  destruct (commits _); [congruence|].
  bind_inv H. destruct (n =? _).
  - bind_inv H. congruence.
  - destruct (_ =? 0); [congruence|].
    bind_inv H. bind_inv H. congruence.
Qed.

Lemma resetBranch_inv branch revnum mark resetTo comment r status r' :
  resetBranch branch revnum mark resetTo comment r = Ok (status, r') ->
  status = EXIT_SUCCESS
  /\ same_counters r r'
  /\ branches r'
     = <[branch := {| created := revnum;
                      commits := commits (br_at branch (branches r)) ++ [revnum];
                      marks := marks (br_at branch (branches r)) ++ [mark] |}]>
         (branches r)
  /\ running r' = running r /\ processHasStarted r' = processHasStarted r.
Proof.
  unfold resetBranch. intros H. bind_inv H.
  injection H as <- <-.
  destruct a; cbn; repeat split.
Qed.

Lemma parallel_vectors_touch k r :
  parallel_vectors r ->
  parallel_vectors (set_branches (touch_branch k (branches r)) r).
Proof.
  unfold parallel_vectors, touch_branch. cbn. intros Hr k' b.
  destruct (branches r !! k) eqn:Hk; [apply Hr|].
  destruct (decide (k = k')) as [<-|Hne].
  - rewrite lookup_insert_eq. intros [= <-]. reflexivity.
  - rewrite lookup_insert_ne by assumption. apply Hr.
Qed.

Lemma br_at_parallel r k :
  parallel_vectors r ->
  length (commits (br_at k (branches r))) = length (marks (br_at k (branches r))).
Proof.
  unfold br_at. intros Hr. destruct (branches r !! k) eqn:Hk; cbn; [|reflexivity].
  exact (Hr k _ Hk).
Qed.

Lemma parallel_vectors_append (r r' : Repo) k cr revnum mark :
  parallel_vectors r ->
  branches r'
  = <[k := {| created := cr;
              commits := commits (br_at k (branches r)) ++ [revnum];
              marks := marks (br_at k (branches r)) ++ [mark] |}]> (branches r) ->
  parallel_vectors r'.
Proof.
  intros Hr Hb k' b. rewrite Hb.
  destruct (decide (k = k')) as [<-|Hne].
  - rewrite lookup_insert_eq. intros [= <-]. cbn.
    rewrite !length_app, (br_at_parallel r k Hr). reflexivity.
  - rewrite lookup_insert_ne by assumption. apply Hr.
Qed.

Lemma newTransaction_inv cfg b p n r r' t :
  newTransaction cfg b p n r = Ok (r', t) ->
  exists r0,
    startFastImport r = Ok r0
    /\ commit_interval cfg <> 0
    /\ commitCount r' = commitCount r + 1
    /\ outstandingTransactions r' = outstandingTransactions r + 1
    /\ last_commit_mark r' = last_commit_mark r
    /\ next_file_mark r' = next_file_mark r
    /\ annotatedTags r' = annotatedTags r
    /\ branches r' = branches r
    /\ wire r' = wire r0 +:+ (if Z.rem (commitCount r + 1) (commit_interval cfg) =? 0
                              then "checkpoint" +:+ nl else EmptyString).
Proof.
  unfold newTransaction. intros H. bind_inv H. exists a.
  destruct (startFastImport_frame _ _ E) as ((Hcc & Hot & Hlcm & Hnfm & Htags) & Hbr & _).
  split; [reflexivity|].
  destruct (Z.eqb_spec (commit_interval cfg) 0) as [|Hci]; [discriminate H|].
  split; [assumption|].
  injection H as <- _.
  assert (Hcc' : commitCount
                   (set_commitCount
                      (commitCount (match branches a !! b with
                                    | Some _ => a
                                    | None => note (Warning "is not a known branch in repository") a
                                    end) + 1)
                      (match branches a !! b with
                       | Some _ => a
                       | None => note (Warning "is not a known branch in repository") a
                       end)) = commitCount r + 1).
  { destruct (branches a !! b); cbn; lia. }
  cbn [set_commitCount commitCount] in Hcc'. cbn [set_commitCount commitCount].
  rewrite Hcc'.
  destruct (Z.rem (commitCount r + 1) (commit_interval cfg) =? 0);
    destruct (branches a !! b); cbn;
    rewrite ?append_empty_r; repeat split; try lia; congruence.
Qed.

Lemma vlast_cons x v : exists y, vlast (x :: v) = Ok y /\ last (x :: v) = Some y.
Proof.
  unfold vlast. destruct (last (x :: v)) as [y|] eqn:Hl; [eauto|].
  apply last_None in Hl. discriminate Hl.
Qed.

Lemma commit_inv cfg t r r' :
  commit cfg t r = Ok r' ->
  let mark := last_commit_mark r + 1 in
  let message := commit_message cfg (log t) (svnprefix t) (revnum t) in
  let ms := merge_marks t r in
  mark < next_file_mark r - 1
  /\ last_commit_mark r' = mark
  /\ next_file_mark r' = next_file_mark r
  /\ commitCount r' = commitCount r
  /\ outstandingTransactions r' = outstandingTransactions r
  /\ annotatedTags r' = annotatedTags r
  /\ (exists cr,
         branches r'
         = <[branch t := {| created := cr;
                            commits := commits (br_at (branch t) (branches r)) ++ [revnum t];
                            marks := marks (br_at (branch t) (branches r)) ++ [mark] |}]>
             (branches r))
  /\ wire r' = wire r
               +:+ commit_header t mark message +:+ message +:+ nl
               +:+ merge_lines ms
               +:+ deletion_lines (deletedFiles t)
               +:+ modifiedFiles t
               +:+ commit_progress t mark (merge_desc ms)
  /\ diag r' = (diag r
               ++ (if (negb (created (br_at (branch t) (branches r)) =? 0)
                       && negb (match marks (br_at (branch t) (branches r)) with
                                | [] => true | _ => false end))%bool
                   then []
                   else [Warning "Branch doesn't exist at revision -- did you resume from the wrong revision?"])
               ++ snd (merge_loop (parent_mark t r)
                         (if parent_mark t r =? 0 then 0 else 1) (merges t)))%list.
Proof.
  unfold commit, merge_marks, parent_mark. cbn [set_last_commit_mark next_file_mark branches].
  intros H. cbn zeta.
  destruct (Z.ltb_spec (last_commit_mark r + 1) (next_file_mark r - 1)) as [Hlt|];
    [|discriminate H].
  cbn [Q_ASSERT mbind result_bind] in H.
  split; [assumption|].
  set (br := br_at (branch t) (branches r)) in *.
  destruct (negb (created br =? 0)
            && negb (match marks br with [] => true | _ => false end))%bool eqn:Hexists.
  - destruct (marks br) as [|m0 mks] eqn:Hmarks;
      [rewrite andb_false_r in Hexists; discriminate Hexists|].
    destruct (vlast_cons m0 mks) as (pm & Hv & Hl).
    rewrite Hv in H. cbn [mbind result_bind] in H. rewrite Hl. cbn [default from_option id].
    destruct (merge_loop pm (if pm =? 0 then 0 else 1) (merges t)) as [ms ds] eqn:Hloop.
    injection H as <-. cbn.
    rewrite !append_assoc.
    repeat split; eauto.
  - cbn [mbind result_bind] in H.
    destruct (merge_loop 0 (if 0 =? 0 then 0 else 1) (merges t)) as [ms ds] eqn:Hloop.
    injection H as <-. cbn.
    rewrite !append_assoc, <- ?app_assoc.
    repeat split; eauto.
Qed.

Lemma addFile_inv cfg path mode length t r r' t' :
  addFile cfg path mode length t r = Ok (r', t') ->
  last_commit_mark r + 1 < next_file_mark r
  /\ next_file_mark r' = next_file_mark r - 1
  /\ last_commit_mark r' = last_commit_mark r
  /\ commitCount r' = commitCount r
  /\ outstandingTransactions r' = outstandingTransactions r
  /\ annotatedTags r' = annotatedTags r
  /\ branches r' = branches r
  /\ modifiedFiles t'
     = modifiedFiles t +:+ "M " +:+ Bytes.number_base 8 mode +:+ " :"
       +:+ Bytes.number (next_file_mark r) +:+ " " +:+ path +:+ nl
  /\ wire r'
     = wire r +:+ (if dry_run cfg then EmptyString
                   else "blob" +:+ nl +:+ "mark :" +:+ Bytes.number (next_file_mark r) +:+ nl
                        +:+ "data " +:+ Bytes.number length +:+ nl).
Proof.
  unfold addFile. cbn [set_next_file_mark last_commit_mark].
  destruct (Z.ltb_spec (last_commit_mark r + 1) (next_file_mark r)) as [Hlt|];
    [|discriminate].
  cbn [Q_ASSERT mbind result_bind]. intros [= <- <-].
  destruct (dry_run cfg); cbn; rewrite ?append_empty_r; repeat split; assumption.
Qed.

Lemma noteCopyFromBranch_inv branchFrom n t r r' t' :
  noteCopyFromBranch branchFrom n t r = Ok (r', t') ->
  same_counters r r'
  /\ wire r' = wire r
  /\ running r' = running r /\ processHasStarted r' = processHasStarted r
  /\ name r' = name r
  /\ branches r' = (if String.eqb (branch t) branchFrom then branches r
                    else touch_branch branchFrom (branches r)).
Proof.
  unfold noteCopyFromBranch.
  destruct (String.eqb (branch t) branchFrom).
  { intros [= <- <-]. cbn. repeat split. }
  intros H. bind_inv H. destruct a as [[mark dummy] r1].
  apply markFrom_inv in E. subst r1.
  bind_inv H.
  destruct (mark =? -1); [injection H as <- <-; cbn; repeat split|].
  destruct (mark =? 0); [injection H as <- <-; cbn; repeat split|].
  destruct (contains_Z mark (merges t)); injection H as <- <-; cbn; repeat split.
Qed.

Lemma createBranch_inv branch revnum branchFrom branchRevNum r status r' :
  createBranch branch revnum branchFrom branchRevNum r = Ok (status, r') ->
  same_counters r r'
  /\ running r' = true
  /\ ((status = EXIT_FAILURE
       /\ branches r' = touch_branch branchFrom (branches r))
      \/ (status = EXIT_SUCCESS
          /\ exists mark,
               branches r'
               = <[branch := {| created := revnum;
                                commits := commits (br_at branch (touch_branch branchFrom (branches r)))
                                           ++ [revnum];
                                marks := marks (br_at branch (touch_branch branchFrom (branches r)))
                                         ++ [mark] |}]>
                   (touch_branch branchFrom (branches r)))).
Proof.
  unfold createBranch. intros H. bind_inv H.
  destruct (startFastImport_frame _ _ E) as (Hc & Hbr & _ & Hrun).
  bind_inv H. destruct a0 as [[mark desc] r1].
  apply markFrom_inv in E0. subst r1. rewrite Hbr in H.
  destruct (mark =? -1).
  { injection H as <- <-. cbn. split; [exact Hc|]. split; [exact Hrun|]. left.
    split; reflexivity. }
  destruct (mark =? 0).
  - apply resetBranch_inv in H as (-> & Hc' & Hbr' & Hrun' & _).
    cbn in Hbr', Hrun'. split.
    { eapply same_counters_trans; [exact Hc|].
      destruct Hc' as (? & ? & ? & ? & ?). repeat split; assumption. }
    split; [congruence|]. right. split; [reflexivity|]. exists mark. exact Hbr'.
  - apply resetBranch_inv in H as (-> & Hc' & Hbr' & Hrun' & _).
    cbn in Hbr', Hrun'. split.
    { eapply same_counters_trans; [exact Hc|].
      destruct Hc' as (? & ? & ? & ? & ?). repeat split; assumption. }
    split; [congruence|]. right. split; [reflexivity|]. exists mark. exact Hbr'.
Qed.

Lemma deleteBranch_inv branch revnum r status r' :
  deleteBranch branch revnum r = Ok (status, r') ->
  same_counters r r'
  /\ branches r'
     = <[branch := {| created := revnum;
                      commits := commits (br_at branch (branches r)) ++ [revnum];
                      marks := marks (br_at branch (branches r)) ++ [0] |}]>
         (branches r).
Proof.
  unfold deleteBranch. intros H. bind_inv H.
  destruct (startFastImport_frame _ _ E) as (Hc & Hbr & _ & Hrun).
  apply resetBranch_inv in H as (-> & Hc' & Hbr' & _).
  rewrite Hbr in Hbr'. split; [|exact Hbr'].
  eapply same_counters_trans; eassumption.
Qed.

Lemma finalizeTags_frame cfg r r' :
  finalizeTags cfg r = Ok r' ->
  same_counters r r' /\ branches r' = branches r.
Proof.
  unfold finalizeTags. destruct (decide (annotatedTags r = ∅)).
  { intros [= <-]. auto. }
  intros H. bind_inv H. injection H as <-.
  destruct (startFastImport_frame _ _ E) as (Hc & Hbr & _).
  rewrite foldl_write. cbn. split; [exact Hc|exact Hbr].
Qed.

Lemma scan_log_frame lines : forall pos cutoff lvm last_revnum r,
  let r' := scan_repo (scan_log lines pos cutoff lvm last_revnum r) in
  commitCount r' = commitCount r
  /\ outstandingTransactions r' = outstandingTransactions r
  /\ next_file_mark r' = next_file_mark r
  /\ annotatedTags r' = annotatedTags r
  /\ wire r' = wire r
  /\ last_commit_mark r <= last_commit_mark r'
  /\ (parallel_vectors r -> parallel_vectors r').
Proof.
  induction lines as [|raw rest IH]; intros pos cutoff lvm last_revnum r; cbn zeta.
  { cbn. repeat split; [lia|auto]. }
  cbn [scan_log].
  destruct (log_entry raw) as [[[revnum branch] mark]|]; [|apply IH].
  destruct (cutoff <=? revnum); [cbn; repeat split; [lia|auto]|].
  set (r1 := if revnum <? last_revnum
             then note (Warning "revision numbers are not monotonic") r else r).
  assert (H1 : commitCount r1 = commitCount r
               /\ outstandingTransactions r1 = outstandingTransactions r
               /\ next_file_mark r1 = next_file_mark r
               /\ annotatedTags r1 = annotatedTags r
               /\ wire r1 = wire r
               /\ last_commit_mark r1 = last_commit_mark r
               /\ branches r1 = branches r).
  { subst r1. destruct (revnum <? last_revnum); cbn; repeat split. }
  destruct H1 as (Hcc & Hot & Hnfm & Htags & Hwire & Hlcm & Hbr).
  destruct (lvm <? mark).
  { cbn. repeat split; try assumption; [lia|].
    unfold parallel_vectors. cbn. rewrite Hbr. auto. }
  set (r2 := if last_commit_mark r1 <? mark then set_last_commit_mark mark r1 else r1).
  assert (H2 : commitCount r2 = commitCount r
               /\ outstandingTransactions r2 = outstandingTransactions r
               /\ next_file_mark r2 = next_file_mark r
               /\ annotatedTags r2 = annotatedTags r
               /\ wire r2 = wire r
               /\ last_commit_mark r <= last_commit_mark r2
               /\ branches r2 = branches r).
  { subst r2. destruct (Z.ltb_spec (last_commit_mark r1) mark); cbn;
      repeat split; try assumption; lia. }
  destruct H2 as (Hcc2 & Hot2 & Hnfm2 & Htags2 & Hwire2 & Hlcm2 & Hbr2).
  match goal with
  | |- context [scan_log rest ?p ?c ?l ?lr ?rr] =>
      specialize (IH p c l lr rr); cbn zeta in IH;
      destruct IH as (I1 & I2 & I3 & I4 & I5 & I6 & I7)
  end.
  cbn in I1, I2, I3, I4, I5, I6.
  repeat split; try congruence; [lia|].
  intros Hpar. apply I7.
  eapply (parallel_vectors_append r); [exact Hpar|].
  cbn. rewrite Hbr2. reflexivity.
Qed.

Lemma setupIncremental_frame cutoff r fs :
  let r' := snd (fst (setupIncremental cutoff r fs)) in
  commitCount r' = commitCount r
  /\ outstandingTransactions r' = outstandingTransactions r
  /\ next_file_mark r' = next_file_mark r
  /\ annotatedTags r' = annotatedTags r
  /\ wire r' = wire r
  /\ (parallel_vectors r -> parallel_vectors r').
Proof.
  unfold setupIncremental. destruct (logfile fs) as [content|]; [|cbn; auto 10].
  destruct (lastValidMark (marksfile fs)) as [lvm ds].
  pose proof (scan_log_frame (Bytes.read_lines content) 0 cutoff lvm 0 (notes ds r))
    as (H1 & H2 & H3 & H4 & H5 & _ & H7).
  cbn zeta in *.
  destruct (scan_log (Bytes.read_lines content) 0 cutoff lvm 0 (notes ds r));
    cbn in *; repeat split; auto.
Qed.

(** ** The two mark counters *)

(** C2. With [Q_ASSERT] read as fatal, every call that does not abort
    satisfies: [addFile] hands out the blob mark [next_file_mark], which
    is greater than [last_commit_mark + 1], and decrements the counter;
    [commit()] hands out the commit mark [last_commit_mark + 1], and
    [next_file_mark] is greater than the new [last_commit_mark + 1];
    [forgetTransaction], run when a transaction is destroyed, sets
    [next_file_mark] back to [maxMark = 2^20 - 1] exactly when the count
    of outstanding transactions has dropped to zero; and no other call
    changes [next_file_mark]. *)
Theorem mark_space_disjoint (cfg : Config) (op : Op) (r r' : Repo) :
  run_op cfg op r = Ok r' ->
  maxMark = 2 ^ 20 - 1
  /\ match op with
     | OpAddFile _ _ _ _ =>
         next_file_mark r > last_commit_mark r + 1
         /\ next_file_mark r' = next_file_mark r - 1
         /\ last_commit_mark r' = last_commit_mark r
     | OpCommit _ =>
         last_commit_mark r' = last_commit_mark r + 1
         /\ next_file_mark r' = next_file_mark r
         /\ next_file_mark r' > last_commit_mark r' + 1
     | OpForgetTransaction =>
         outstandingTransactions r' = outstandingTransactions r - 1
         /\ next_file_mark r'
            = (if outstandingTransactions r' =? 0 then maxMark else next_file_mark r)
     | _ => next_file_mark r' = next_file_mark r
     end.
Proof.
  intros H. split; [reflexivity|].
  destruct op; cbn [run_op] in H.
  - bind_inv H. destruct a as [r1 t]. injection H as <-.
    apply newTransaction_inv in E as (r0 & _ & _ & _ & _ & _ & Hnfm & _). exact Hnfm.
  - bind_inv H. destruct a as [r1 t1]. injection H as <-.
    apply addFile_inv in E as (Hlt & Hnfm & Hlcm & _). repeat split; [lia|assumption..].
  - injection H as <-. reflexivity.
  - bind_inv H. destruct a as [r1 t1]. injection H as <-.
    apply noteCopyFromBranch_inv in E as ((_ & _ & _ & Hnfm & _) & _). exact Hnfm.
  - apply commit_inv in H as (Hlt & Hlcm & Hnfm & _). cbn zeta in *.
    repeat split; [assumption..|lia].
  - injection H as <-. unfold forgetTransaction. cbn.
    destruct (Z.eqb_spec (outstandingTransactions r - 1) 0) as [Hz|Hnz]; cbn.
    + rewrite Hz. split; [reflexivity|]. reflexivity.
    + split; [reflexivity|].
      destruct (Z.eqb_spec (outstandingTransactions r - 1) 0); [contradiction|reflexivity].
  - bind_inv H. destruct a as [st r1]. injection H as <-.
    apply createBranch_inv in E as ((_ & _ & _ & Hnfm & _) & _). exact Hnfm.
  - bind_inv H. destruct a as [st r1]. injection H as <-.
    apply deleteBranch_inv in E as ((_ & _ & _ & Hnfm & _) & _). exact Hnfm.
  - injection H as <-. reflexivity.
  - apply finalizeTags_frame in H as ((_ & _ & _ & Hnfm & _) & _). exact Hnfm.
  - pose proof (setupIncremental_frame cutoff r fs) as (_ & _ & Hnfm & _).
    destruct (setupIncremental cutoff r fs) as [[[ret cutoff'] r1] fs'].
    injection H as <-. exact Hnfm.
  - injection H as <-. unfold closeFastImport. destruct child, (running r); reflexivity.
Qed.



Lemma mark_space_disjoint_witness :
  exists r1 t r2 r3,
    newTransaction default_config "master" "/p" 3 fresh_repository = Ok (r1, t)
    /\ run_op default_config (OpAddFile t "f" 33188 5) r1 = Ok r2
    /\ next_file_mark r1 > last_commit_mark r1 + 1
    /\ next_file_mark r2 = maxMark - 1
    /\ run_op default_config OpForgetTransaction r2 = Ok r3
    /\ next_file_mark r3 = maxMark.
Proof.
  destruct (newTransaction default_config "master" "/p" 3 fresh_repository)
    as [[r1 t]|] eqn:E1; [|vm_compute in E1; discriminate E1].
  destruct (run_op default_config (OpAddFile t "f" 33188 5) r1)
    as [r2|] eqn:E2;
    [|vm_compute in E1; injection E1 as <- <-; vm_compute in E2; discriminate E2].
  destruct (run_op default_config OpForgetTransaction r2) as [r3|] eqn:E3;
    [|discriminate E3].
  exists r1, t, r2, r3.
  pose proof (mark_space_disjoint _ _ _ _ E2) as (_ & Hgt & Hnfm & _).
  pose proof (mark_space_disjoint _ _ _ _ E3) as (_ & Hot & Hreset).
  split; [first [reflexivity|exact E1]|].
  split; [first [reflexivity|exact E2]|]. split; [exact Hgt|].
  assert (Hr1 : next_file_mark r1 = maxMark /\ outstandingTransactions r1 = 1).
  { vm_compute in E1. injection E1 as <- <-. split; reflexivity. }
  destruct Hr1 as [Hm Ho].
  split; [rewrite Hnfm, Hm; reflexivity|].
  split; [first [reflexivity|exact E3]|].
  rewrite Hreset, Hot.
  assert (Ho2 : outstandingTransactions r2 = 1).
  { cbn [run_op] in E2. bind_inv E2. destruct a. injection E2 as <-.
    apply addFile_inv in E as (_ & _ & _ & _ & Ho2 & _). congruence. }
  rewrite Ho2. reflexivity.
Defined.

(** ** The vectors of a branch grow together *)

Lemma foldl_insert_default (l : list string) : forall m : gmap string Branch,
  (forall k b, m !! k = Some b -> b = default_Branch) ->
  forall k b,
    foldl (fun m b => <[b := default_Branch]> m) m l !! k = Some b ->
    b = default_Branch.
Proof.
  induction l as [|x l IH]; intros m Hm k b; cbn; [apply Hm|].
  apply IH. intros k' b'.
  destruct (decide (x = k')) as [<-|Hne].
  - rewrite lookup_insert_eq. congruence.
  - rewrite lookup_insert_ne by assumption. apply Hm.
Qed.

Lemma new_repository_parallel_vectors rule_name rule_branches :
  parallel_vectors (new_repository rule_name rule_branches).
Proof.
  unfold parallel_vectors, new_repository. cbn [branches].
  set (bs := foldl _ _ _).
  assert (Hbs : forall k b, bs !! k = Some b -> b = default_Branch).
  { apply foldl_insert_default. intros k b. rewrite lookup_empty. discriminate. }
  assert (Hmaster : br_at "master" bs = default_Branch).
  { unfold br_at. destruct (bs !! "master") eqn:Hm; [|reflexivity].
    cbn. exact (Hbs _ _ Hm). }
  rewrite Hmaster. intros k b.
  destruct (decide ("master" = k)) as [<-|Hne].
  - rewrite lookup_insert_eq. intros [= <-]. reflexivity.
  - rewrite lookup_insert_ne by assumption. intros Hk.
    rewrite (Hbs _ _ Hk). reflexivity.
Qed.

(** Every call keeps the two vectors of every branch at the same length. *)
Lemma run_op_parallel_vectors cfg op r r' :
  run_op cfg op r = Ok r' -> parallel_vectors r -> parallel_vectors r'.
Proof.
  intros H Hpar. destruct op; cbn [run_op] in H.
  - bind_inv H. destruct a as [r1 t]. injection H as <-.
    apply newTransaction_inv in E as (r0 & _ & _ & _ & _ & _ & _ & _ & Hbr & _).
    unfold parallel_vectors. rewrite Hbr. exact Hpar.
  - bind_inv H. destruct a as [r1 t1]. injection H as <-.
    apply addFile_inv in E as (_ & _ & _ & _ & _ & _ & Hbr & _).
    unfold parallel_vectors. rewrite Hbr. exact Hpar.
  - injection H as <-. exact Hpar.
  - bind_inv H. destruct a as [r1 t1]. injection H as <-.
    apply noteCopyFromBranch_inv in E as (_ & _ & _ & _ & _ & Hbr).
    unfold parallel_vectors. rewrite Hbr.
    destruct (String.eqb (branch t) branchFrom); [exact Hpar|].
    exact (parallel_vectors_touch branchFrom r Hpar).
  - apply commit_inv in H as (_ & _ & _ & _ & _ & _ & [cr Hbr] & _).
    exact (parallel_vectors_append r r' _ _ _ _ Hpar Hbr).
  - injection H as <-. unfold forgetTransaction, parallel_vectors.
    destruct (_ =? 0); exact Hpar.
  - bind_inv H. destruct a as [st r1]. injection H as <-.
    apply createBranch_inv in E as (_ & _ & [[_ Hbr]|[_ [mark Hbr]]]).
    + unfold parallel_vectors. rewrite Hbr.
      exact (parallel_vectors_touch branchFrom r Hpar).
    + eapply (parallel_vectors_append
                (set_branches (touch_branch branchFrom (branches r)) r));
        [exact (parallel_vectors_touch branchFrom r Hpar)|exact Hbr].
  - bind_inv H. destruct a as [st r1]. injection H as <-.
    apply deleteBranch_inv in E as (_ & Hbr).
    exact (parallel_vectors_append r r1 _ _ _ _ Hpar Hbr).
  - injection H as <-. exact Hpar.
  - apply finalizeTags_frame in H as (_ & Hbr).
    unfold parallel_vectors. rewrite Hbr. exact Hpar.
  - pose proof (setupIncremental_frame cutoff r fs) as (_ & _ & _ & _ & _ & Hp).
    destruct (setupIncremental cutoff r fs) as [[[ret cutoff'] r1] fs'].
    injection H as <-. exact (Hp Hpar).
  - injection H as <-. unfold closeFastImport, parallel_vectors. destruct child;
    destruct (running r); exact Hpar.
Qed.

(** ** Invariants of the reachable states *)

Section Reachable.

Variable cfg : Config.

Lemma reachable_parallel_vectors r : reachable cfg r -> parallel_vectors r.
Proof.
  induction 1 as [rule_name rule_branches|op r r' _ IH Hstep|r _ IH _].
  - apply new_repository_parallel_vectors.
  - exact (run_op_parallel_vectors cfg op r r' Hstep IH).
  - exact IH.
Qed.

Lemma run_op_mark_bounds op r r' :
  run_op cfg op r = Ok r' ->
  0 <= last_commit_mark r /\ next_file_mark r <= maxMark ->
  0 <= last_commit_mark r' /\ next_file_mark r' <= maxMark.
Proof.
  intros H [Hlcm Hnfm]. destruct op; cbn [run_op] in H.
  - bind_inv H. destruct a as [r1 t]. injection H as <-.
    apply newTransaction_inv in E as (r0 & _ & _ & _ & _ & -> & -> & _). auto.
  - bind_inv H. destruct a as [r1 t1]. injection H as <-.
    apply addFile_inv in E as (_ & -> & -> & _). lia.
  - injection H as <-. auto.
  - bind_inv H. destruct a as [r1 t1]. injection H as <-.
    apply noteCopyFromBranch_inv in E as ((_ & _ & -> & -> & _) & _). auto.
  - apply commit_inv in H as (_ & -> & -> & _). lia.
  - injection H as <-. unfold forgetTransaction.
    destruct (_ =? 0); cbn; lia.
  - bind_inv H. destruct a as [st r1]. injection H as <-.
    apply createBranch_inv in E as ((_ & _ & -> & -> & _) & _). auto.
  - bind_inv H. destruct a as [st r1]. injection H as <-.
    apply deleteBranch_inv in E as ((_ & _ & -> & -> & _) & _). auto.
  - injection H as <-. auto.
  - apply finalizeTags_frame in H as ((_ & _ & -> & -> & _) & _). auto.
  - pose proof (scan_log_frame) as Hscan.
    revert H. unfold setupIncremental.
    destruct (logfile fs) as [content|]; [|intros [= <-]; auto].
    destruct (lastValidMark (marksfile fs)) as [lvm ds].
    specialize (Hscan (Bytes.read_lines content) 0 cutoff lvm 0 (notes ds r)).
    cbn zeta in Hscan. destruct Hscan as (_ & _ & Hn & _ & _ & Hl & _).
    destruct (scan_log _ _ _ _ _ _); intros [= <-]; cbn in *; lia.
  - injection H as <-. unfold closeFastImport. destruct child, (running r); auto.
Qed.

(** The commit marks count up from 0 and the blob marks down from
    [maxMark] in every reachable state. *)
Lemma reachable_mark_bounds r :
  reachable cfg r -> 0 <= last_commit_mark r /\ next_file_mark r <= maxMark.
Proof.
  induction 1 as [rule_name rule_branches|op r r' _ IH Hstep|r _ IH _].
  - cbn. split; [lia|reflexivity].
  - exact (run_op_mark_bounds op r r' Hstep IH).
  - exact IH.
Qed.

End Reachable.

(** ** When a checkpoint is written *)


Lemma append_cons c (a b : string) : String c a +:+ b = String c (a +:+ b).
Proof. reflexivity. Qed.



(** ** Resuming from the log *)

Lemma len_append (a b : string) : Bytes.len (a +:+ b) = Bytes.len a + Bytes.len b.
Proof.
  unfold Bytes.len. induction a as [|c a IH]; [reflexivity|].
  rewrite append_cons. cbn [String.length]. lia.
Qed.

Lemma read_lines_concat (s : string) : concat_lines (Bytes.read_lines s) = s.
Proof.
  induction s as [|c s IH]; [reflexivity|].
  cbn [Bytes.read_lines]. destruct (Ascii.eqb c "010").
  - cbn [concat_lines foldr]. fold (concat_lines (Bytes.read_lines s)).
    rewrite IH. reflexivity.
  - destruct (Bytes.read_lines s) as [|l ls].
    + cbn in IH. subst s. reflexivity.
    + cbn [concat_lines foldr] in *. rewrite append_cons, IH. reflexivity.
Qed.

Lemma concat_lines_app (xs ys : list string) :
  concat_lines (xs ++ ys) = concat_lines xs +:+ concat_lines ys.
Proof.
  unfold concat_lines. induction xs as [|x xs IH]; [reflexivity|].
  cbn [app foldr]. rewrite IH, append_assoc. reflexivity.
Qed.

Lemma truncate_append (a b : string) : Bytes.truncate (Bytes.len a) (a +:+ b) = a.
Proof.
  unfold Bytes.truncate, Bytes.len. rewrite Nat2Z.id.
  induction a as [|c a IH].
  - destruct b; reflexivity.
  - rewrite append_cons. cbn [String.length substring]. rewrite IH. reflexivity.
Qed.

(** Scanning a log in two parts: the second part starts where the first
    one ended, unless the first one already left the loop. *)
Lemma scan_log_app (pre rest : list string) : forall pos cutoff lvm last_revnum r,
  scan_log (pre ++ rest) pos cutoff lvm last_revnum r
  = match scan_log pre pos cutoff lvm last_revnum r with
    | ScanEnd last_revnum' r' =>
        scan_log rest (pos + Bytes.len (concat_lines pre)) cutoff lvm last_revnum' r'
    | BeyondCutoff p c r' => BeyondCutoff p c r'
    end.
Proof.
  induction pre as [|raw pre IH]; intros pos cutoff lvm last_revnum r.
  - cbn. rewrite Z.add_0_r. reflexivity.
  - cbn [app scan_log concat_lines foldr]. fold (concat_lines pre).
    rewrite len_append, Z.add_assoc.
    destruct (log_entry raw) as [[[revnum branch] mark]|]; [|apply IH].
    destruct (cutoff <=? revnum); [reflexivity|].
    destruct (lvm <? mark); [reflexivity|]. apply IH.
Qed.

(** C3, as stated, fails in its general part.  The only entry of the log
    has revision 5 and mark 7, beyond the last valid mark 1 of the marks
    file; with the cutoff 3 the scan leaves at the test against the cutoff,
    which comes first: no warning is issued and the cutoff stays 3. *)
Lemma unknown_mark_beyond_cutoff :
  log_entry ("progress SVN r5 branch master = :7" +:+ nl) = Some (5, "master", 7)
  /\ lastValidMark (marksfile files_beyond_cutoff) = (1, [])
  /\ (let '(retval, cutoff, r', _) :=
        setupIncremental 3 fresh_repository files_beyond_cutoff in
      retval = 3 /\ cutoff = 3 /\ cutoff <> 5
      /\ List.filter is_warning (diag r') = []).
Proof.
  split; [vm_compute; reflexivity|]. split; [vm_compute; reflexivity|].
  vm_compute. repeat split; try reflexivity. discriminate.
Qed.

(** C3, as the code has it.  Scenario S5: with the two entries for the
    marks 1 and 2 in the log and only the mark 1 in the marks file,
    [setupIncremental] with the cutoff 100 returns 2, leaves 2 in the
    cutoff, copies the log as it was to the backup, cuts the log before the
    second line and leaves [last_commit_mark] at 1.  In general, when the
    scan has passed the lines before an entry: if the entry has a revision
    below the cutoff and a mark above the last valid mark of the marks
    file, [setupIncremental] warns, sets the cutoff to the revision of the
    entry, returns it, copies the log to the backup and cuts the log just
    before the line of the entry; if the entry has a revision at or beyond
    the cutoff, it rewinds in the same way at the unchanged cutoff and
    without that warning, whatever the mark. *)
Theorem resume_after_kill :
  (let '(retval, cutoff, r', fs') :=
     setupIncremental 100 fresh_repository files_S5 in
   retval = 2 /\ cutoff = 2
   /\ logfile_old fs' = logfile files_S5
   /\ logfile fs' = Some (unlines ["progress SVN r1 branch master = :1"])
   /\ last_commit_mark r' = 1
   /\ List.filter is_warning (diag r')
      = [Warning "unknown commit mark found: rewinding -- did you hit Ctrl-C?"])
  /\ (forall (cutoff : Z) (r : Repo) (fs : Files) (content : string)
             (pre : list string) (raw : string) (post : list string)
             (rev : Z) (b : string) (mark lvm : Z) (ds : list Diag)
             (last_rev : Z) (r1 : Repo),
         logfile fs = Some content ->
         Bytes.read_lines content = (pre ++ raw :: post)%list ->
         lastValidMark (marksfile fs) = (lvm, ds) ->
         scan_log pre 0 cutoff lvm 0 (notes ds r) = ScanEnd last_rev r1 ->
         log_entry raw = Some (rev, b, mark) ->
         (rev < cutoff ->
          lvm < mark ->
          setupIncremental cutoff r fs
          = (rev, rev,
             note (Debug "truncating history to revision")
               (note (Warning "unknown commit mark found: rewinding -- did you hit Ctrl-C?")
                  (if rev <? last_rev
                   then note (Warning "revision numbers are not monotonic") r1
                   else r1)),
             {| logfile := Some (concat_lines pre);
                logfile_old := Some content;
                marksfile := marksfile fs |}))
         /\ (cutoff <= rev ->
             setupIncremental cutoff r fs
             = (cutoff, cutoff,
                note (Debug "truncating history to revision") r1,
                {| logfile := Some (concat_lines pre);
                   logfile_old := Some content;
                   marksfile := marksfile fs |}))).
Proof.
  split; [vm_compute; repeat split; reflexivity|].
  intros cutoff r fs content pre raw post rev b mark lvm ds last_rev r1
         Hlog Hlines Hlvm Hpre Hentry.
  assert (Hcut : Bytes.truncate (0 + Bytes.len (concat_lines pre)) content
                 = concat_lines pre).
  { rewrite Z.add_0_l.
    replace content with (concat_lines pre +:+ concat_lines (raw :: post)) at 1
      by (rewrite <- concat_lines_app, <- Hlines; apply read_lines_concat).
    apply truncate_append. }
  split.
  - intros Hrev Hmark.
    unfold setupIncremental. rewrite Hlog, Hlvm, Hlines, scan_log_app, Hpre.
    cbn [scan_log]. rewrite Hentry.
    destruct (Z.leb_spec cutoff rev); [lia|].
    destruct (Z.ltb_spec lvm mark); [|lia].
    rewrite Hcut. reflexivity.
  - intros Hrev.
    unfold setupIncremental. rewrite Hlog, Hlvm, Hlines, scan_log_app, Hpre.
    cbn [scan_log]. rewrite Hentry.
    destruct (Z.leb_spec cutoff rev); [|lia].
    rewrite Hcut. reflexivity.
Qed.

Lemma resume_after_kill_witness :
  exists r',
    setupIncremental 100 fresh_repository files_S5
    = (2, 2, r',
       {| logfile := Some (unlines ["progress SVN r1 branch master = :1"]);
          logfile_old := logfile files_S5;
          marksfile := marksfile files_S5 |}).
Proof.
  eexists.
  pose proof (proj2 resume_after_kill 100 fresh_repository files_S5
                (unlines ["progress SVN r1 branch master = :1";
                          "progress SVN r2 branch master = :2"])
                ["progress SVN r1 branch master = :1" +:+ nl]
                ("progress SVN r2 branch master = :2" +:+ nl)
                [] 2 "master" 2 1 [] 1
                (scan_repo
                   (scan_log ["progress SVN r1 branch master = :1" +:+ nl]
                      0 100 1 0 (notes [] fresh_repository)))) as H.
  destruct H as [H _]; [reflexivity|vm_compute; reflexivity..|].
  rewrite H; [reflexivity|lia|lia].
Defined.

(** ** Looking up a branch that the registry does not hold *)

(** C10, as stated, fails for a copy from the transaction's own branch:
    [noteCopyFromBranch] returns at its first test, before [markFrom], and
    a name that the registry does not hold is still missing afterwards. *)
Lemma self_copy_leaves_registry : self_copy_scenario = Ok (None, None).
Proof. vm_compute. reflexivity. Qed.

(** C10, as the code has it.  For a name that the registry does not hold,
    [markFrom] returns -1, leaves the description alone and inserts the
    default entry (not created, no commits, no marks) for the name.
    [noteCopyFromBranch] from such a name, unless it is the transaction's
    own branch, logs a warning, leaves the transaction as it is and changes
    nothing else of the repository but that entry; from the transaction's
    own branch it only logs a warning, and the registry is as before.  [createBranch] from
    such a name first starts the importer if it is not running, then
    reports failure, and the repository is the one after the start with
    that entry inserted and a critical message logged; starting the
    importer keeps the counters, the tags and the branches.  The entries of
    all other names are as before. *)
Theorem unknown_branch_lookup_inserts (r : Repo) (branchFrom : string) :
  branches r !! branchFrom = None ->
  let bs' := <[branchFrom := default_Branch]> (branches r) in
  (forall n desc, markFrom branchFrom n desc r = Ok (-1, desc, set_branches bs' r))
  /\ (forall n t,
         branch t <> branchFrom ->
         noteCopyFromBranch branchFrom n t r
         = Ok (note (Warning "is copying from a branch that doesn't exist.  Continuing, assuming the files exist.")
                 (set_branches bs' r), t))
  /\ (forall n t,
         branch t = branchFrom ->
         noteCopyFromBranch branchFrom n t r
         = Ok (note (Warning "Cannot merge inside a branch") r, t))
  /\ (forall b n m r0,
         startFastImport r = Ok r0 ->
         createBranch b n branchFrom m r
         = Ok (EXIT_FAILURE,
               note (Critical "is branching from a branch that doesn't exist. Can't continue.")
                 (set_branches bs' r0))
         /\ same_counters r r0 /\ branches r0 = branches r
         /\ (running r = true -> r0 = r))
  /\ bs' !! branchFrom = Some default_Branch
  /\ (forall k, k <> branchFrom -> bs' !! k = branches r !! k).
Proof.
  intros Hnone bs'.
  assert (Hmark : forall (r1 : Repo) n desc,
             branches r1 = branches r ->
             markFrom branchFrom n desc r1 = Ok (-1, desc, set_branches bs' r1)).
  { intros r1 n desc Hbr. unfold markFrom, br_at, touch_branch.
    rewrite Hbr, Hnone. reflexivity. }
  split; [intros n desc; apply Hmark; reflexivity|].
  split.
  { intros n t Hne. unfold noteCopyFromBranch.
    apply String.eqb_neq in Hne. rewrite Hne, Hmark by reflexivity. reflexivity. }
  split.
  { intros n t Heq. unfold noteCopyFromBranch.
    apply String.eqb_eq in Heq. rewrite Heq. reflexivity. }
  split.
  { intros b n m r0 Hstart.
    destruct (startFastImport_frame _ _ Hstart) as (Hc & Hbr & _).
    split.
    - unfold createBranch. rewrite Hstart. cbn [mbind result_bind].
      rewrite Hmark by exact Hbr. reflexivity.
    - split; [exact Hc|]. split; [exact Hbr|].
      intros Hrun. unfold startFastImport in Hstart. rewrite Hrun in Hstart.
      congruence. }
  split; [apply lookup_insert_eq|].
  intros k Hk. apply lookup_insert_ne. congruence.
Qed.

Lemma unknown_branch_lookup_inserts_witness :
  markFrom "trunk" 7 "from branch trunk" fresh_repository
  = Ok (-1, "from branch trunk",
        set_branches (<["trunk" := default_Branch]> (branches fresh_repository))
          fresh_repository).
Proof.
  apply (unknown_branch_lookup_inserts fresh_repository "trunk").
  vm_compute. reflexivity.
Defined.

(** ** The order of the bytes of a transaction *)

Lemma blob_stream_app mark xs ys :
  blob_stream mark (xs ++ ys)
  = blob_stream mark xs +:+ blob_stream (mark - Z.of_nat (length xs)) ys.
Proof.
  revert mark. induction xs as [|[[p m] body] xs IH]; intros mark.
  - cbn [app length blob_stream]. rewrite Z.sub_0_r. reflexivity.
  - cbn [app length blob_stream]. rewrite IH, !append_assoc.
    replace (mark - 1 - Z.of_nat (length xs)) with (mark - Z.of_nat (S (length xs)))
      by lia.
    reflexivity.
Qed.

Lemma M_lines_app mark xs ys :
  M_lines mark (xs ++ ys)
  = M_lines mark xs +:+ M_lines (mark - Z.of_nat (length xs)) ys.
Proof.
  revert mark. induction xs as [|[[p m] body] xs IH]; intros mark.
  - cbn [app length M_lines]. rewrite Z.sub_0_r. reflexivity.
  - cbn [app length M_lines]. rewrite IH, !append_assoc.
    replace (mark - 1 - Z.of_nat (length xs)) with (mark - Z.of_nat (S (length xs)))
      by lia.
    reflexivity.
Qed.

Lemma run_txn_op_inv cfg op t r r' t' :
  dry_run cfg = false ->
  run_txn_op cfg op t r = Ok (r', t') ->
  wire r' = wire r +:+ blob_stream (next_file_mark r) (added_files [op])
  /\ modifiedFiles t' = modifiedFiles t +:+ M_lines (next_file_mark r) (added_files [op])
  /\ next_file_mark r' = next_file_mark r - Z.of_nat (length (added_files [op])).
Proof.
  intros Hdry H. destruct op; cbn [run_txn_op] in H.
  1-3, 5: injection H as <- <-; cbn; rewrite !append_empty_r, Z.sub_0_r; auto.
  - assert (Hm : modifiedFiles t' = modifiedFiles t).
    { revert H. unfold noteCopyFromBranch.
      destruct (String.eqb _ _); [intros [= _ <-]; reflexivity|].
      intros H. bind_inv H. destruct a as [[mark dummy] r1]. bind_inv H.
      destruct (mark =? -1); [injection H as _ <-; reflexivity|].
      destruct (mark =? 0); [injection H as _ <-; reflexivity|].
      destruct (contains_Z _ _); injection H as _ <-; reflexivity. }
    apply noteCopyFromBranch_inv in H as ((_ & _ & _ & Hn & _) & Hw & _).
    cbn. rewrite !append_empty_r, Z.sub_0_r. auto.
  - bind_inv H. destruct a as [r1 t1]. injection H as <- <-.
    apply addFile_inv in E as (_ & Hn & _ & _ & _ & _ & _ & Hm & Hw).
    rewrite Hdry in Hw.
    cbn [sink_write write wire next_file_mark added_files flat_map app
         blob_stream M_lines length].
    rewrite Hw, Hm, Hn, !append_assoc, !append_empty_r. repeat split.
Qed.

Lemma run_txn_inv cfg ops : forall t r r' t',
  dry_run cfg = false ->
  run_txn cfg ops t r = Ok (r', t') ->
  wire r' = wire r +:+ blob_stream (next_file_mark r) (added_files ops)
  /\ modifiedFiles t' = modifiedFiles t +:+ M_lines (next_file_mark r) (added_files ops)
  /\ next_file_mark r' = next_file_mark r - Z.of_nat (length (added_files ops)).
Proof.
  induction ops as [|op rest IH]; intros t r r' t' Hdry H.
  - injection H as <- <-. cbn. rewrite !append_empty_r, Z.sub_0_r. auto.
  - cbn [run_txn] in H. bind_inv H. destruct a as [r1 t1].
    apply run_txn_op_inv in E as (Hw1 & Hm1 & Hn1); [|exact Hdry].
    apply IH in H as (Hw & Hm & Hn); [|exact Hdry].
    replace (added_files (op :: rest)) with (added_files [op] ++ added_files rest)%list
      by (unfold added_files; cbn [flat_map]; rewrite app_nil_r; reflexivity).
    rewrite blob_stream_app, M_lines_app, length_app.
    rewrite Hw, Hm, Hn, Hw1, Hm1, Hn1, !append_assoc.
    repeat split. lia.
Qed.

(** C1. Scenario S1: on a fresh repository with the branch [master] and the
    default options, [newTransaction("master", "/p", 3)], [setAuthor],
    [setDateTime(1000)], [setLog("hello")], one [addFile("f", 0100644, 5)]
    whose body [hello] goes to the returned device, and [commit()] write
    exactly the blob header, the five bytes of the body, and then the
    commit: header, message, the [M] line and the closing progress line.
    In general, whatever the calls on a transaction and their order, the
    bytes up to the end of [commit()] are: the blobs in the order of the
    [addFile] calls, then the commit header and the message, the merge
    lines, the deletions, the modifications in the order of the [addFile]
    calls, and the closing progress line. *)
Theorem scenario_S1_wire :
  wire <$> scenario_S1
  = Ok (unlines ["blob"; "mark :1048575"; "data 5"]
        +:+ "hello"
        +:+ unlines ["commit refs/heads/master";
                     "mark :1";
                     "committer A <a@x> 1000 -0000";
                     "data 6";
                     "hello";
                     "";
                     "M 100644 :1048575 f";
                     "";
                     "progress SVN r3 branch master = :1";
                     ""])
  /\ (forall (cfg : Config) (ops : list TxnOp) (t t1 : Transaction) (r r1 r2 : Repo),
         dry_run cfg = false ->
         run_txn cfg ops t r = Ok (r1, t1) ->
         commit cfg t1 r1 = Ok r2 ->
         let mark := last_commit_mark r1 + 1 in
         let message := commit_message cfg (log t1) (svnprefix t1) (revnum t1) in
         let ms := merge_marks t1 r1 in
         wire r2 = wire r
                   +:+ blob_stream (next_file_mark r) (added_files ops)
                   +:+ commit_header t1 mark message +:+ message +:+ nl
                   +:+ merge_lines ms
                   +:+ deletion_lines (deletedFiles t1)
                   +:+ (modifiedFiles t +:+ M_lines (next_file_mark r) (added_files ops))
                   +:+ commit_progress t1 mark (merge_desc ms)).
Proof.
  split; [vm_compute; reflexivity|].
  intros cfg ops t t1 r r1 r2 Hdry Hrun Hcommit.
  apply run_txn_inv in Hrun as (Hw & Hm & _); [|exact Hdry].
  apply commit_inv in Hcommit as (_ & _ & _ & _ & _ & _ & _ & Hw2 & _).
  cbn zeta in *. rewrite Hw2, Hw, Hm, !append_assoc. reflexivity.
Qed.

Lemma scenario_S1_wire_witness :
  exists r0 t0 r1 t1 r2,
    newTransaction default_config "master" "/p" 3 fresh_repository = Ok (r0, t0)
    /\ run_txn default_config
         [TSetAuthor "A <a@x>"; TSetDateTime 1000; TSetLog "hello";
          TAddFile "f" 33188 "hello"] t0 r0 = Ok (r1, t1)
    /\ commit default_config t1 r1 = Ok r2
    /\ wire r2
       = blob_stream 1048575 [("f", 33188, "hello")]
         +:+ unlines ["commit refs/heads/master";
                      "mark :1";
                      "committer A <a@x> 1000 -0000";
                      "data 6";
                      "hello";
                      "";
                      "M 100644 :1048575 f";
                      "";
                      "progress SVN r3 branch master = :1";
                      ""].
Proof.
  destruct (newTransaction default_config "master" "/p" 3 fresh_repository)
    as [[r0 t0]|] eqn:E0; [|vm_compute in E0; discriminate E0].
  destruct (run_txn default_config
              [TSetAuthor "A <a@x>"; TSetDateTime 1000; TSetLog "hello";
               TAddFile "f" 33188 "hello"] t0 r0)
    as [[r1 t1]|] eqn:E1;
    [|vm_compute in E0; injection E0 as <- <-; vm_compute in E1; discriminate E1].
  destruct (commit default_config t1 r1) as [r2|] eqn:E2;
    [|vm_compute in E0; injection E0 as <- <-;
      vm_compute in E1; injection E1 as <- <-;
      vm_compute in E2; discriminate E2].
  exists r0, t0, r1, t1, r2.
  split; [reflexivity|]. split; [first [reflexivity|exact E1]|].
  split; [first [reflexivity|exact E2]|].
  rewrite (proj2 scenario_S1_wire default_config _ t0 t1 r0 r1 r2 eq_refl E1 E2).
  vm_compute in E0. injection E0 as <- <-.
  vm_compute in E1. injection E1 as <- <-.
  vm_compute. reflexivity.
Defined.

(** The merge lines of [commit()]: the merges without the parent mark, cut
    at 15 after a parent and at 16 without one. *)
Lemma commit_merge_marks t r :
  merge_marks t r
  = take (if parent_mark t r =? 0 then 16%nat else 15%nat)
      (List.filter (fun m => negb (m =? parent_mark t r)) (merges t)).
Proof.
  unfold merge_marks.
  destruct (merge_loop_spec (parent_mark t r) (merges t) is_warning eq_refl eq_refl
              (if parent_mark t r =? 0 then 0 else 1)) as [Hms _].
  cbn zeta in Hms. rewrite Hms.
  destruct (parent_mark t r =? 0); reflexivity.
Qed.

(** C7. A [commit()] that returns has written, between the message and the
    deletions, one [merge] line for each merge mark of the transaction that
    differs from the parent mark, in insertion order, up to 15 lines after
    a non-zero parent mark and up to 16 after a zero one; the progress
    line names the same marks.  When the transaction has more such marks,
    the rest is dropped and the warning [too many merge parents] is logged
    exactly once; otherwise it is not logged. *)
Theorem commit_parent_cap (cfg : Config) (t : Transaction) (r r' : Repo) :
  commit cfg t r = Ok r' ->
  let parentmark := parent_mark t r in
  let cap := if parentmark =? 0 then 16%nat else 15%nat in
  let candidates := List.filter (fun m => negb (m =? parentmark)) (merges t) in
  let emitted := take cap candidates in
  let mark := last_commit_mark r + 1 in
  let message := commit_message cfg (log t) (svnprefix t) (revnum t) in
  (length emitted <= cap)%nat
  /\ wire r' = wire r
               +:+ commit_header t mark message +:+ message +:+ nl
               +:+ merge_lines emitted
               +:+ deletion_lines (deletedFiles t)
               +:+ modifiedFiles t
               +:+ commit_progress t mark (merge_desc emitted)
  /\ List.filter too_many_parents (diag r')
     = (List.filter too_many_parents (diag r)
        ++ (if (cap <? length candidates)%nat
            then [Warning "too many merge parents"] else []))%list.
Proof.
  intros H. cbn zeta.
  apply commit_inv in H as (_ & _ & _ & _ & _ & _ & _ & Hw & Hd). cbn zeta in Hw.
  rewrite commit_merge_marks in Hw.
  split; [rewrite length_take; lia|]. split; [exact Hw|].
  rewrite Hd, !List.filter_app.
  destruct (merge_loop_spec (parent_mark t r) (merges t) too_many_parents
              eq_refl eq_refl (if parent_mark t r =? 0 then 0 else 1)) as [_ Hds].
  cbn zeta in Hds. rewrite Hds.
  replace (Z.to_nat (16 - (if parent_mark t r =? 0 then 0 else 1)))
    with (if parent_mark t r =? 0 then 16%nat else 15%nat)
    by (destruct (parent_mark t r =? 0); reflexivity).
  f_equal.
  destruct (negb _ && negb _)%bool; reflexivity.
Qed.

(** Scenario S4 as an instance: parent mark 2 and merges 2 and 5 give the
    single line [merge :5]. *)
Lemma commit_parent_cap_witness :
  exists r',
    commit default_config transaction_S4 repository_S4 = Ok r'
    /\ parent_mark transaction_S4 repository_S4 = 2
    /\ written repository_S4 r'
       = Some (unlines ["commit refs/heads/b";
                        "mark :6";
                        "committer A <a@x> 2000 -0000";
                        "data 6";
                        "merge";
                        "";
                        "merge :5";
                        "";
                        "progress SVN r9 branch b = :6 # merge from :5";
                        ""]).
Proof.
  destruct (commit default_config transaction_S4 repository_S4) as [r'|] eqn:E;
    [|vm_compute in E; discriminate E].
  exists r'. split; [reflexivity|]. split; [vm_compute; reflexivity|].
  destruct (commit_parent_cap _ _ _ _ E) as (_ & Hw & _).
  unfold written. rewrite Hw. vm_compute. reflexivity.
Defined.

(** ** The backup reset *)

(** [resetBranch] aborts exactly on a branch that was created at another
    revision and has no marks. *)
Lemma resetBranch_aborts_iff branch revnum mark resetTo comment r :
  let br := br_at branch (branches r) in
  (exists f, resetBranch branch revnum mark resetTo comment r = Abort f)
  <-> created br <> 0 /\ created br <> revnum /\ marks br = [].
Proof.
  cbn zeta. unfold resetBranch.
  set (br := br_at branch (branches r)).
  destruct (Z.eqb_spec (created br) 0) as [Hz|Hz].
  { cbn. split; [intros [f Hf]; discriminate Hf | tauto]. }
  destruct (Z.eqb_spec (created br) revnum) as [Hr|Hr].
  { cbn. split; [intros [f Hf]; discriminate Hf | tauto]. }
  destruct (marks br) as [|m0 mks] eqn:Hm.
  - cbn. split; [auto | eauto].
  - destruct (vlast_cons m0 mks) as (pm & -> & _). cbn.
    split; [intros [f Hf]; discriminate Hf | intros (_ & _ & Hnil); discriminate Hnil].
Qed.

(** On a branch with marks, the backup reset is written exactly when the
    branch was created at another revision and its last mark is not 0. *)
Lemma resetBranch_backup branch revnum mark resetTo comment r last_mark :
  let br := br_at branch (branches r) in
  last (marks br) = Some last_mark ->
  exists r',
    resetBranch branch revnum mark resetTo comment r = Ok (EXIT_SUCCESS, r')
    /\ wire r'
       = wire r
         +:+ (if (negb (created br =? 0) && negb (created br =? revnum)
                  && negb (last_mark =? 0))%bool
              then "reset refs/backups/r" +:+ Bytes.number revnum
                   +:+ Bytes.mid 4 (-1) (to_branchRef branch) +:+ nl
                   +:+ "from " +:+ to_branchRef branch +:+ nl +:+ nl
              else EmptyString)
         +:+ "reset " +:+ to_branchRef branch +:+ nl +:+ "from " +:+ resetTo +:+ nl +:+ nl
         +:+ "progress SVN r" +:+ Bytes.number revnum
         +:+ " branch " +:+ branch +:+ " = :" +:+ Bytes.number mark
         +:+ " # " +:+ comment +:+ nl +:+ nl.
Proof.
  cbn zeta. intros Hlast. unfold resetBranch.
  rewrite (vlast_Some _ _ Hlast).
  destruct (created _ =? 0); cbn;
    [eexists; split; [reflexivity|cbn; rewrite ?append_assoc; reflexivity]|].
  destruct (created _ =? revnum); cbn;
    [eexists; split; [reflexivity|cbn; rewrite ?append_assoc; reflexivity]|].
  destruct (last_mark =? 0); cbn;
    eexists; (split; [reflexivity|cbn; rewrite ?append_assoc; reflexivity]).
Qed.

(** ** More on the marks-file reader *)

(** No line that [readLine()] returns is empty, so the test
    [line.isEmpty()] of the reader never holds. *)
Lemma read_lines_nonempty (s : string) :
  Forall (fun line => Bytes.isEmpty line = false) (Bytes.read_lines s).
Proof.
  induction s as [|c s IH]; cbn [Bytes.read_lines]; [constructor|].
  destruct (Ascii.eqb c "010"); [constructor; [reflexivity|exact IH]|].
  destruct (Bytes.read_lines s) as [|l ls]; repeat constructor.
  inversion IH; assumption.
Qed.

Example lastValidMark_missing_file : lastValidMark None = (0, []).
Proof. reflexivity. Qed.

Example lastValidMark_gap :
  lastValidMark (Some (unlines [":1 a"; ":2 b"; ":4 c"; ":5 d"])) = (2, []).
Proof. vm_compute. reflexivity. Qed.

Example lastValidMark_duplicate :
  lastValidMark (Some (unlines [":1 a"; ":1 b"]))
  = (0, [Critical "marks file has duplicates"]).
Proof. vm_compute. reflexivity. Qed.

Example lastValidMark_descending :
  lastValidMark (Some (unlines [":1 a"; ":2 b"; ":1 c"]))
  = (0, [Critical "marks file not sorted"]).
Proof. vm_compute. reflexivity. Qed.

Example lastValidMark_not_numeric :
  lastValidMark (Some (unlines [":1 a"; ":x b"]))
  = (0, [Critical "marks file corrupt?"]).
Proof. vm_compute. reflexivity. Qed.

(** ** The pattern of the progress log *)

Lemma strip_prefix_sound p : forall s rest,
  strip_prefix p s = Some rest -> s = p +:+ rest.
Proof.
  induction p as [|a p IH]; intros s rest H.
  - cbn in H. injection H as <-. reflexivity.
  - destruct s as [|b s]; [discriminate H|]. cbn in H.
    destruct (Ascii.eqb_spec a b) as [<-|]; [|discriminate H].
    rewrite append_cons. f_equal. apply IH. exact H.
Qed.

Lemma strip_prefix_complete p rest : strip_prefix p (p +:+ rest) = Some rest.
Proof.
  induction p as [|a p IH]; [destruct rest; reflexivity|].
  rewrite append_cons. cbn. rewrite Ascii.eqb_refl. exact IH.
Qed.

Lemma span_digits_sound s : forall d rest,
  span_digits s = (d, rest) -> s = d +:+ rest /\ all_digits d = true.
Proof.
  induction s as [|c s IH]; intros d rest H.
  - injection H as <- <-. split; reflexivity.
  - cbn in H. destruct (Bytes.is_digit c) eqn:Hc.
    + destruct (span_digits s) as [d' rest'] eqn:Hs. injection H as <- <-.
      destruct (IH _ _ eq_refl) as [-> Hd]. split; [reflexivity|].
      cbn. rewrite Hc. exact Hd.
    + injection H as <- <-. split; reflexivity.
Qed.

Lemma span_digits_complete d c rest :
  all_digits d = true -> Bytes.is_digit c = false ->
  span_digits (d +:+ String c rest) = (d, String c rest).
Proof.
  intros Hd Hc. induction d as [|x d IH].
  - change (EmptyString +:+ String c rest) with (String c rest).
    cbn. rewrite Hc. reflexivity.
  - cbn in Hd. apply andb_true_iff in Hd as [Hx Hd].
    rewrite append_cons. cbn. rewrite Hx, (IH Hd). reflexivity.
Qed.

Lemma match_tail_sound s : forall b d,
  match_tail s = Some (b, d) ->
  s = b +:+ " = :" +:+ d /\ all_digits d = true /\ d <> EmptyString.
Proof.
  induction s as [|c s IH]; intros b d H; [discriminate H|].
  cbn [match_tail] in H.
  destruct (match_tail s) as [[b' d']|] eqn:Hs.
  - injection H as <- <-. destruct (IH _ _ eq_refl) as (-> & Hd & Hne).
    repeat split; assumption.
  - destruct (strip_prefix " = :" (String c s)) as [d'|] eqn:Hp; [|discriminate H].
    destruct (negb (Bytes.isEmpty d') && all_digits d')%bool eqn:Hd; [|discriminate H].
    injection H as <- <-. apply andb_true_iff in Hd as [Hne Hd].
    apply strip_prefix_sound in Hp.
    split; [exact Hp|]. split; [exact Hd|].
    intros ->. discriminate Hne.
Qed.

Lemma match_tail_digits d : all_digits d = true -> match_tail d = None.
Proof.
  induction d as [|c d IH]; intros Hd; [reflexivity|].
  cbn in Hd. apply andb_true_iff in Hd as [Hc Hd].
  cbn [match_tail]. rewrite (IH Hd).
  assert (Hsp : Ascii.eqb " " c = false)
    by (apply Ascii.eqb_neq; intros <-; discriminate Hc).
  cbn [strip_prefix]. rewrite Hsp. reflexivity.
Qed.

Lemma match_tail_complete b d :
  all_digits d = true -> d <> EmptyString ->
  match_tail (b +:+ " = :" +:+ d) = Some (b, d).
Proof.
  intros Hd Hne. induction b as [|c b IH].
  - change (EmptyString +:+ " = :" +:+ d) with (String " " (String "=" (String " " (String ":" d)))).
    cbn [match_tail]. rewrite (match_tail_digits d Hd).
    cbn [strip_prefix]. rewrite !Ascii.eqb_refl, Hd.
    destruct d; [contradiction|reflexivity].
  - rewrite append_cons. cbn [match_tail]. rewrite IH. reflexivity.
Qed.

(** What [progress_exactMatch] accepts is the language of the pattern, and
    the three captures are the only way to cut the text. *)
Lemma progress_exactMatch_sound line cap1 b cap3 :
  progress_exactMatch line = Some (cap1, b, cap3) ->
  line = "progress SVN r" +:+ cap1 +:+ " branch " +:+ b +:+ " = :" +:+ cap3
  /\ all_digits cap1 = true /\ cap1 <> EmptyString
  /\ all_digits cap3 = true /\ cap3 <> EmptyString.
Proof.
  unfold progress_exactMatch. intros H.
  destruct (strip_prefix "progress SVN r" line) as [s1|] eqn:H1; [|discriminate H].
  destruct (span_digits s1) as [d1 s2] eqn:H2.
  destruct (Bytes.isEmpty d1) eqn:He; [discriminate H|].
  destruct (strip_prefix " branch " s2) as [s3|] eqn:H3; [|discriminate H].
  destruct (match_tail s3) as [[b' d3]|] eqn:H4; [|discriminate H].
  injection H as <- <- <-.
  apply strip_prefix_sound in H1, H3.
  apply span_digits_sound in H2 as [H2 Hd1].
  apply match_tail_sound in H4 as (H4 & Hd3 & Hne3).
  subst. repeat split; try assumption.
  intros ->. discriminate He.
Qed.

Lemma progress_exactMatch_complete cap1 b cap3 :
  all_digits cap1 = true -> cap1 <> EmptyString ->
  all_digits cap3 = true -> cap3 <> EmptyString ->
  progress_exactMatch
    ("progress SVN r" +:+ cap1 +:+ " branch " +:+ b +:+ " = :" +:+ cap3)
  = Some (cap1, b, cap3).
Proof.
  intros Hd1 Hne1 Hd3 Hne3. unfold progress_exactMatch.
  rewrite strip_prefix_complete.
  change (" branch " +:+ b +:+ " = :" +:+ cap3)
    with (String " " ("branch " +:+ b +:+ " = :" +:+ cap3)).
  rewrite span_digits_complete by (assumption || reflexivity).
  destruct cap1; [contradiction|]. cbn [Bytes.isEmpty].
  change (String " " ("branch " +:+ b +:+ " = :" +:+ cap3))
    with (" branch " +:+ (b +:+ " = :" +:+ cap3)).
  rewrite strip_prefix_complete, match_tail_complete by assumption.
  reflexivity.
Qed.

(** * Properties of the rest of the file *)

(** ** The process cache *)

Section ProcessCache.

Context {A : Type} `{EqDecision A}.

Lemma removeOne_not_elem (x : A) (l : list A) : x ∉ l -> removeOne x l = l.
Proof.
  induction l as [|y l IH]; intros Hx; [reflexivity|].
  apply not_elem_of_cons in Hx as [Hne Hx].
  cbn. destruct (decide (x = y)); [contradiction|].
  rewrite (IH Hx). reflexivity.
Qed.

Lemma removeOne_length (x : A) (l : list A) :
  (length (removeOne x l) <= length l)%nat.
Proof.
  induction l as [|y l IH]; cbn; [lia|].
  destruct (decide (x = y)); cbn; lia.
Qed.

Lemma removeOne_elem (x y : A) (l : list A) : y ∈ removeOne x l -> y ∈ l.
Proof.
  induction l as [|z l IH]; cbn; [auto|].
  destruct (decide (x = z)); [apply list_elem_of_further|].
  intros [->|Hy]%elem_of_cons; [apply list_elem_of_here|].
  apply list_elem_of_further, IH, Hy.
Qed.

Lemma removeOne_NoDup (x : A) (l : list A) :
  NoDup l -> NoDup (removeOne x l) /\ x ∉ removeOne x l.
Proof.
  induction 1 as [|y l Hy Hl IH]; cbn; [split; [constructor|apply not_elem_of_nil]|].
  destruct (decide (x = y)) as [->|Hne]; [split; assumption|].
  destruct IH as [IH1 IH2]. split.
  - constructor; [|exact IH1]. intros Hin. apply Hy.
    exact (removeOne_elem x y l Hin).
  - intros [->|Hx]%elem_of_cons; [apply Hne; reflexivity|exact (IH2 Hx)].
Qed.

Lemma evict_length (fuel : nat) : forall cache : list A,
  (length cache <= fuel)%nat -> (length (snd (evict fuel cache)) <= 99)%nat.
Proof.
  induction fuel as [|fuel IH]; intros cache Hlen.
  - destruct cache; cbn in *; lia.
  - cbn [evict]. unfold maxSimultaneousProcesses.
    destruct (Z.leb_spec 100 (Z.of_nat (length cache))) as [Hfull|Hroom].
    + destruct cache as [|first rest]; [cbn; lia|].
      pose proof (removeOne_length first rest) as Hr.
      specialize (IH (removeOne first rest) ltac:(cbn in Hlen; lia)).
      destruct (evict fuel (removeOne first rest)). exact IH.
    + cbn. lia.
Qed.

Lemma evict_NoDup (fuel : nat) : forall cache : list A,
  (length cache <= fuel)%nat -> NoDup cache ->
  evict fuel cache
  = (take (length cache - 99) cache, drop (length cache - 99) cache).
Proof.
  induction fuel as [|fuel IH]; intros cache Hlen Hnd.
  - destruct cache; [reflexivity|cbn in Hlen; lia].
  - cbn [evict]. unfold maxSimultaneousProcesses.
    destruct (Z.leb_spec 100 (Z.of_nat (length cache))) as [Hfull|Hroom].
    + destruct cache as [|first rest]; [cbn in Hfull; lia|].
      inversion Hnd as [|? ? Hfirst Hrest]; subst.
      rewrite (removeOne_not_elem first rest Hfirst).
      rewrite (IH rest) by (cbn in Hlen; lia || assumption).
      cbn [length] in *.
      replace (S (length rest) - 99)%nat with (S (length rest - 99)) by lia.
      reflexivity.
    + replace (length cache - 99)%nat with 0%nat by lia. reflexivity.
Qed.

(** X1. [ProcessCache::touch(repo)] leaves [repo] at the end of the cache
    and at most 100 repositories in it.  On a cache that holds no
    repository twice, the cache stays that way, the repositories closed are
    the oldest ones, as many as needed to get below 100 and no more, the
    others keep their order, and [repo] itself is never closed. *)
Theorem touch_keeps_cache_bounded (repo : A) (cache : list A) :
  let closed := fst (touch repo cache) in
  let cache' := snd (touch repo cache) in
  last cache' = Some repo
  /\ (length cache' <= 100)%nat
  /\ (NoDup cache ->
      NoDup cache'
      /\ (repo ∉ closed)
      /\ closed = take (length (removeOne repo cache) - 99) (removeOne repo cache)
      /\ cache' = (drop (length (removeOne repo cache) - 99) (removeOne repo cache)
                   ++ [repo])%list).
Proof.
  cbn zeta. unfold touch.
  pose proof (evict_length (length (removeOne repo cache)) (removeOne repo cache)
                ltac:(lia)) as Hlen.
  destruct (evict (length (removeOne repo cache)) (removeOne repo cache))
    as [closed cache2] eqn:Hev.
  cbn [fst snd] in *.
  split; [apply last_snoc|].
  split; [rewrite length_app; cbn; lia|].
  intros Hnd.
  destruct (removeOne_NoDup repo cache Hnd) as [Hnd1 Hnotin].
  rewrite evict_NoDup in Hev by (lia || assumption).
  injection Hev as <- <-.
  split.
  - apply NoDup_app.
    split; [exact (sublist_NoDup _ _ Hnd1 (sublist_drop _ _))|]. split.
    + intros x Hx Hx'. apply list_elem_of_singleton in Hx'. subst x.
      apply Hnotin. exact (subseteq_drop _ _ _ Hx).
    + apply NoDup_singleton.
  - split; [|split; reflexivity].
    intros Hin. apply Hnotin. apply elem_of_take in Hin as (i & Hi & _).
    eapply list_elem_of_lookup_2. exact Hi.
Qed.

End ProcessCache.

Lemma touch_keeps_cache_bounded_witness :
  touch 200%nat (seq 0 100) = ([0%nat], (seq 1 99 ++ [200%nat])%list)
  /\ NoDup (snd (touch 200%nat (seq 0 100))).
Proof.
  split; [vm_compute; reflexivity|].
  apply (touch_keeps_cache_bounded 200%nat (seq 0 100)).
  apply NoDup_seq.
Defined.

(** ** The names of the marks file and of the log *)

Lemma replace_char_gone (before after : ascii) (s : string) :
  before <> after ->
  Bytes.indexOf before (replace_char before after s) = None.
Proof.
  intros Hne. induction s as [|c s IH]; [reflexivity|].
  cbn [replace_char Bytes.indexOf]. rewrite IH.
  destruct (Ascii.eqb_spec c before) as [->|Hc].
  - destruct (Ascii.eqb_spec before after); [contradiction|reflexivity].
  - destruct (Ascii.eqb_spec before c); [congruence|reflexivity].
Qed.

Lemma replace_char_len (before after : ascii) (s : string) :
  Bytes.len (replace_char before after s) = Bytes.len s.
Proof.
  unfold Bytes.len. induction s as [|c s IH]; [reflexivity|].
  cbn [replace_char String.length]. lia.
Qed.

(** X2. The names of the marks file and of the log of a repository hold no
    slash, whatever the name of the repository, so both are plain file
    names; they are the name with [marks-] and [log-] in front and as long
    as that. *)
Theorem file_names_flat (name : string) :
  Bytes.indexOf "/" (marksFileName name) = None
  /\ Bytes.indexOf "/" (logFileName name) = None
  /\ Bytes.startsWith "marks-" (marksFileName name) = true
  /\ Bytes.startsWith "log-" (logFileName name) = true
  /\ Bytes.len (marksFileName name) = Bytes.len name + 6
  /\ Bytes.len (logFileName name) = Bytes.len name + 4.
Proof.
  assert (Hno : Bytes.indexOf "/" (replace_char "/" "_" name) = None)
    by (apply replace_char_gone; discriminate).
  unfold marksFileName, logFileName.
  repeat split.
  - rewrite !append_cons. cbn [Bytes.indexOf].
    change (EmptyString +:+ replace_char "/" "_" name) with (replace_char "/" "_" name).
    rewrite Hno. reflexivity.
  - rewrite !append_cons. cbn [Bytes.indexOf].
    change (EmptyString +:+ replace_char "/" "_" name) with (replace_char "/" "_" name).
    rewrite Hno. reflexivity.
  - destruct name; reflexivity.
  - destruct name; reflexivity.
  - rewrite len_append, replace_char_len. change (Bytes.len "marks-") with 6. lia.
  - rewrite len_append, replace_char_len. change (Bytes.len "log-") with 4. lia.
Qed.

(** ** The prefixing facade *)

Lemma run_prefixing_txn_op_eq cfg prefix op t r :
  run_prefixing_txn_op cfg prefix op t r = run_txn_op cfg (prefix_op prefix op) t r.
Proof. destruct op; reflexivity. Qed.

Lemma run_prefixing_txn_eq cfg prefix ops : forall t r,
  run_prefixing_txn cfg prefix ops t r = run_txn cfg (map (prefix_op prefix) ops) t r.
Proof.
  induction ops as [|op ops IH]; intros t r; [reflexivity|].
  cbn [run_prefixing_txn run_txn map]. rewrite run_prefixing_txn_op_eq.
  destruct (run_txn_op cfg (prefix_op prefix op) t r) as [[r1 t1]|]; [|reflexivity].
  cbn [mbind result_bind]. apply IH.
Qed.

Lemma added_files_prefix prefix ops :
  added_files (map (prefix_op prefix) ops) = map (prefix_file prefix) (added_files ops).
Proof.
  unfold added_files. induction ops as [|op ops IH]; [reflexivity|].
  cbn [map flat_map]. rewrite IH. destruct op; reflexivity.
Qed.

Lemma blob_stream_prefix prefix files : forall mark,
  blob_stream mark (map (prefix_file prefix) files) = blob_stream mark files.
Proof.
  induction files as [|[[p m] body] files IH]; intros mark; [reflexivity|].
  cbn [map prefix_file blob_stream]. rewrite IH. reflexivity.
Qed.

(** X3. A transaction of a [PrefixingRepository] behaves as the wrapped
    transaction does on the same calls with the prefix in front of every
    path of [addFile] and [deleteFile].  Up to the end of [commit()] the
    bytes are the blobs of the files as without the prefix, the commit
    header and message, the merge lines, the deletions, the modification
    lines with the prefixed paths, and the closing progress line. *)
Theorem prefixing_transparent (cfg : Config) (prefix : string) (ops : list TxnOp)
    (t : Transaction) (r : Repo) :
  run_prefixing_txn cfg prefix ops t r = run_txn cfg (map (prefix_op prefix) ops) t r
  /\ (forall r1 t1 r2,
         dry_run cfg = false ->
         run_prefixing_txn cfg prefix ops t r = Ok (r1, t1) ->
         commit cfg t1 r1 = Ok r2 ->
         let mark := last_commit_mark r1 + 1 in
         let message := commit_message cfg (log t1) (svnprefix t1) (revnum t1) in
         let ms := merge_marks t1 r1 in
         wire r2 = wire r
                   +:+ blob_stream (next_file_mark r) (added_files ops)
                   +:+ commit_header t1 mark message +:+ message +:+ nl
                   +:+ merge_lines ms
                   +:+ deletion_lines (deletedFiles t1)
                   +:+ (modifiedFiles t
                        +:+ M_lines (next_file_mark r)
                              (map (prefix_file prefix) (added_files ops)))
                   +:+ commit_progress t1 mark (merge_desc ms)).
Proof.
  split; [apply run_prefixing_txn_eq|].
  intros r1 t1 r2 Hdry Hrun Hcommit.
  rewrite run_prefixing_txn_eq in Hrun.
  apply run_txn_inv in Hrun as (Hw & Hm & _); [|exact Hdry].
  apply commit_inv in Hcommit as (_ & _ & _ & _ & _ & _ & _ & Hw2 & _).
  cbn zeta in *.
  rewrite added_files_prefix in Hw, Hm. rewrite blob_stream_prefix in Hw.
  rewrite Hw2, Hw, Hm, !append_assoc. reflexivity.
Qed.

Lemma prefixing_transparent_witness :
  exists r1 t1 r2,
    run_prefixing_txn default_config "sub/"
      [TSetLog "hello"; TAddFile "f" 33188 "hello"; TDeleteFile "old/"]
      (new_txn "master" "/p" 3) (set_process true true fresh_repository)
    = Ok (r1, t1)
    /\ commit default_config t1 r1 = Ok r2
    /\ wire r2
       = unlines ["blob"; "mark :1048575"; "data 5"] +:+ "hello"
         +:+ unlines ["commit refs/heads/master";
                      "mark :1";
                      "committer  0 -0000";
                      "data 6";
                      "hello";
                      "";
                      "D sub/old";
                      "M 100644 :1048575 sub/f";
                      "";
                      "progress SVN r3 branch master = :1";
                      ""].
Proof.
  destruct (run_prefixing_txn default_config "sub/"
              [TSetLog "hello"; TAddFile "f" 33188 "hello"; TDeleteFile "old/"]
              (new_txn "master" "/p" 3) (set_process true true fresh_repository))
    as [[r1 t1]|] eqn:E1; [|vm_compute in E1; discriminate E1].
  destruct (commit default_config t1 r1) as [r2|] eqn:E2;
    [|vm_compute in E1; injection E1 as <- <-; vm_compute in E2; discriminate E2].
  exists r1, t1, r2. split; [reflexivity|]. split; [first [reflexivity|exact E2]|].
  rewrite (proj2 (prefixing_transparent default_config "sub/" _ _ _) r1 t1 r2
             eq_refl E1 E2).
  vm_compute in E1. injection E1 as <- <-. vm_compute. reflexivity.
Defined.

(** ** Replaying a log that the marks file covers *)

Lemma br_at_insert (bs : gmap string Branch) (k b : string) (br : Branch) :
  br_at b (<[k := br]> bs) = if String.eqb k b then br else br_at b bs.
Proof.
  unfold br_at. destruct (String.eqb_spec k b) as [->|Hne].
  - rewrite lookup_insert_eq. reflexivity.
  - rewrite lookup_insert_ne by assumption. reflexivity.
Qed.

Lemma scan_log_replay (cutoff lvm : Z) (lines : list string) :
  forall pos last_revnum r,
    Forall (fun '(rev, _, mark) => rev < cutoff /\ mark <= lvm) (omap log_entry lines) ->
    exists r',
      scan_log lines pos cutoff lvm last_revnum r
      = ScanEnd (entries_last_rev last_revnum (omap log_entry lines)) r'
      /\ last_commit_mark r'
         = entries_max_mark (last_commit_mark r) (omap log_entry lines)
      /\ forall b,
           commits (br_at b (branches r'))
           = (commits (br_at b (branches r))
              ++ entries_revs b (omap log_entry lines))%list
           /\ marks (br_at b (branches r'))
              = (marks (br_at b (branches r))
                 ++ entries_marks b (omap log_entry lines))%list.
Proof.
  induction lines as [|raw rest IH]; intros pos last_revnum r Hok.
  - exists r. cbn. split; [reflexivity|]. split; [reflexivity|].
    intros b. rewrite !app_nil_r. split; reflexivity.
  - cbn [scan_log omap list_omap] in *.
    destruct (log_entry raw) as [[[revnum branch] mark]|] eqn:Hentry.
    2:{ apply IH. exact Hok. }
    apply Forall_cons in Hok as [Hhd Hok']. cbn in Hhd. destruct Hhd as [Hrev Hmark].
    destruct (Z.leb_spec cutoff revnum); [lia|].
    destruct (Z.ltb_spec lvm mark); [lia|].
    set (r1 := if revnum <? last_revnum
               then note (Warning "revision numbers are not monotonic") r else r).
    assert (H1 : last_commit_mark r1 = last_commit_mark r /\ branches r1 = branches r)
      by (subst r1; destruct (revnum <? last_revnum); split; reflexivity).
    destruct H1 as [Hl1 Hb1].
    set (r2 := if last_commit_mark r1 <? mark then set_last_commit_mark mark r1 else r1).
    assert (H2 : last_commit_mark r2
                 = (if last_commit_mark r <? mark then mark else last_commit_mark r)
                 /\ branches r2 = branches r).
    { subst r2. rewrite Hl1. destruct (last_commit_mark r <? mark); cbn; auto. }
    destruct H2 as [Hl2 Hb2].
    match goal with
    | |- context [scan_log rest ?p cutoff lvm revnum ?rr] =>
        destruct (IH p revnum rr Hok') as (r' & Hscan & Hlcm & Hbr)
    end.
    exists r'. split; [exact Hscan|]. split.
    + rewrite Hlcm. cbn [entries_max_mark foldl set_branches last_commit_mark].
      rewrite Hl2. reflexivity.
    + intros b. destruct (Hbr b) as [Hc Hm]. rewrite Hc, Hm.
      cbn [set_branches branches]. rewrite br_at_insert, Hb2.
      cbn [entries_revs entries_marks flat_map].
      destruct (String.eqb_spec branch b) as [->|Hne]; cbn [commits marks];
        rewrite <- ?app_assoc; split; reflexivity.
Qed.

(** X4. When every entry of the log has a revision below the cutoff and a
    mark that the marks file covers, [setupIncremental] returns the
    revision after the last entry (1 for a log without entries), leaves the
    cutoff and the log as they are, raises [last_commit_mark] to the
    greatest mark of the log, and appends to the vectors of every branch
    the revisions and the marks of its entries, in the order of the log. *)
Theorem resume_replays_log (cutoff : Z) (r : Repo) (fs : Files) (content : string) :
  logfile fs = Some content ->
  Forall (fun '(rev, _, mark) =>
            rev < cutoff /\ mark <= fst (lastValidMark (marksfile fs)))
         (log_entries content) ->
  let '(retval, cutoff', r', fs') := setupIncremental cutoff r fs in
  retval = entries_last_rev 0 (log_entries content) + 1
  /\ cutoff' = cutoff
  /\ logfile fs' = Some content
  /\ marksfile fs' = marksfile fs
  /\ last_commit_mark r'
     = entries_max_mark (last_commit_mark r) (log_entries content)
  /\ forall b,
       commits (br_at b (branches r'))
       = (commits (br_at b (branches r)) ++ entries_revs b (log_entries content))%list
       /\ marks (br_at b (branches r'))
          = (marks (br_at b (branches r)) ++ entries_marks b (log_entries content))%list.
Proof.
  intros Hlog Hok. unfold setupIncremental. rewrite Hlog.
  destruct (lastValidMark (marksfile fs)) as [lvm ds]. cbn [fst] in Hok.
  destruct (scan_log_replay cutoff lvm (Bytes.read_lines content) 0 0 (notes ds r) Hok)
    as (r' & Hscan & Hlcm & Hbr).
  rewrite Hscan. unfold log_entries.
  repeat split; try (destruct (_ =? cutoff); first [exact Hlog|reflexivity]);
    try exact Hlcm; apply Hbr.
Qed.

Lemma resume_replays_log_witness :
  let fs := {| logfile := Some (unlines ["progress SVN r1 branch master = :1";
                                         "progress SVN r2 branch b = :2 # from x";
                                         "progress Branch refs/heads/b reloaded";
                                         "progress SVN r4 branch master = :3"]);
               logfile_old := None;
               marksfile := Some (unlines [":1 a"; ":2 b"; ":3 c"]) |} in
  let '(retval, cutoff', r', fs') := setupIncremental 100 fresh_repository fs in
  retval = 5 /\ last_commit_mark r' = 3
  /\ commits (br_at "master" (branches r')) = [1; 4]
  /\ marks (br_at "master" (branches r')) = [1; 3]
  /\ commits (br_at "b" (branches r')) = [2].
Proof.
  cbn zeta.
  set (fs := {| logfile := Some (unlines ["progress SVN r1 branch master = :1";
                                          "progress SVN r2 branch b = :2 # from x";
                                          "progress Branch refs/heads/b reloaded";
                                          "progress SVN r4 branch master = :3"]);
                logfile_old := None;
                marksfile := Some (unlines [":1 a"; ":2 b"; ":3 c"]) |}).
  assert (Hok : Forall (fun '(rev, _, mark) =>
                          rev < 100 /\ mark <= fst (lastValidMark (marksfile fs)))
                  (log_entries (unlines ["progress SVN r1 branch master = :1";
                                         "progress SVN r2 branch b = :2 # from x";
                                         "progress Branch refs/heads/b reloaded";
                                         "progress SVN r4 branch master = :3"]))).
  { vm_compute. repeat constructor; discriminate. }
  pose proof (resume_replays_log 100 fresh_repository fs _ eq_refl Hok) as H.
  destruct (setupIncremental 100 fresh_repository fs) as [[[retval cutoff'] r'] fs'].
  destruct H as (-> & _ & _ & _ & -> & Hbr).
  destruct (Hbr "master") as [-> ->]. destruct (Hbr "b") as [-> _].
  vm_compute. repeat split; reflexivity.
Defined.

(** ** Rewinding keeps the log *)

Lemma truncate_prefix (pos : Z) (s : string) :
  exists rest, s = Bytes.truncate pos s +:+ rest.
Proof.
  unfold Bytes.truncate. generalize (Z.to_nat pos) as n. intros n. revert n.
  induction s as [|c s IH]; intros n.
  - exists EmptyString. destruct n; reflexivity.
  - destruct n as [|n].
    + exists (String c s). reflexivity.
    + destruct (IH n) as [rest Hrest]. exists rest.
      cbn [substring]. rewrite append_cons, <- Hrest. reflexivity.
Qed.

(** X5. [setupIncremental] never loses a line of the log and never touches
    the marks file: either the log is as before (and the backup is as
    before or removed), or the log has been cut to a prefix of itself, the
    backup holds the whole log as it was, and [restoreLog] then puts the
    log back as it was and leaves no backup. *)
Theorem rewind_keeps_log (cutoff : Z) (r : Repo) (fs : Files) :
  let fs' := snd (setupIncremental cutoff r fs) in
  marksfile fs' = marksfile fs
  /\ ((logfile fs' = logfile fs
       /\ (logfile_old fs' = logfile_old fs \/ logfile_old fs' = None))
      \/ (logfile_old fs' = logfile fs
          /\ (exists content kept rest,
                 logfile fs = Some content /\ logfile fs' = Some kept
                 /\ content = kept +:+ rest)
          /\ logfile (restoreLog fs') = logfile fs
          /\ logfile_old (restoreLog fs') = None
          /\ marksfile (restoreLog fs') = marksfile fs)).
Proof.
  cbn zeta. unfold setupIncremental.
  destruct (logfile fs) as [content|] eqn:Hlog; [|cbn; rewrite Hlog; auto].
  destruct (lastValidMark (marksfile fs)) as [lvm ds].
  destruct (scan_log (Bytes.read_lines content) 0 cutoff lvm 0 (notes ds r))
    as [last_revnum r1|pos cutoff' r1].
  - cbn [snd]. destruct (last_revnum + 1 =? cutoff); cbn; rewrite ?Hlog; auto.
  - cbn [snd logfile logfile_old marksfile restoreLog].
    split; [reflexivity|]. right. split; [reflexivity|].
    split; [|repeat split].
    destruct (truncate_prefix pos content) as [rest Hrest].
    exists content, (Bytes.truncate pos content), rest. auto.
Qed.

(** ** What the marks-file reader returns *)

Lemma lastValidMark_loop_contiguous (lines : list string) : forall prev_mark,
  Forall (fun line => Bytes.isEmpty line = false) lines ->
  let m := fst (lastValidMark_loop lines prev_mark) in
  m = 0 \/ (prev_mark <= m
            /\ m - prev_mark <= Z.of_nat (length lines)
            /\ forall i : nat,
                 Z.of_nat i < m - prev_mark ->
                 exists line, lines !! i = Some line
                              /\ line_mark line = prev_mark + 1 + Z.of_nat i).
Proof.
  induction lines as [|line rest IH]; intros prev_mark Hne; cbn zeta.
  - cbn. right. split; [lia|]. split; [lia|]. intros i Hi. lia.
  - apply Forall_cons in Hne as [Hline Hrest].
    cbn [lastValidMark_loop]. rewrite Hline.
    destruct (Z.eqb_spec (line_mark line) 0); [left; reflexivity|].
    destruct (Z.eqb_spec (line_mark line) prev_mark); [left; reflexivity|].
    destruct (Z.ltb_spec (line_mark line) prev_mark); [left; reflexivity|].
    destruct (Z.ltb_spec (prev_mark + 1) (line_mark line)).
    + cbn. right. split; [lia|]. split; [lia|]. intros i Hi. lia.
    + assert (Hmark : line_mark line = prev_mark + 1) by lia.
      specialize (IH (line_mark line) Hrest). cbn zeta in IH.
      destruct IH as [Hz|(Hle & Hlen & Hlines)]; [left; exact Hz|].
      right. split; [lia|]. split; [cbn [length]; lia|].
      intros [|i] Hi.
      * exists line. split; [reflexivity|]. lia.
      * destruct (Hlines i ltac:(lia)) as (l & Hl & Hm).
        exists l. split; [exact Hl|]. lia.
Qed.

Lemma lastValidMark_loop_reports (lines : list string) : forall prev_mark,
  snd (lastValidMark_loop lines prev_mark) <> [] ->
  fst (lastValidMark_loop lines prev_mark) = 0.
Proof.
  induction lines as [|line rest IH]; intros prev; cbn.
  - congruence.
  - destruct (Bytes.isEmpty line); [apply IH|].
    destruct (_ =? 0); [reflexivity|].
    destruct (_ =? prev); [reflexivity|].
    destruct (_ <? prev); [reflexivity|].
    destruct (_ <? _); [cbn; congruence|apply IH].
Qed.

(** The loop of [lastValidMark], exactly: it passes over the longest run of
    lines that carry the next mark each, and then either the file ends or
    a mark further on follows, and the last mark of the run is returned
    without a report; or a line follows whose mark is not above the last
    one (0 for a line without a mark), and the result is 0 with one
    report. *)
Lemma lastValidMark_loop_exact (lines : list string) : forall prev_mark,
  0 <= prev_mark ->
  Forall (fun line => Bytes.isEmpty line = false) lines ->
  let m := fst (lastValidMark_loop lines prev_mark) in
  let reports := snd (lastValidMark_loop lines prev_mark) in
  exists k : nat,
    (forall i : nat, (i < k)%nat ->
       exists line, lines !! i = Some line
                    /\ line_mark line = prev_mark + Z.of_nat i + 1)
    /\ ((reports = [] /\ m = prev_mark + Z.of_nat k
         /\ (length lines = k
             \/ exists line, lines !! k = Some line
                             /\ prev_mark + Z.of_nat k + 1 < line_mark line))
        \/ ((exists msg, reports = [Critical msg]) /\ m = 0
            /\ exists line, lines !! k = Some line
                            /\ line_mark line <= prev_mark + Z.of_nat k)).
Proof.
  induction lines as [|line rest IH]; intros prev_mark Hp Hne; cbn zeta.
  - exists 0%nat. split; [intros i Hi; lia|]. left. cbn. split; [reflexivity|].
    split; [lia|]. left. reflexivity.
  - apply Forall_cons in Hne as [Hline Hrest].
    cbn [lastValidMark_loop]. rewrite Hline.
    destruct (Z.eqb_spec (line_mark line) 0) as [Hz|Hz].
    { exists 0%nat. split; [intros i Hi; lia|]. right. cbn.
      split; [eauto|]. split; [reflexivity|]. exists line. split; [reflexivity|lia]. }
    destruct (Z.eqb_spec (line_mark line) prev_mark) as [He|He].
    { exists 0%nat. split; [intros i Hi; lia|]. right. cbn.
      split; [eauto|]. split; [reflexivity|]. exists line. split; [reflexivity|lia]. }
    destruct (Z.ltb_spec (line_mark line) prev_mark) as [Hlt|Hge].
    { exists 0%nat. split; [intros i Hi; lia|]. right. cbn.
      split; [eauto|]. split; [reflexivity|]. exists line. split; [reflexivity|lia]. }
    destruct (Z.ltb_spec (prev_mark + 1) (line_mark line)) as [Hgap|Hnext].
    { exists 0%nat. split; [intros i Hi; lia|]. left. cbn.
      split; [reflexivity|]. split; [lia|]. right.
      exists line. split; [reflexivity|lia]. }
    assert (Hmark : line_mark line = prev_mark + 1) by lia.
    destruct (IH (line_mark line) ltac:(lia) Hrest) as (k & Hrun & Hend).
    exists (S k). split.
    + intros [|i] Hi.
      * exists line. split; [reflexivity|]. lia.
      * destruct (Hrun i ltac:(lia)) as (l & Hl & Hm).
        exists l. split; [exact Hl|]. lia.
    + destruct Hend as [(Hrep & Hm & Hstop)|(Hrep & Hm & l & Hl & Hbad)].
      * left. split; [exact Hrep|]. split; [lia|].
        destruct Hstop as [Hlen|(l & Hl & Hgap)].
        -- left. cbn [length]. lia.
        -- right. exists l. split; [exact Hl|]. lia.
      * right. split; [exact Hrep|]. split; [exact Hm|].
        exists l. split; [exact Hl|]. lia.
Qed.

(** X6. What [lastValidMark] returns.  For a missing marks file the result
    is 0, without a report.  The result is never negative, and when it is
    [m], the first [m] lines of the marks file carry the marks 1, 2, ...,
    [m] in this order; a report of a corrupt file always comes with the
    result 0.  The result is exact: with [k] the length of the longest run
    of lines from the top that carry the marks 1, 2, ..., [k], either the
    file ends there or the next line has a mark above [k + 1], and the
    result is [k] without a report; or the next line has a mark that is
    not above [k] (0 for a line without a mark), and the result is 0 with
    one report. *)
Theorem lastValidMark_contiguous (marks_content : option string) :
  let m := fst (lastValidMark marks_content) in
  let reports := snd (lastValidMark marks_content) in
  0 <= m
  /\ (forall content i,
         marks_content = Some content ->
         0 <= i < m ->
         exists line,
           Bytes.read_lines content !! Z.to_nat i = Some line
           /\ line_mark line = i + 1)
  /\ (reports <> [] -> m = 0)
  /\ (marks_content = None -> m = 0 /\ reports = [])
  /\ (forall content,
         marks_content = Some content ->
         let lines := Bytes.read_lines content in
         exists k : nat,
           (forall i : nat, (i < k)%nat ->
              exists line, lines !! i = Some line
                           /\ line_mark line = Z.of_nat i + 1)
           /\ ((reports = [] /\ m = Z.of_nat k
                /\ (length lines = k
                    \/ exists line, lines !! k = Some line
                                    /\ Z.of_nat k + 1 < line_mark line))
               \/ ((exists msg, reports = [Critical msg]) /\ m = 0
                   /\ exists line, lines !! k = Some line
                                   /\ line_mark line <= Z.of_nat k))).
Proof.
  cbn zeta. destruct marks_content as [content|].
  2:{ cbn. repeat split; try lia; try congruence. }
  cbn [lastValidMark].
  pose proof (lastValidMark_loop_contiguous (Bytes.read_lines content) 0
                (read_lines_nonempty content)) as H.
  cbn zeta in H.
  split; [destruct H as [->|(? & _)]; lia|].
  split.
  { intros content' i [= <-] Hi.
    destruct H as [Hz|(_ & _ & Hlines)]; [lia|].
    destruct (Hlines (Z.to_nat i) ltac:(lia)) as (line & Hl & Hm).
    exists line. split; [exact Hl|]. lia. }
  split; [apply lastValidMark_loop_reports|].
  split; [discriminate|].
  intros content' [= <-].
  exact (lastValidMark_loop_exact (Bytes.read_lines content) 0 ltac:(lia)
           (read_lines_nonempty content)).
Qed.

Lemma lastValidMark_contiguous_witness :
  exists line,
    Bytes.read_lines (unlines [":1 a"; ":2 b"; ":4 c"]) !! 1%nat = Some line
    /\ line_mark line = 2.
Proof.
  pose proof (lastValidMark_contiguous
                (Some (unlines [":1 a"; ":2 b"; ":4 c"]))) as H.
  cbn zeta in H. destruct H as (_ & Hlines & _).
  apply (Hlines (unlines [":1 a"; ":2 b"; ":4 c"]) 1 eq_refl).
  vm_compute. split; [intros Hc; discriminate Hc | reflexivity].
Defined.

(** ** Closing and restarting the importer *)



(** ** Annotated tags *)

Lemma mid_from_append (p s : string) :
  Bytes.mid_from (String.length p) (p +:+ s) = s.
Proof.
  induction p as [|c p IH]; [destruct s; reflexivity|].
  rewrite append_cons. exact IH.
Qed.

(** X8. Tags are kept under their name without a leading [refs/tags/]:
    a tag made from [refs/tags/<name>] is found under [<name>], and a later
    tag made from the bare [<name>] takes its place, with the bare name as
    its supporting ref.  Making a tag writes nothing to the importer and
    leaves the branches and the counters alone. *)
Theorem annotated_tag_replaced (r : Repo) (tagName p1 a1 l1 p2 a2 l2 : string)
    (n1 d1 n2 d2 : Z) :
  Bytes.startsWith "refs/tags/" tagName = false ->
  let r1 := createAnnotatedTag ("refs/tags/" +:+ tagName) p1 n1 a1 d1 l1 r in
  let r2 := createAnnotatedTag tagName p2 n2 a2 d2 l2 r1 in
  annotatedTags r1 !! tagName
  = Some {| supportingRef := "refs/tags/" +:+ tagName; tag_svnprefix := p1;
            tag_author := a1; tag_log := l1; dt := d1; tag_revnum := n1 |}
  /\ annotatedTags r2
     = <[tagName := {| supportingRef := tagName; tag_svnprefix := p2;
                       tag_author := a2; tag_log := l2; dt := d2;
                       tag_revnum := n2 |}]> (annotatedTags r)
  /\ wire r2 = wire r /\ diag r2 = diag r /\ branches r2 = branches r
  /\ commitCount r2 = commitCount r
  /\ last_commit_mark r2 = last_commit_mark r
  /\ next_file_mark r2 = next_file_mark r
  /\ running r2 = running r.
Proof.
  intros Hbare. cbn zeta. unfold createAnnotatedTag.
  rewrite Hbare.
  assert (Hfull : Bytes.startsWith "refs/tags/" ("refs/tags/" +:+ tagName) = true)
    by (destruct tagName; reflexivity).
  rewrite Hfull.
  assert (Hmid : Bytes.mid 10 (-1) ("refs/tags/" +:+ tagName) = tagName)
    by (exact (mid_from_append "refs/tags/" tagName)).
  rewrite Hmid. cbn [annotatedTags set_annotatedTags].
  split; [apply lookup_insert_eq|].
  split; [apply insert_insert_eq|].
  repeat split.
Qed.

Lemma annotated_tag_replaced_witness :
  annotatedTags
    (createAnnotatedTag "v1" "/t2" 7 "B" 20 "two"
       (createAnnotatedTag "refs/tags/v1" "/t1" 5 "A" 10 "one" fresh_repository))
  = <["v1" := {| supportingRef := "v1"; tag_svnprefix := "/t2";
                 tag_author := "B"; tag_log := "two"; dt := 20;
                 tag_revnum := 7 |}]> (annotatedTags fresh_repository).
Proof.
  apply (annotated_tag_replaced fresh_repository "v1" "/t1" "A" "one"
           "/t2" "B" "two" 5 10 7 20 eq_refl).
Defined.

(** X9. Without tags [finalizeTags] does nothing, and does not start the
    importer.  With tags it starts the importer and writes the block of
    every tag; the tags stay in the table, so that a second call writes
    the same blocks once more.  For a table with one tag, made from
    [refs/tags/<name>], the block is the [progress] line, [tag <name>],
    [from refs/tags/<name>], the tagger line, the length of the message
    and the message. *)
Theorem finalizeTags_stream (cfg : Config) (r : Repo) :
  (annotatedTags r = ∅ -> finalizeTags cfg r = Ok r)
  /\ (forall r1, annotatedTags r <> ∅ -> finalizeTags cfg r = Ok r1 ->
      exists r0 r2,
        startFastImport r = Ok r0
        /\ wire r1 = wire r0 +:+ tags_text cfg (annotatedTags r)
        /\ annotatedTags r1 = annotatedTags r
        /\ branches r1 = branches r
        /\ running r1 = true
        /\ finalizeTags cfg r1 = Ok r2
        /\ wire r2 = wire r1 +:+ tags_text cfg (annotatedTags r))
  /\ (forall name p a l n d,
      annotatedTags r = ∅ -> running r = true ->
      let ref := "refs/tags/" +:+ name in
      let message := commit_message cfg l p n in
      exists r1,
        finalizeTags cfg (createAnnotatedTag ref p n a d l r) = Ok r1
        /\ wire r1
           = wire r
             +:+ "progress Creating annotated tag " +:+ name
             +:+ " from ref " +:+ ref +:+ nl
             +:+ "tag " +:+ name +:+ nl
             +:+ "from " +:+ ref +:+ nl
             +:+ "tagger " +:+ a +:+ " " +:+ Bytes.number d +:+ " -0000" +:+ nl
             +:+ "data " +:+ Bytes.number (Bytes.len message) +:+ nl
             +:+ message +:+ nl).
Proof.
  split; [|split].
  - intros He. unfold finalizeTags. rewrite decide_True by assumption. reflexivity.
  - intros r1 Hne H. unfold finalizeTags in H.
    rewrite decide_False in H by assumption.
    bind_inv H. injection H as <-.
    destruct (startFastImport_frame _ _ E) as ((_ & _ & _ & _ & Htags) & Hbr & _ & Hrun).
    rewrite foldl_write. fold (tags_text cfg (annotatedTags a)).
    rewrite Htags.
    exists a. eexists. split; [reflexivity|].
    split; [reflexivity|]. split; [exact Htags|]. split; [exact Hbr|].
    split; [exact Hrun|].
    unfold finalizeTags. cbn [annotatedTags write].
    rewrite decide_False by (rewrite Htags; assumption).
    unfold startFastImport. cbn [running write]. rewrite Hrun.
    cbn [mbind result_bind]. rewrite foldl_write.
    cbn [annotatedTags write]. fold (tags_text cfg (annotatedTags a)).
    rewrite Htags. split; reflexivity.
  - intros name p a l n d He Hrun. cbn zeta.
    unfold finalizeTags, createAnnotatedTag.
    assert (Hfull : Bytes.startsWith "refs/tags/" ("refs/tags/" +:+ name) = true)
      by (destruct name; reflexivity).
    rewrite Hfull.
    assert (Hmid : Bytes.mid 10 (-1) ("refs/tags/" +:+ name) = name)
      by (exact (mid_from_append "refs/tags/" name)).
    rewrite Hmid, He. cbn [annotatedTags set_annotatedTags].
    rewrite decide_False by (apply insert_non_empty).
    unfold startFastImport. cbn [running set_annotatedTags]. rewrite Hrun.
    cbn [mbind result_bind annotatedTags]. rewrite foldl_write.
    eexists. split; [reflexivity|].
    rewrite insert_empty. cbn [annotatedTags set_annotatedTags]. rewrite map_to_list_singleton.
    cbn [foldr tag_text write wire set_annotatedTags supportingRef tag_log
         tag_svnprefix tag_revnum tag_author dt].
    assert (Href : to_branchRef ("refs/tags/" +:+ name) = "refs/tags/" +:+ name).
    { unfold to_branchRef.
      assert (Hs : Bytes.startsWith "refs/" ("refs/tags/" +:+ name) = true)
        by (destruct name; reflexivity).
      rewrite Hs. reflexivity. }
    rewrite Href, append_empty_r, !append_assoc. reflexivity.
Qed.

Lemma finalizeTags_stream_witness :
  exists r1,
    finalizeTags default_config
      (createAnnotatedTag "refs/tags/v1" "/t" 5 "A <a@x>" 1000 "release"
         (set_process true true fresh_repository)) = Ok r1
    /\ wire r1
       = unlines ["progress Creating annotated tag v1 from ref refs/tags/v1";
                  "tag v1"; "from refs/tags/v1"; "tagger A <a@x> 1000 -0000";
                  "data 8"; "release"] +:+ nl.
Proof.
  destruct (finalizeTags_stream default_config
              (set_process true true fresh_repository)) as (_ & _ & H).
  destruct (H "v1" "/t" "A <a@x>" "release" 5 1000 eq_refl eq_refl)
    as (r1 & Hfin & Hwire).
  exists r1. split; [exact Hfin|]. rewrite Hwire. reflexivity.
Defined.

(** ** The merge points of a transaction *)

Lemma br_at_touch (k b : string) (bs : gmap string Branch) :
  br_at b (touch_branch k bs) = br_at b bs.
Proof.
  unfold br_at, touch_branch. destruct (bs !! k) eqn:Hk; [reflexivity|].
  destruct (decide (k = b)) as [<-|Hne].
  - rewrite lookup_insert_eq, Hk. reflexivity.
  - rewrite lookup_insert_ne by assumption. reflexivity.
Qed.

Lemma vlast_inv (v : list Z) (x : Z) : vlast v = Ok x -> last v = Some x.
Proof. unfold vlast. destruct (last v); [intros [= <-]; reflexivity|discriminate]. Qed.

Lemma vat_inv (v : list Z) (i x : Z) : vat v i = Ok x -> x ∈ v.
Proof.
  unfold vat. destruct (0 <=? i); [|discriminate].
  destruct (v !! Z.to_nat i) eqn:Hl; [|discriminate].
  intros [= <-]. eapply list_elem_of_lookup_2. exact Hl.
Qed.

Lemma last_elem_of (v : list Z) (x : Z) : last v = Some x -> x ∈ v.
Proof.
  rewrite last_lookup. apply list_elem_of_lookup_2.
Qed.

(** What [markFrom] returns is -1, 0 or a mark of the source branch. *)
Lemma markFrom_mark branchFrom n desc r mark desc' r' :
  markFrom branchFrom n desc r = Ok (mark, desc', r') ->
  mark = -1 \/ mark = 0 \/ mark ∈ marks (br_at branchFrom (branches r)).
Proof.
  unfold markFrom. intros H.
  destruct (created _ =? 0); [left; congruence|].
  destruct (commits _); [left; congruence|].
  bind_inv H. destruct (n =? _).
  - bind_inv H. injection H as <- _ _. right. right.
    apply last_elem_of, vlast_inv. exact E0.
  - destruct (_ =? 0); [right; left; congruence|].
    bind_inv H. bind_inv H. injection H as <- _ _. right. right.
    eapply vat_inv. exact E1.
Qed.

Lemma contains_Z_false (x : Z) (l : list Z) : contains_Z x l = false -> x ∉ l.
Proof.
  unfold contains_Z. intros H Hin.
  apply not_true_iff_false in H. apply H.
  apply existsb_exists. exists x. split; [|apply Z.eqb_refl].
  apply list_elem_of_In. exact Hin.
Qed.

Lemma noteCopyFromBranch_merges branchFrom n t r r' t' :
  noteCopyFromBranch branchFrom n t r = Ok (r', t') ->
  branch t' = branch t
  /\ (merges t' = merges t
      \/ exists mark,
           merges t' = (merges t ++ [mark])%list
           /\ (mark ∉ merges t) /\ mark <> 0 /\ mark <> -1
           /\ branchFrom <> branch t
           /\ mark ∈ marks (br_at branchFrom (branches r))).
Proof.
  unfold noteCopyFromBranch.
  destruct (String.eqb_spec (branch t) branchFrom) as [|Hne].
  { intros [= _ <-]. auto. }
  intros H. bind_inv H. destruct a as [[mark dummy] r1].
  apply markFrom_mark in E. bind_inv H.
  destruct (Z.eqb_spec mark (-1)); [injection H as _ <-; auto|].
  destruct (Z.eqb_spec mark 0); [injection H as _ <-; auto|].
  destruct (contains_Z mark (merges t)) eqn:Hc; injection H as _ <-; [auto|].
  split; [reflexivity|]. right. exists mark. cbn.
  split; [reflexivity|]. split; [apply contains_Z_false; exact Hc|].
  repeat split; try assumption; [congruence|].
  destruct E as [|[|]]; [contradiction..|assumption].
Qed.

(** The merge points after one call on a transaction. *)
Lemma run_txn_op_merges cfg op t r r' t' :
  run_txn_op cfg op t r = Ok (r', t') ->
  branch t' = branch t
  /\ (forall b, marks (br_at b (branches r')) = marks (br_at b (branches r)))
  /\ (merges t' = merges t
      \/ exists mark from,
           merges t' = (merges t ++ [mark])%list
           /\ (mark ∉ merges t) /\ mark <> 0 /\ mark <> -1
           /\ from <> branch t
           /\ mark ∈ marks (br_at from (branches r))).
Proof.
  destruct op; cbn [run_txn_op]; intros H.
  - injection H as <- <-. auto.
  - injection H as <- <-. auto.
  - injection H as <- <-. auto.
  - pose proof (noteCopyFromBranch_merges _ _ _ _ _ _ H) as [Hb Hm].
    apply noteCopyFromBranch_inv in H as (_ & _ & _ & _ & _ & Hbr).
    split; [exact Hb|]. split.
    + intros b. rewrite Hbr. destruct (String.eqb _ _); [reflexivity|].
      rewrite br_at_touch. reflexivity.
    + destruct Hm as [|(mark & Hm)]; [auto|]. right. exists mark, branchFrom. exact Hm.
  - injection H as <- <-. auto.
  - bind_inv H. destruct a as [r1 t1]. injection H as <- <-.
    assert (Ht : branch t1 = branch t /\ merges t1 = merges t).
    { revert E. unfold addFile. destruct (Q_ASSERT _ _); [|discriminate].
      cbn [mbind result_bind]. intros [= _ <-]. auto. }
    apply addFile_inv in E as (_ & _ & _ & _ & _ & _ & Hbr & _).
    destruct Ht as [Hb Hm]. cbn [sink_write write branches].
    rewrite Hbr. auto.
Qed.

(** X10. The merge points that the calls on a new transaction record, in
    whatever order [noteCopyFromBranch] is mixed with the other calls: no
    mark is recorded twice, none is 0 or -1, and each one is a mark that
    the registry holds for a branch other than the transaction's own. *)
Theorem merge_points_distinct (cfg : Config) (ops : list TxnOp)
    (b p : string) (n : Z) (r r' : Repo) (t' : Transaction) :
  run_txn cfg ops (new_txn b p n) r = Ok (r', t') ->
  NoDup (merges t')
  /\ forall m, m ∈ merges t' ->
       m <> 0 /\ m <> -1
       /\ exists from, from <> b /\ m ∈ marks (br_at from (branches r)).
Proof.
  assert (Hgen : forall ops t r r' t',
    run_txn cfg ops t r = Ok (r', t') ->
    forall b0 (bs : Repo),
    branch t = b0 ->
    (forall k, marks (br_at k (branches r)) = marks (br_at k (branches bs))) ->
    NoDup (merges t)
    /\ (forall m, m ∈ merges t ->
          m <> 0 /\ m <> -1
          /\ exists from, from <> b0 /\ m ∈ marks (br_at from (branches bs))) ->
    NoDup (merges t')
    /\ (forall m, m ∈ merges t' ->
          m <> 0 /\ m <> -1
          /\ exists from, from <> b0 /\ m ∈ marks (br_at from (branches bs)))).
  { clear. intros ops. induction ops as [|op rest IH]; intros t r r' t' H b0 bs Hb Hbr Hinv.
    - injection H as _ <-. exact Hinv.
    - cbn [run_txn] in H. bind_inv H. destruct a as [r1 t1].
      apply run_txn_op_merges in E as (Hb1 & Hbr1 & Hm1).
      apply (IH _ _ _ _ H b0 bs); [congruence|intros k; rewrite Hbr1; apply Hbr|].
      destruct Hinv as [Hnd Hall].
      destruct Hm1 as [->|(mark & from & -> & Hnotin & Hz & Hm & Hfrom & Hin)];
        [auto|].
      split.
      + apply NoDup_app. split; [exact Hnd|]. split; [|apply NoDup_singleton].
        intros x Hx Hx'. apply list_elem_of_singleton in Hx'. subst x. contradiction.
      + intros m Hmem. apply elem_of_app in Hmem as [Hmem|Hmem]; [auto|].
        apply list_elem_of_singleton in Hmem. subst m.
        repeat split; try assumption. exists from. split; [congruence|].
        rewrite <- Hbr. exact Hin. }
  intros H. apply (Hgen _ _ _ _ _ H b r); [reflexivity|reflexivity|].
  cbn. split; [apply NoDup_nil_2|]. intros m Hm. inversion Hm.
Qed.

Lemma merge_points_distinct_witness :
  exists r' t',
    run_txn default_config
      [TNoteCopyFromBranch "b" 4; TSetLog "merge"; TNoteCopyFromBranch "b" 4;
       TNoteCopyFromBranch "master" 4; TNoteCopyFromBranch "nowhere" 1]
      (new_txn "master" "/p" 9) repository_S4 = Ok (r', t')
    /\ merges t' = [2] /\ NoDup (merges t').
Proof.
  destruct (run_txn default_config
      [TNoteCopyFromBranch "b" 4; TSetLog "merge"; TNoteCopyFromBranch "b" 4;
       TNoteCopyFromBranch "master" 4; TNoteCopyFromBranch "nowhere" 1]
      (new_txn "master" "/p" 9) repository_S4) as [[r' t']|f] eqn:E;
    [|vm_compute in E; discriminate E].
  exists r', t'. split; [reflexivity|]. split.
  - vm_compute in E. injection E as _ <-. reflexivity.
  - exact (proj1 (merge_points_distinct _ _ _ _ _ _ _ _ E)).
Defined.

(** ** Deleted paths *)

Lemma endsWith_char_chop (c : ascii) (s : string) :
  Bytes.endsWith_char c s = true ->
  s = substring 0 (String.length s - 1) s +:+ String c EmptyString.
Proof.
  induction s as [|d s IH]; [discriminate|].
  destruct s as [|e s].
  - cbn. intros H. apply Ascii.eqb_eq in H. subst d. reflexivity.
  - intros H. change (Bytes.endsWith_char c (String e s) = true) in H.
    specialize (IH H).
    replace (String.length (String d (String e s)) - 1)%nat
      with (S (String.length (String e s) - 1))%nat by (cbn; lia).
    cbn [substring]. rewrite append_cons. f_equal. exact IH.
Qed.

Lemma pathNoSlash_spec (path : string) :
  (path = pathNoSlash path /\ Bytes.endsWith_char "/" path = false)
  \/ path = pathNoSlash path +:+ "/".
Proof.
  unfold pathNoSlash. destruct (Bytes.endsWith_char "/" path) eqn:He; [right|left; auto].
  unfold Bytes.truncate, Bytes.len.
  replace (Z.to_nat (Z.of_nat (String.length path) - 1))
    with (String.length path - 1)%nat by lia.
  apply endsWith_char_chop. exact He.
Qed.

Lemma pathNoSlash_empty (path : string) :
  pathNoSlash path = EmptyString <-> path = EmptyString \/ path = "/".
Proof.
  destruct (pathNoSlash_spec path) as [[Hp He]|Hp].
  - rewrite <- Hp. split; [auto|]. intros [H|H]; [exact H|].
    rewrite H in He. discriminate He.
  - split.
    + intros H. rewrite H in Hp. right. exact Hp.
    + intros [->| ->]; reflexivity.
Qed.

Lemma run_txn_op_deletedFiles cfg op t r r' t' :
  run_txn_op cfg op t r = Ok (r', t') ->
  deletedFiles t' = (deletedFiles t ++ map pathNoSlash (deleted_paths [op]))%list.
Proof.
  destruct op; cbn [run_txn_op deleted_paths flat_map map app]; intros H;
    rewrite ?app_nil_r.
  - injection H as _ <-. reflexivity.
  - injection H as _ <-. reflexivity.
  - injection H as _ <-. reflexivity.
  - revert H. unfold noteCopyFromBranch.
    destruct (String.eqb _ _); [intros [= _ <-]; reflexivity|].
    intros H. bind_inv H. destruct a as [[mark dummy] r1]. bind_inv H.
    destruct (mark =? -1); [injection H as _ <-; reflexivity|].
    destruct (mark =? 0); [injection H as _ <-; reflexivity|].
    destruct (contains_Z _ _); injection H as _ <-; reflexivity.
  - injection H as _ <-. reflexivity.
  - bind_inv H. destruct a as [r1 t1]. injection H as _ <-.
    revert E. unfold addFile. destruct (Q_ASSERT _ _); [|discriminate].
    cbn [mbind result_bind]. intros [= _ <-]. reflexivity.
Qed.

Lemma run_txn_deletedFiles cfg ops : forall t r r' t',
  run_txn cfg ops t r = Ok (r', t') ->
  deletedFiles t' = (deletedFiles t ++ map pathNoSlash (deleted_paths ops))%list.
Proof.
  induction ops as [|op rest IH]; intros t r r' t' H.
  - injection H as _ <-. cbn. rewrite app_nil_r. reflexivity.
  - cbn [run_txn] in H. bind_inv H. destruct a as [r1 t1].
    apply run_txn_op_deletedFiles in E. apply IH in H.
    rewrite H, E, <- app_assoc, <- map_app. f_equal. f_equal.
    unfold deleted_paths. cbn [flat_map]. rewrite app_nil_r. reflexivity.
Qed.

Lemma contains_string_elem (x : string) (l : list string) :
  contains_string x l = true <-> x ∈ l.
Proof.
  unfold contains_string. rewrite existsb_exists. split.
  - intros (y & Hy & He). apply String.eqb_eq in He. subst y.
    apply list_elem_of_In. exact Hy.
  - intros H. exists x. split; [apply list_elem_of_In; exact H|apply String.eqb_refl].
Qed.

Lemma D_lines_not_deleteall (ds : list string) :
  foldr (fun df acc => "D " +:+ df +:+ nl +:+ acc) EmptyString ds
  <> "deleteall" +:+ nl.
Proof. destruct ds; discriminate. Qed.

(** X11. What a commit writes for the deletions of a new transaction.
    [deleteFile] records every path without one final slash.  If one of
    the paths was empty or the lone slash, the commit writes [deleteall]
    and no [D] line at all, whichever other paths were deleted; otherwise
    it writes one [D] line per call, in the order of the calls. *)
Theorem deleteall_iff_root (cfg : Config) (ops : list TxnOp) (b p : string) (n : Z)
    (r r' : Repo) (t' : Transaction) :
  run_txn cfg ops (new_txn b p n) r = Ok (r', t') ->
  deletedFiles t' = map pathNoSlash (deleted_paths ops)
  /\ Forall (fun path =>
               (path = pathNoSlash path /\ Bytes.endsWith_char "/" path = false)
               \/ path = pathNoSlash path +:+ "/") (deleted_paths ops)
  /\ (deletion_lines (deletedFiles t') = "deleteall" +:+ nl
      <-> EmptyString ∈ deleted_paths ops \/ "/" ∈ deleted_paths ops)
  /\ (deletion_lines (deletedFiles t') <> "deleteall" +:+ nl ->
      deletion_lines (deletedFiles t')
      = foldr (fun path acc => "D " +:+ pathNoSlash path +:+ nl +:+ acc)
          EmptyString (deleted_paths ops)).
Proof.
  intros H. apply run_txn_deletedFiles in H. cbn [new_txn deletedFiles app] in H.
  split; [exact H|]. split.
  { apply Forall_forall. intros path _. apply pathNoSlash_spec. }
  rewrite H. unfold deletion_lines.
  assert (Hroot : contains_string EmptyString (map pathNoSlash (deleted_paths ops)) = true
                  <-> EmptyString ∈ deleted_paths ops \/ "/" ∈ deleted_paths ops).
  { rewrite contains_string_elem, list_elem_of_fmap. split.
    - intros (path & Hp & Hin). symmetry in Hp.
      apply pathNoSlash_empty in Hp as [->| ->]; auto.
    - intros [Hin|Hin]; [exists EmptyString|exists "/"]; split;
        first [reflexivity|exact Hin]. }
  destruct (contains_string EmptyString (map pathNoSlash (deleted_paths ops))) eqn:Hc.
  - split; [|intros Hne; contradiction Hne; reflexivity].
    split; [intros _; apply Hroot; reflexivity|reflexivity].
  - split.
    + split.
      * intros Hd. contradiction (D_lines_not_deleteall _ Hd).
      * intros Hr. apply Hroot in Hr. discriminate Hr.
    + intros _. clear. induction (deleted_paths ops) as [|x xs IH]; [reflexivity|].
      cbn [map foldr]. rewrite IH. reflexivity.
Qed.

Lemma deleteall_iff_root_witness :
  exists r' t',
    run_txn default_config [TDeleteFile "a/"; TDeleteFile "/"; TDeleteFile "b"]
      (new_txn "master" "/p" 9) fresh_repository = Ok (r', t')
    /\ deletedFiles t' = ["a"; EmptyString; "b"]
    /\ deletion_lines (deletedFiles t') = "deleteall" +:+ nl.
Proof.
  destruct (run_txn default_config [TDeleteFile "a/"; TDeleteFile "/"; TDeleteFile "b"]
      (new_txn "master" "/p" 9) fresh_repository) as [[r' t']|f] eqn:E;
    [|vm_compute in E; discriminate E].
  exists r', t'. split; [reflexivity|].
  destruct (deleteall_iff_root _ _ _ _ _ _ _ _ E) as (Hd & _ & Hall & _).
  split; [rewrite Hd; reflexivity|].
  apply Hall. right. cbn. apply list_elem_of_further, list_elem_of_here.
Defined.

(** ** Looking up what was just recorded *)

Lemma set_branches_id (r : Repo) : set_branches (branches r) r = r.
Proof. destruct r. reflexivity. Qed.

Lemma touch_branch_present (k : string) (bs : gmap string Branch) (b : Branch) :
  bs !! k = Some b -> touch_branch k bs = bs.
Proof. unfold touch_branch. intros ->. reflexivity. Qed.

Lemma br_at_present (k : string) (bs : gmap string Branch) (b : Branch) :
  bs !! k = Some b -> br_at k bs = b.
Proof. unfold br_at. intros ->. reflexivity. Qed.

(** [markFrom] on a branch whose last entry is the revision asked for. *)
Lemma markFrom_last (k : string) (r : Repo) (b : Branch) (cs ms : list Z)
    (revnum mark : Z) (desc : string) :
  branches r !! k = Some b ->
  commits b = (cs ++ [revnum])%list -> marks b = (ms ++ [mark])%list ->
  markFrom k revnum desc r
  = Ok (if created b =? 0 then -1 else mark, desc, r).
Proof.
  intros Hk Hcs Hms. unfold markFrom.
  rewrite (touch_branch_present _ _ _ Hk), set_branches_id, (br_at_present _ _ _ Hk).
  destruct (created b =? 0); [reflexivity|].
  rewrite Hcs, Hms.
  destruct (cs ++ [revnum])%list eqn:Hnil; [destruct cs; discriminate Hnil|].
  rewrite <- Hnil.
  rewrite (vlast_Some (cs ++ [revnum]) revnum) by apply last_snoc.
  cbn [mbind result_bind]. rewrite Z.eqb_refl.
  rewrite (vlast_Some (ms ++ [mark]) mark) by apply last_snoc.
  reflexivity.
Qed.

Lemma commit_branch cfg t r r' :
  commit cfg t r = Ok r' ->
  let br := br_at (branch t) (branches r) in
  branches r' !! branch t
  = Some {| created := if (negb (created br =? 0)
                           && negb (match marks br with [] => true | _ => false end))%bool
                       then created br else revnum t;
            commits := commits br ++ [revnum t];
            marks := marks br ++ [last_commit_mark r + 1] |}.
Proof.
  unfold commit. cbn [set_last_commit_mark next_file_mark branches].
  intros H. cbn zeta.
  destruct (Q_ASSERT _ _); [|discriminate H].
  cbn [mbind result_bind] in H.
  set (br := br_at (branch t) (branches r)) in *.
  destruct (negb (created br =? 0)
            && negb (match marks br with [] => true | _ => false end))%bool eqn:Hexists.
  - destruct (marks br) as [|m0 mks] eqn:Hmarks;
      [rewrite andb_false_r in Hexists; discriminate Hexists|].
    destruct (vlast_cons m0 mks) as (pm & Hv & Hl).
    rewrite Hv in H. cbn [mbind result_bind] in H.
    destruct (merge_loop pm (if pm =? 0 then 0 else 1) (merges t)) as [ms ds].
    injection H as <-. cbn. apply lookup_insert_eq.
  - cbn [mbind result_bind] in H.
    destruct (merge_loop 0 (if 0 =? 0 then 0 else 1) (merges t)) as [ms ds].
    injection H as <-. cbn. apply lookup_insert_eq.
Qed.

(** X12. A commit can be looked up right away.  After [commit()] of a
    transaction at a revision other than 0, [markFrom] for the branch and
    the revision of the transaction returns the mark of the new commit and
    changes nothing, and the new commit is the parent of the next commit on
    the branch.  At revision 0 on a branch that did not exist, the branch
    still counts as not created, and [markFrom] returns -1. *)
Theorem commit_then_markFrom (cfg : Config) (t : Transaction) (r r' : Repo)
    (desc : string) :
  commit cfg t r = Ok r' ->
  (revnum t <> 0 ->
   markFrom (branch t) (revnum t) desc r' = Ok (last_commit_mark r + 1, desc, r')
   /\ forall t2, branch t2 = branch t -> parent_mark t2 r' = last_commit_mark r + 1)
  /\ (revnum t = 0 ->
      created (br_at (branch t) (branches r)) = 0
      \/ marks (br_at (branch t) (branches r)) = [] ->
      markFrom (branch t) (revnum t) desc r' = Ok (-1, desc, r')).
Proof.
  intros H. pose proof (commit_branch _ _ _ _ H) as Hbr. cbn zeta in Hbr.
  set (br := br_at (branch t) (branches r)) in *.
  split.
  - intros Hrev.
    assert (Hcr : (if (negb (created br =? 0)
                       && negb (match marks br with [] => true | _ => false end))%bool
                   then created br else revnum t) <> 0).
    { destruct (Z.eqb_spec (created br) 0); cbn; [exact Hrev|].
      destruct (marks br); cbn; assumption. }
    split.
    + rewrite (markFrom_last _ _ _ _ _ _ _ desc Hbr eq_refl eq_refl).
      cbn [created]. apply Z.eqb_neq in Hcr. rewrite Hcr. reflexivity.
    + intros t2 Ht2. unfold parent_mark. rewrite Ht2, (br_at_present _ _ _ Hbr).
      cbn [created marks]. apply Z.eqb_neq in Hcr. rewrite Hcr.
      destruct (marks br ++ [last_commit_mark r + 1])%list eqn:Hnil;
        [destruct (marks br); discriminate Hnil|].
      rewrite <- Hnil, last_snoc. reflexivity.
  - intros Hrev Hnone.
    rewrite (markFrom_last _ _ _ _ _ _ _ desc Hbr eq_refl eq_refl).
    cbn [created].
    assert (Hex : (negb (created br =? 0)
                   && negb (match marks br with [] => true | _ => false end))%bool = false).
    { destruct Hnone as [->| ->]; [reflexivity|apply andb_false_r]. }
    rewrite Hex, Hrev. reflexivity.
Qed.

Lemma commit_then_markFrom_witness :
  exists r',
    commit default_config transaction_S4 repository_S4 = Ok r'
    /\ markFrom "b" 9 EmptyString r' = Ok (6, EmptyString, r').
Proof.
  destruct (commit default_config transaction_S4 repository_S4) as [r'|f] eqn:E;
    [|vm_compute in E; discriminate E].
  exists r'. split; [reflexivity|].
  destruct (commit_then_markFrom _ _ _ _ EmptyString E) as [H _].
  apply H. cbn. discriminate.
Defined.

(** X13. A deleted branch is dead until something is committed to it.
    After [deleteBranch] the branch ends with the mark 0: [markFrom] at the
    revision of the deletion returns 0 (-1 for a deletion at revision 0,
    which leaves the branch not created) and changes nothing, a restart of
    the importer does not reset the branch, and the next commit on the
    branch has no parent.  The other branches are as before. *)
Theorem deleteBranch_then_lookup (b : string) (n : Z) (r r' : Repo) (status : Z)
    (desc : string) :
  deleteBranch b n r = Ok (status, r') ->
  status = EXIT_SUCCESS
  /\ markFrom b n desc r' = Ok (if n =? 0 then -1 else 0, desc, r')
  /\ reload_one (b, br_at b (branches r')) = EmptyString
  /\ (forall t, branch t = b -> parent_mark t r' = 0)
  /\ (forall k, k <> b -> branches r' !! k = branches r !! k).
Proof.
  intros H.
  assert (Hst : status = EXIT_SUCCESS).
  { revert H. unfold deleteBranch. intros H. bind_inv H.
    apply resetBranch_inv in H as (-> & _). reflexivity. }
  apply deleteBranch_inv in H as (_ & Hbr).
  assert (Hb : branches r' !! b
               = Some {| created := n;
                         commits := commits (br_at b (branches r)) ++ [n];
                         marks := marks (br_at b (branches r)) ++ [0] |})
    by (rewrite Hbr; apply lookup_insert_eq).
  split; [exact Hst|]. split.
  { rewrite (markFrom_last _ _ _ _ _ _ _ desc Hb eq_refl eq_refl). reflexivity. }
  split.
  { rewrite (br_at_present _ _ _ Hb). unfold reload_one. cbn [marks].
    rewrite last_snoc. reflexivity. }
  split.
  { intros t Ht. unfold parent_mark. rewrite Ht, (br_at_present _ _ _ Hb).
    cbn [created marks]. rewrite last_snoc.
    destruct (_ && _)%bool; reflexivity. }
  intros k Hk. rewrite Hbr. apply lookup_insert_ne. congruence.
Qed.

Lemma deleteBranch_then_lookup_witness :
  exists r',
    deleteBranch "b" 7 repository_S4 = Ok (EXIT_SUCCESS, r')
    /\ markFrom "b" 7 EmptyString r' = Ok (0, EmptyString, r').
Proof.
  destruct (deleteBranch "b" 7 repository_S4) as [[status r']|f] eqn:E;
    [|vm_compute in E; discriminate E].
  destruct (deleteBranch_then_lookup _ _ _ _ _ EmptyString E) as (-> & H & _).
  exists r'. split; [reflexivity|exact H].
Defined.

(** ** Which calls can abort in a reachable state *)

Lemma only_master_unmarked_insert (bs : gmap string Branch) (k : string) (br : Branch) :
  only_master_unmarked bs -> marks br <> [] ->
  only_master_unmarked (<[k := br]> bs).
Proof.
  intros Hbs Hm k' b. destruct (decide (k = k')) as [<-|Hne].
  - rewrite lookup_insert_eq. intros [= <-] Hnil. contradiction.
  - rewrite lookup_insert_ne by assumption. apply Hbs.
Qed.

Lemma only_master_unmarked_touch (bs : gmap string Branch) (k : string) :
  only_master_unmarked bs -> only_master_unmarked (touch_branch k bs).
Proof.
  intros Hbs. unfold touch_branch. destruct (bs !! k) eqn:Hk; [exact Hbs|].
  intros k' b. destruct (decide (k = k')) as [<-|Hne].
  - rewrite lookup_insert_eq. intros [= <-] _. left. reflexivity.
  - rewrite lookup_insert_ne by assumption. apply Hbs.
Qed.

Lemma snoc_not_nil {A} (l : list A) (x : A) : (l ++ [x])%list <> [].
Proof. destruct l; discriminate. Qed.

Lemma new_repository_only_master_unmarked rule_name rule_branches :
  only_master_unmarked (branches (new_repository rule_name rule_branches)).
Proof.
  unfold new_repository. cbn [branches].
  set (bs := foldl _ _ _).
  assert (Hbs : forall k b, bs !! k = Some b -> b = default_Branch).
  { apply foldl_insert_default. intros k b. rewrite lookup_empty. discriminate. }
  intros k b. destruct (decide ("master" = k)) as [<-|Hne].
  - rewrite lookup_insert_eq. intros [= <-] _. right. split; reflexivity.
  - rewrite lookup_insert_ne by assumption. intros Hk _.
    rewrite (Hbs _ _ Hk). left. reflexivity.
Qed.

Lemma scan_log_registry lines : forall pos cutoff lvm last_revnum r,
  let r' := scan_repo (scan_log lines pos cutoff lvm last_revnum r) in
  running r' = running r
  /\ processHasStarted r' = processHasStarted r
  /\ (only_master_unmarked (branches r) -> only_master_unmarked (branches r')).
Proof.
  induction lines as [|raw rest IH]; intros pos cutoff lvm last_revnum r; cbn zeta.
  { cbn. auto. }
  cbn [scan_log].
  destruct (log_entry raw) as [[[revnum branch] mark]|]; [|apply IH].
  destruct (cutoff <=? revnum); [cbn; auto|].
  set (r1 := if revnum <? last_revnum
             then note (Warning "revision numbers are not monotonic") r else r).
  assert (H1 : running r1 = running r
               /\ processHasStarted r1 = processHasStarted r
               /\ branches r1 = branches r).
  { subst r1. destruct (revnum <? last_revnum); cbn; auto. }
  destruct H1 as (Hrun & Hps & Hbr).
  destruct (lvm <? mark).
  { cbn. rewrite Hbr. auto. }
  set (r2 := if last_commit_mark r1 <? mark then set_last_commit_mark mark r1 else r1).
  assert (H2 : running r2 = running r
               /\ processHasStarted r2 = processHasStarted r
               /\ branches r2 = branches r).
  { subst r2. destruct (last_commit_mark r1 <? mark); cbn; auto. }
  destruct H2 as (Hrun2 & Hps2 & Hbr2).
  match goal with
  | |- context [scan_log rest ?p ?c ?l ?lr ?rr] =>
      specialize (IH p c l lr rr); cbn zeta in IH;
      destruct IH as (I1 & I2 & I3)
  end.
  cbn in I1, I2.
  split; [congruence|]. split; [congruence|].
  intros Homu. apply I3. cbn [branches set_branches]. rewrite Hbr2.
  apply only_master_unmarked_insert; [exact Homu|apply snoc_not_nil].
Qed.

Lemma setupIncremental_registry cutoff r fs :
  let r' := snd (fst (setupIncremental cutoff r fs)) in
  running r' = running r
  /\ processHasStarted r' = processHasStarted r
  /\ (only_master_unmarked (branches r) -> only_master_unmarked (branches r')).
Proof.
  unfold setupIncremental. destruct (logfile fs) as [content|]; [|cbn; auto].
  destruct (lastValidMark (marksfile fs)) as [lvm ds].
  pose proof (scan_log_registry (Bytes.read_lines content) 0 cutoff lvm 0 (notes ds r))
    as (H1 & H2 & H3).
  cbn zeta in *.
  destruct (scan_log (Bytes.read_lines content) 0 cutoff lvm 0 (notes ds r));
    cbn in *; auto.
Qed.

Lemma startFastImport_aborts_iff r :
  (exists f, startFastImport r = Abort f) <-> crashed r.
Proof.
  unfold crashed, startFastImport.
  destruct (running r); [split; [intros [f Hf]; discriminate Hf|intros [Hr _]; discriminate Hr]|].
  destruct (processHasStarted r).
  - split; [auto|eauto].
  - split; [intros [f Hf]; discriminate Hf|intros [_ Hp]; discriminate Hp].
Qed.

Lemma crashed_dec r : crashed r \/ ~ crashed r.
Proof.
  unfold crashed. destruct (running r), (processHasStarted r); intuition congruence.
Qed.

Lemma startFastImport_not_crashed r :
  ~ crashed r -> exists r0, startFastImport r = Ok r0.
Proof.
  intros Hnc. destruct (startFastImport r) as [r0|f] eqn:E; [eauto|].
  contradiction Hnc. apply startFastImport_aborts_iff. eauto.
Qed.

Lemma run_op_only_master_unmarked cfg op r r' :
  run_op cfg op r = Ok r' ->
  only_master_unmarked (branches r) -> only_master_unmarked (branches r').
Proof.
  intros H Hm. destruct op; cbn [run_op] in H.
  - bind_inv H. destruct a as [r1 t]. injection H as <-.
    apply newTransaction_inv in E as (r0 & _ & _ & _ & _ & _ & _ & _ & Hbr & _).
    rewrite Hbr. exact Hm.
  - bind_inv H. destruct a as [r1 t1]. injection H as <-.
    apply addFile_inv in E as (_ & _ & _ & _ & _ & _ & Hbr & _).
    rewrite Hbr. exact Hm.
  - injection H as <-. exact Hm.
  - bind_inv H. destruct a as [r1 t1]. injection H as <-.
    apply noteCopyFromBranch_inv in E as (_ & _ & _ & _ & _ & Hbr).
    rewrite Hbr. destruct (String.eqb (branch t) branchFrom); [exact Hm|].
    apply only_master_unmarked_touch. exact Hm.
  - apply commit_inv in H as (_ & _ & _ & _ & _ & _ & [cr Hbr] & _).
    rewrite Hbr. apply only_master_unmarked_insert; [exact Hm|apply snoc_not_nil].
  - injection H as <-. unfold forgetTransaction. destruct (_ =? 0); exact Hm.
  - bind_inv H. destruct a as [st r1]. injection H as <-.
    apply createBranch_inv in E as (_ & _ & [[_ Hbr]|[_ [mark Hbr]]]); rewrite Hbr.
    + apply only_master_unmarked_touch. exact Hm.
    + apply only_master_unmarked_insert; [|apply snoc_not_nil].
      apply only_master_unmarked_touch. exact Hm.
  - bind_inv H. destruct a as [st r1]. injection H as <-.
    apply deleteBranch_inv in E as (_ & Hbr). rewrite Hbr.
    apply only_master_unmarked_insert; [exact Hm|apply snoc_not_nil].
  - injection H as <-. exact Hm.
  - apply finalizeTags_frame in H as (_ & Hbr). rewrite Hbr. exact Hm.
  - pose proof (setupIncremental_registry cutoff r fs) as (_ & _ & Hp).
    destruct (setupIncremental cutoff r fs) as [[[ret cutoff'] r1] fs'].
    injection H as <-. exact (Hp Hm).
  - injection H as <-. unfold closeFastImport. destruct child, (running r); exact Hm.
Qed.

Lemma reachable_registry cfg r :
  reachable cfg r -> only_master_unmarked (branches r).
Proof.
  induction 1 as [rule_name rule_branches|op r r' _ IH Hstep|r _ IH _].
  - apply new_repository_only_master_unmarked.
  - exact (run_op_only_master_unmarked _ _ _ _ Hstep IH).
  - exact IH.
Qed.

(** With vectors of the same length [markFrom] returns. *)
Lemma markFrom_total branchFrom n desc r :
  length (commits (br_at branchFrom (branches r)))
  = length (marks (br_at branchFrom (branches r))) ->
  exists res, markFrom branchFrom n desc r = Ok res.
Proof.
  intros Hlen. unfold markFrom.
  set (brFrom := br_at branchFrom (branches r)) in *.
  destruct (created brFrom =? 0); [eauto|].
  destruct (commits brFrom) as [|c cs] eqn:Hcs; [eauto|].
  destruct (vlast_cons c cs) as (lc & -> & _). cbn [mbind result_bind].
  destruct (marks brFrom) as [|m ms] eqn:Hms; [discriminate Hlen|].
  destruct (n =? lc).
  - destruct (vlast_cons m ms) as (lm & -> & _). cbn [mbind result_bind]. eauto.
  - pose proof (qUpperBound_range (c :: cs) n) as Hrange.
    destruct (Z.eqb_spec (qUpperBound (c :: cs) n) 0); [eauto|].
    set (it := qUpperBound (c :: cs) n - 1) in *.
    assert (Hit : 0 <= it /\ (Z.to_nat it < length (c :: cs))%nat) by (subst it; lia).
    destruct Hit as [Hit0 Hit1].
    destruct (lookup_lt_is_Some_2 (c :: cs) _ Hit1) as [x Hx].
    rewrite (vat_Some _ _ _ Hit0 Hx). cbn [mbind result_bind].
    rewrite Hlen in Hit1.
    destruct (lookup_lt_is_Some_2 (m :: ms) _ Hit1) as [y Hy].
    rewrite (vat_Some _ _ _ Hit0 Hy). cbn [mbind result_bind]. eauto.
Qed.

Lemma fresh_master_only (bs : gmap string Branch) (b : string) (n : Z) :
  only_master_unmarked bs ->
  created (br_at b bs) <> 0 /\ created (br_at b bs) <> n /\ marks (br_at b bs) = []
  <-> b = "master" /\ created (br_at b bs) = 1 /\ marks (br_at b bs) = [] /\ n <> 1.
Proof.
  intros Hbs. split.
  - intros (Hc & Hn & Hm). unfold br_at in *.
    destruct (bs !! b) as [br|] eqn:Hb; cbn in *; [|contradiction].
    destruct (Hbs _ _ Hb Hm) as [|[-> Hone]]; [contradiction|].
    repeat split; [exact Hone|exact Hm|congruence].
  - intros (_ & Hc & Hm & Hn). rewrite Hc. repeat split; [lia|congruence|exact Hm].
Qed.

(** X14. Which calls can abort in a state that a client can bring about,
    the child stopping on its own included.  [startFastImport] aborts
    exactly when the child has stopped on its own (the process is not
    running although it was started and not closed).  [deleteBranch]
    aborts exactly in that state or for [master] while it is as the
    constructor made it (created at revision 1, no marks) and the revision
    is not 1; [createBranch] can abort in these two cases only;
    [newTransaction] aborts exactly in that state or when
    [commit-interval] is 0. *)
Theorem reachable_aborts (cfg : Config) (r : Repo) (b : string) (n : Z) :
  reachable cfg r ->
  let br := br_at b (branches r) in
  let fresh_master := b = "master" /\ created br = 1 /\ marks br = [] /\ n <> 1 in
  ((exists f, startFastImport r = Abort f) <-> crashed r)
  /\ ((exists f, deleteBranch b n r = Abort f) <-> crashed r \/ fresh_master)
  /\ (forall from m,
        (exists f, createBranch b n from m r = Abort f) ->
        crashed r \/ fresh_master)
  /\ (forall p, (exists f, newTransaction cfg b p n r = Abort f)
                <-> crashed r \/ commit_interval cfg = 0).
Proof.
  intros Hreach. cbn zeta.
  pose proof (reachable_registry _ _ Hreach) as Hm.
  pose proof (reachable_parallel_vectors _ _ Hreach) as Hpar.
  split; [apply startFastImport_aborts_iff|].
  destruct (crashed_dec r) as [Hc|Hnc].
  { destruct (proj2 (startFastImport_aborts_iff r) Hc) as [f E].
    split; [|split].
    - unfold deleteBranch. rewrite E. cbn [mbind result_bind]. split; eauto.
    - intros from m _. left. exact Hc.
    - intros p. unfold newTransaction. rewrite E. cbn [mbind result_bind].
      split; eauto. }
  destruct (startFastImport_not_crashed _ Hnc) as [r0 E].
  destruct (startFastImport_frame _ _ E) as (_ & Hbr & _).
  split; [|split].
  - unfold deleteBranch. rewrite E. cbn [mbind result_bind].
    rewrite resetBranch_aborts_iff. cbn zeta. rewrite Hbr.
    rewrite (fresh_master_only (branches r) b n Hm). tauto.
  - intros from m [f Hf]. right. revert Hf. unfold createBranch. rewrite E.
    cbn [mbind result_bind].
    destruct (markFrom_total from m ("from branch " +:+ from) r0) as [[[mark desc'] r1] Hmf].
    { rewrite Hbr. apply br_at_parallel. exact Hpar. }
    rewrite Hmf. cbn [mbind result_bind].
    apply markFrom_inv in Hmf. subst r1.
    destruct (mark =? -1); [discriminate|].
    intros Hf. apply (fresh_master_only (branches r) b n Hm).
    destruct (mark =? 0).
    + pose proof (proj1 (resetBranch_aborts_iff _ _ _ _ _ _) (ex_intro _ f Hf)) as Hab.
      cbn in Hab. rewrite br_at_touch, Hbr in Hab. exact Hab.
    + pose proof (proj1 (resetBranch_aborts_iff _ _ _ _ _ _) (ex_intro _ f Hf)) as Hab.
      cbn in Hab. rewrite br_at_touch, Hbr in Hab. exact Hab.
  - intros p. unfold newTransaction. rewrite E. cbn [mbind result_bind].
    destruct (Z.eqb_spec (commit_interval cfg) 0) as [Hz|Hz].
    + split; [auto|eauto].
    + split; [intros [f Hf]; discriminate Hf|tauto].
Qed.

Lemma reachable_aborts_witness :
  (exists f, deleteBranch "master" 5 fresh_repository = Abort f)
  /\ exists r,
       reachable default_config r /\ crashed r
       /\ exists f, deleteBranch "b" 7 r = Abort f.
Proof.
  split.
  - apply (reachable_aborts default_config fresh_repository "master" 5
             (reachable_new default_config "R" ["master"])).
    right. repeat split. discriminate.
  - destruct (run_op default_config (OpNewTransaction "master" "/p" 1) fresh_repository)
      as [r1|f] eqn:E; [|vm_compute in E; discriminate E].
    assert (Hrun : running r1 = true)
      by (vm_compute in E; injection E as <-; reflexivity).
    assert (Hps : processHasStarted r1 = true)
      by (vm_compute in E; injection E as <-; reflexivity).
    pose proof (reachable_child_stops default_config r1
                  (reachable_step default_config _ _ _
                     (reachable_new default_config "R" ["master"]) E) Hrun)
      as Hreach.
    exists (set_process (processHasStarted r1) false r1).
    assert (Hc : crashed (set_process (processHasStarted r1) false r1))
      by (split; [reflexivity|exact Hps]).
    split; [exact Hreach|]. split; [exact Hc|].
    apply (reachable_aborts default_config _ "b" 7 Hreach). left. exact Hc.
Defined.

(** ** The registry that the constructor builds *)

Lemma foldl_insert_default_lookup (l : list string) : forall (m : gmap string Branch) k,
  foldl (fun m b => <[b := default_Branch]> m) m l !! k
  = if decide (k ∈ l) then Some default_Branch else m !! k.
Proof.
  induction l as [|x l IH]; intros m k; cbn [foldl].
  - rewrite decide_False by apply not_elem_of_nil. reflexivity.
  - rewrite IH. destruct (decide (k ∈ l)) as [Hin|Hnin].
    + rewrite decide_True by (apply list_elem_of_further; exact Hin). reflexivity.
    + destruct (decide (k = x)) as [->|Hne].
      * rewrite decide_True by apply list_elem_of_here.
        apply lookup_insert_eq.
      * rewrite decide_False
          by (intros H; apply elem_of_cons in H as [|]; contradiction).
        apply lookup_insert_ne. congruence.
Qed.

Lemma reload_text_unmarked (bs : gmap string Branch) :
  (forall k b, bs !! k = Some b -> marks b = []) -> reload_text bs = EmptyString.
Proof.
  intros H. unfold reload_text.
  assert (Hl : forall kb, kb ∈ map_to_list bs -> reload_one kb = EmptyString).
  { intros [k b] Hkb. apply elem_of_map_to_list in Hkb.
    unfold reload_one. rewrite (H _ _ Hkb). reflexivity. }
  induction (map_to_list bs) as [|kb l IH]; [reflexivity|].
  cbn [foldr]. rewrite (Hl kb) by apply list_elem_of_here.
  apply IH. intros kb' Hin. apply Hl. apply list_elem_of_further. exact Hin.
Qed.

(** X16. The registry of a new repository holds exactly [master] and the
    branches of the rule: [master] is created at revision 1, whether the
    rule names it or not, every other branch of the rule is not created,
    and no branch has commits or marks.  The counters start at 0 and
    [maxMark], there are no tags, the importer is not started and nothing
    has been written; starting the importer then succeeds and, as no
    branch has a mark, reloads nothing. *)
Theorem new_repository_registry (rule_name : string) (rule_branches : list string)
    (k : string) :
  let r := new_repository rule_name rule_branches in
  branches r !! k
  = (if decide (k = "master")
     then Some {| created := 1; commits := []; marks := [] |}
     else if decide (k ∈ rule_branches) then Some default_Branch else None)
  /\ annotatedTags r = ∅ /\ name r = rule_name
  /\ commitCount r = 0 /\ outstandingTransactions r = 0
  /\ last_commit_mark r = 0 /\ next_file_mark r = 1048575
  /\ running r = false /\ processHasStarted r = false
  /\ wire r = EmptyString
  /\ exists r0, startFastImport r = Ok r0 /\ wire r0 = EmptyString.
Proof.
  cbn zeta.
  assert (Hk : forall k,
    branches (new_repository rule_name rule_branches) !! k
    = (if decide (k = "master")
       then Some {| created := 1; commits := []; marks := [] |}
       else if decide (k ∈ rule_branches) then Some default_Branch else None)).
  2:{ split; [apply Hk|]. repeat split.
      unfold startFastImport. cbn [running processHasStarted new_repository].
      eexists. split; [reflexivity|]. rewrite reloadBranches_eq.
      cbn [wire write set_process branches].
      apply reload_text_unmarked. intros k' b. rewrite Hk.
      destruct (decide _); [intros [= <-]; reflexivity|].
      destruct (decide _); [intros [= <-]; reflexivity|discriminate]. }
  clear k. intros k.
  unfold new_repository. cbn [branches].
  assert (Hmaster : br_at "master"
                      (foldl (fun m b => <[b := default_Branch]> m) ∅ rule_branches)
                    = default_Branch).
  { unfold br_at. rewrite foldl_insert_default_lookup.
    destruct (decide _); [reflexivity|]. rewrite lookup_empty. reflexivity. }
  rewrite Hmaster. cbn [commits marks default_Branch].
  destruct (decide (k = "master")) as [->|Hne].
  - apply lookup_insert_eq.
  - rewrite lookup_insert_ne by congruence.
    rewrite foldl_insert_default_lookup, lookup_empty. reflexivity.
Qed.

(** ** Reading back what was written to the log *)

Lemma digit_char_digit (d : Z) : 0 <= d < 10 ->
  Bytes.is_digit (Bytes.digit_char d) = true
  /\ Bytes.digit_val (Bytes.digit_char d) = d.
Proof.
  intros H.
  assert (Hd : d = 0 \/ d = 1 \/ d = 2 \/ d = 3 \/ d = 4 \/ d = 5 \/ d = 6
               \/ d = 7 \/ d = 8 \/ d = 9) by lia.
  repeat (destruct Hd as [->|Hd]; [split; reflexivity|]). subst d. split; reflexivity.
Qed.

Lemma log2_le_0 (n : Z) : 0 <= n -> (Z.to_nat (Z.log2 n) <= 0)%nat -> n < 10.
Proof.
  intros Hn Hl. destruct (Z_lt_le_dec n 2) as [|Hge]; [lia|].
  assert (1 <= Z.log2 n) by (change 1 with (Z.log2 2); apply Z.log2_le_mono; lia).
  lia.
Qed.

(** The digits that [number] writes are read back as the number. *)
Lemma number_go_value (f : nat) : forall n acc,
  0 <= n -> (Z.to_nat (Z.log2 n) <= f)%nat ->
  Bytes.digits_value (Bytes.number_go f 10 n acc) 0 = Bytes.digits_value acc n.
Proof.
  induction f as [|f IH]; intros n acc Hn Hf.
  - pose proof (log2_le_0 n Hn Hf) as Hlt.
    cbn [Bytes.number_go Bytes.digits_value].
    rewrite Z.mod_small by lia.
    destruct (digit_char_digit n ltac:(lia)) as [-> ->].
    f_equal; lia.
  - cbn [Bytes.number_go].
    assert (Hmod : 0 <= n mod 10 < 10) by (apply Z.mod_pos_bound; lia).
    destruct (Z.eqb_spec (n / 10) 0) as [Hq|Hq].
    + cbn [Bytes.digits_value].
      destruct (digit_char_digit _ Hmod) as [-> ->].
      f_equal; pose proof (Z.div_mod n 10); lia.
    + rewrite IH.
      * cbn [Bytes.digits_value].
        destruct (digit_char_digit _ Hmod) as [-> ->].
        f_equal; pose proof (Z.div_mod n 10); lia.
      * apply Z.div_pos; lia.
      * pose proof (log2_div_lt 10 n ltac:(lia) Hq Hn).
        pose proof (Z.log2_nonneg (n / 10)). lia.
Qed.

Lemma number_go_all_digits (f : nat) : forall n acc,
  0 <= n -> all_digits acc = true ->
  all_digits (Bytes.number_go f 10 n acc) = true.
Proof.
  induction f as [|f IH]; intros n acc Hn Hacc;
    assert (Hmod : 0 <= n mod 10 < 10) by (apply Z.mod_pos_bound; lia);
    destruct (digit_char_digit _ Hmod) as [Hd _]; cbn [Bytes.number_go].
  - cbn [all_digits]. rewrite Hd, Hacc. reflexivity.
  - destruct (n / 10 =? 0).
    + cbn [all_digits]. rewrite Hd, Hacc. reflexivity.
    + apply IH; [apply Z.div_pos; lia|].
      cbn [all_digits]. rewrite Hd, Hacc. reflexivity.
Qed.

Lemma number_go_nonempty (f : nat) : forall n acc,
  Bytes.number_go f 10 n acc <> EmptyString.
Proof.
  induction f as [|f IH]; intros n acc; cbn [Bytes.number_go]; [discriminate|].
  destruct (n / 10 =? 0); [discriminate|apply IH].
Qed.

Lemma number_digits (n : Z) : 0 <= n ->
  all_digits (Bytes.number n) = true
  /\ Bytes.number n <> EmptyString
  /\ Bytes.digits_value (Bytes.number n) 0 = Some n.
Proof.
  intros Hn. unfold Bytes.number, Bytes.number_base.
  destruct (Z.ltb_spec n 0) as [|_]; [lia|]. cbn zeta.
  rewrite Z.abs_eq by exact Hn.
  split; [apply number_go_all_digits; [exact Hn|reflexivity]|].
  split; [apply number_go_nonempty|].
  rewrite number_go_value by (exact Hn || lia). reflexivity.
Qed.

Lemma digit_not_space (c : ascii) : Bytes.is_digit c = true -> Bytes.is_space c = false.
Proof.
  unfold Bytes.is_digit, Bytes.is_space. cbn zeta.
  intros H. apply andb_true_iff in H as [H1 H2].
  apply Nat.leb_le in H1, H2.
  apply orb_false_iff. split.
  - apply Nat.eqb_neq. lia.
  - apply andb_false_iff. right. apply Nat.leb_gt. lia.
Qed.

Lemma rtrim_digits (d : string) : all_digits d = true -> Bytes.rtrim d = d.
Proof.
  induction d as [|c d IH]; [reflexivity|].
  cbn [all_digits]. intros H. apply andb_true_iff in H as [Hc Hd].
  cbn [Bytes.rtrim]. rewrite (IH Hd), (digit_not_space c Hc), andb_false_r.
  reflexivity.
Qed.

(** White space after a text that ends in a digit is trimmed away, and
    nothing else is. *)
Lemma rtrim_digits_end (q d ws : string) :
  all_digits d = true -> d <> EmptyString -> Bytes.rtrim ws = EmptyString ->
  Bytes.rtrim (q +:+ d +:+ ws) = q +:+ d.
Proof.
  intros Hd Hne Hws.
  assert (Hbase : Bytes.rtrim (d +:+ ws) = d).
  { clear q. induction d as [|c d IH]; [contradiction|].
    cbn [all_digits] in Hd. apply andb_true_iff in Hd as [Hc Hd].
    rewrite append_cons. cbn [Bytes.rtrim].
    rewrite (digit_not_space c Hc), andb_false_r.
    destruct d as [|c' d'].
    - change (EmptyString +:+ ws) with ws. rewrite Hws. reflexivity.
    - rewrite IH by (assumption || discriminate). reflexivity. }
  induction q as [|c q IH].
  - exact Hbase.
  - rewrite !append_cons. cbn [Bytes.rtrim]. rewrite IH.
    assert (He : Bytes.isEmpty (q +:+ d) = false).
    { destruct q; [|reflexivity]. destruct d; [contradiction|reflexivity]. }
    rewrite He. reflexivity.
Qed.

Lemma indexOf_append (c : ascii) (a b : string) :
  Bytes.indexOf c a = None ->
  Bytes.indexOf c (a +:+ b)
  = match Bytes.indexOf c b with
    | Some i => Some (Bytes.len a + i)
    | None => None
    end.
Proof.
  induction a as [|x a IH]; intros H.
  - change (EmptyString +:+ b) with b. destruct (Bytes.indexOf c b); [|reflexivity].
    f_equal.
  - rewrite append_cons. cbn [Bytes.indexOf] in *.
    destruct (Ascii.eqb c x); [discriminate H|].
    destruct (Bytes.indexOf c a); [discriminate H|].
    rewrite IH by reflexivity.
    destruct (Bytes.indexOf c b); [|reflexivity].
    f_equal. unfold Bytes.len. cbn [String.length]. lia.
Qed.

Lemma indexOf_digits (d : string) :
  all_digits d = true -> Bytes.indexOf "#" d = None.
Proof.
  induction d as [|c d IH]; [reflexivity|].
  cbn [all_digits]. intros H. apply andb_true_iff in H as [Hc Hd].
  cbn [Bytes.indexOf]. rewrite (IH Hd).
  destruct (Ascii.eqb_spec "#" c) as [<-|]; [discriminate Hc|reflexivity].
Qed.

Lemma toInt_digits (d : string) (n : Z) :
  all_digits d = true -> d <> EmptyString ->
  Bytes.digits_value d 0 = Some n -> 0 <= n <= Bytes.INT_MAX ->
  Bytes.toInt d = n.
Proof.
  intros Hd Hne Hv Hn. unfold Bytes.toInt, Bytes.trimmed.
  destruct d as [|c d]; [contradiction|].
  assert (Hc : Bytes.is_digit c = true).
  { cbn [all_digits] in Hd. apply andb_true_iff in Hd as [Hc _]. exact Hc. }
  cbn [Bytes.ltrim]. rewrite (digit_not_space c Hc), (rtrim_digits _ Hd).
  assert (Hsign : c <> "-"%char /\ c <> "+"%char).
  { split; intros ->; discriminate Hc. }
  destruct Hsign as [Hm Hp].
  assert (Hmatch : match String c d with
                   | String "-"%char b => (true, b)
                   | String "+"%char b => (false, b)
                   | _ => (false, String c d)
                   end = (false, String c d)).
  { destruct c as [[] [] [] [] [] [] [] []]; try reflexivity; contradiction. }
  rewrite Hmatch. cbn [Bytes.isEmpty]. rewrite Hv.
  unfold Bytes.INT_MIN, Bytes.INT_MAX in *.
  destruct (Z.leb_spec (- 2 ^ 31) n); [|lia].
  destruct (Z.leb_spec n (2 ^ 31 - 1)); [|lia]. reflexivity.
Qed.

(** A number that fits an [int] is read back from its text. *)
Lemma toInt_number (n : Z) : 0 <= n <= Bytes.INT_MAX -> Bytes.toInt (Bytes.number n) = n.
Proof.
  intros Hn. destruct (number_digits n ltac:(lia)) as (Hd & Hne & Hv).
  apply toInt_digits; assumption.
Qed.

Lemma indexOf_append_none (c : ascii) (a b : string) :
  Bytes.indexOf c a = None -> Bytes.indexOf c b = None ->
  Bytes.indexOf c (a +:+ b) = None.
Proof. intros Ha Hb. rewrite indexOf_append by exact Ha. rewrite Hb. reflexivity. Qed.

(** The cut at the first [#] and the trimming of [setupIncremental], on a
    text that ends in digits and is followed by a newline or by a comment. *)
Lemma cut_and_trim (q d tail : string) :
  (forall x, Bytes.ltrim (q +:+ x) = q +:+ x) ->
  Bytes.indexOf "#" q = None -> all_digits d = true -> d <> EmptyString ->
  tail = nl \/ (exists rest, tail = " #" +:+ rest) ->
  Bytes.trimmed
    (match Bytes.indexOf "#" (q +:+ d +:+ tail) with
     | Some hash => Bytes.truncate hash (q +:+ d +:+ tail)
     | None => q +:+ d +:+ tail
     end) = q +:+ d.
Proof.
  intros Hl Hq Hd Hne Htail.
  assert (Hqd : Bytes.indexOf "#" (q +:+ d) = None)
    by (apply indexOf_append_none; [exact Hq|apply indexOf_digits; exact Hd]).
  rewrite <- append_assoc.
  rewrite indexOf_append by exact Hqd.
  destruct Htail as [->|[rest ->]].
  - cbn [Bytes.indexOf nl Ascii.eqb Bool.eqb]. cbn.
    unfold Bytes.trimmed. rewrite append_assoc, Hl.
    apply rtrim_digits_end; [exact Hd|exact Hne|reflexivity].
  - change (Bytes.indexOf "#" (" #" +:+ rest)) with (Some (0 + 1)).
    cbn iota.
    replace ((q +:+ d) +:+ " #" +:+ rest)
      with (((q +:+ d) +:+ " ") +:+ "#" +:+ rest)
      by (rewrite (append_assoc (q +:+ d) " "); reflexivity).
    replace (Bytes.len (q +:+ d) + (0 + 1)) with (Bytes.len ((q +:+ d) +:+ " "))
      by (rewrite len_append; reflexivity).
    rewrite truncate_append.
    unfold Bytes.trimmed. rewrite !append_assoc, Hl.
    apply rtrim_digits_end; [exact Hd|exact Hne|reflexivity].
Qed.

(** A progress line for a revision, a branch and a mark, with or without
    a comment, is read as that revision, branch and mark. *)
Lemma log_entry_progress (rev mark : Z) (b tail : string) :
  0 <= rev <= Bytes.INT_MAX -> 0 <= mark <= Bytes.INT_MAX ->
  Bytes.indexOf "#" b = None ->
  tail = nl \/ (exists rest, tail = " #" +:+ rest) ->
  log_entry ("progress SVN r" +:+ Bytes.number rev +:+ " branch " +:+ b
             +:+ " = :" +:+ Bytes.number mark +:+ tail)
  = Some (rev, b, mark).
Proof.
  intros Hrev Hmark Hb Htail.
  destruct (number_digits rev ltac:(lia)) as (Hd1 & Hne1 & _).
  destruct (number_digits mark ltac:(lia)) as (Hd3 & Hne3 & _).
  set (q := "progress SVN r" +:+ Bytes.number rev +:+ " branch " +:+ b +:+ " = :").
  assert (Heq : forall x,
    "progress SVN r" +:+ Bytes.number rev +:+ " branch " +:+ b +:+ " = :" +:+ x
    = q +:+ x).
  { intros x. subst q. rewrite !append_assoc. reflexivity. }
  rewrite Heq. unfold log_entry.
  rewrite (cut_and_trim q (Bytes.number mark) tail); try assumption.
  - assert (He : Bytes.isEmpty (q +:+ Bytes.number mark) = false) by reflexivity.
    rewrite He, <- Heq.
    rewrite progress_exactMatch_complete by assumption.
    rewrite !toInt_number by assumption. reflexivity.
  - intros x. reflexivity.
  - subst q.
    apply indexOf_append_none; [reflexivity|].
    apply indexOf_append_none; [apply indexOf_digits; exact Hd1|].
    apply indexOf_append_none; [reflexivity|].
    apply indexOf_append_none; [exact Hb|reflexivity].
Qed.

(** X15. What [commit()] and [resetBranch] leave in the log can be read
    back.  For a revision and a mark from 0 up to the greatest [int], and a
    branch name without [#], the progress line that closes a commit, with
    or without the list of merges, and the progress line of a branch reset,
    whatever its comment, are read by the loop of [setupIncremental] as
    the revision, the branch and the mark that were written. *)
Theorem progress_line_read_back (t : Transaction) (mark : Z) (desc : string)
    (ref comment : string) (r : Repo) :
  0 <= revnum t <= Bytes.INT_MAX -> 0 <= mark <= Bytes.INT_MAX ->
  Bytes.indexOf "#" (branch t) = None ->
  (exists line,
      commit_progress t mark desc = nl +:+ line +:+ nl +:+ nl
      /\ log_entry (line +:+ nl) = Some (revnum t, branch t, mark))
  /\ (forall status r',
        resetBranch (branch t) (revnum t) mark ref comment r = Ok (status, r') ->
        exists before line,
          wire r' = wire r +:+ before +:+ line +:+ nl +:+ nl
          /\ log_entry (line +:+ nl) = Some (revnum t, branch t, mark)).
Proof.
  intros Hrev Hmark Hb. split.
  - unfold commit_progress.
    exists ("progress SVN r" +:+ Bytes.number (revnum t)
            +:+ " branch " +:+ branch t +:+ " = :" +:+ Bytes.number mark
            +:+ (if Bytes.isEmpty desc then EmptyString else " # merge from")
            +:+ desc).
    split; [rewrite !append_assoc; reflexivity|].
    rewrite !append_assoc.
    apply log_entry_progress; try assumption.
    destruct desc as [|c desc]; [left; reflexivity|].
    right. exists (" merge from" +:+ String c desc +:+ nl). reflexivity.
  - intros status r' H. unfold resetBranch in H. bind_inv H.
    injection H as _ <-.
    exists ((if a
             then "reset " +:+ "refs/backups/r" +:+ Bytes.number (revnum t)
                  +:+ Bytes.mid 4 (-1) (to_branchRef (branch t)) +:+ nl
                  +:+ "from " +:+ to_branchRef (branch t) +:+ nl +:+ nl
             else EmptyString)
            +:+ "reset " +:+ to_branchRef (branch t) +:+ nl
            +:+ "from " +:+ ref +:+ nl +:+ nl).
    exists ("progress SVN r" +:+ Bytes.number (revnum t)
            +:+ " branch " +:+ branch t +:+ " = :" +:+ Bytes.number mark
            +:+ " # " +:+ comment).
    split.
    + destruct a; cbn [wire write set_branches note notes branches];
        rewrite ?append_assoc; reflexivity.
    + rewrite !append_assoc.
      apply log_entry_progress; try assumption.
      right. exists (" " +:+ comment +:+ nl). reflexivity.
Qed.

Lemma progress_line_read_back_witness :
  exists line,
    commit_progress transaction_S4 6 " :5" = nl +:+ line +:+ nl +:+ nl
    /\ log_entry (line +:+ nl) = Some (9, "b", 6).
Proof.
  apply (progress_line_read_back transaction_S4 6 " :5" "x" "y" fresh_repository);
    [vm_compute; split; discriminate..|reflexivity].
Defined.

(** ** How many files a transaction can hold *)








(** ** A new branch starts at the mark of its source *)

(** The mark and the description that [markFrom] returns depend on the
    registry only. *)
Lemma markFrom_registry_only branchFrom n desc r r0 mark desc' r1 :
  branches r0 = branches r ->
  markFrom branchFrom n desc r0 = Ok (mark, desc', r1) ->
  markFrom branchFrom n desc r
  = Ok (mark, desc', set_branches (touch_branch branchFrom (branches r)) r).
Proof.
  intros Hbr. unfold markFrom. rewrite Hbr.
  destruct (created _ =? 0); [intros [= <- <- _]; reflexivity|].
  destruct (commits _) as [|c cs]; [intros [= <- <- _]; reflexivity|].
  destruct (vlast (c :: cs)) as [lc|]; [|cbn [mbind result_bind]; discriminate].
  cbn [mbind result_bind].
  destruct (n =? lc).
  - destruct (vlast (marks _)) as [lm|]; [|cbn [mbind result_bind]; discriminate].
    cbn [mbind result_bind]. intros [= <- <- _]. reflexivity.
  - destruct (_ =? 0); [intros [= <- <- _]; reflexivity|].
    destruct (vat (c :: cs) _) as [cc|]; [|cbn [mbind result_bind]; discriminate].
    cbn [mbind result_bind].
    destruct (vat (marks _) _) as [mm|]; [|cbn [mbind result_bind]; discriminate].
    cbn [mbind result_bind]. intros [= <- <- _]. reflexivity.
Qed.

(** X18. A new branch starts at the mark of its source.  When
    [createBranch] returns, [markFrom] for the source branch and revision
    has a result in the state before the call; the call fails with
    [EXIT_FAILURE] exactly when that result is -1, and then no branch is
    made; otherwise it succeeds, the new branch ends with that mark, and
    (for a revision other than 0) [markFrom] for the new branch at its
    creation revision returns the same mark. *)
Theorem createBranch_inherits_mark (b from desc : string) (n m : Z) (r r' : Repo)
    (status : Z) :
  createBranch b n from m r = Ok (status, r') ->
  exists mark desc0 r1,
    markFrom from m ("from branch " +:+ from) r = Ok (mark, desc0, r1)
    /\ (mark = -1 ->
        status = EXIT_FAILURE /\ branches r' = touch_branch from (branches r))
    /\ (mark <> -1 ->
        status = EXIT_SUCCESS
        /\ last (marks (br_at b (branches r'))) = Some mark
        /\ last (commits (br_at b (branches r'))) = Some n
        /\ created (br_at b (branches r')) = n
        /\ (n <> 0 -> markFrom b n desc r' = Ok (mark, desc, r'))).
Proof.
  unfold createBranch. intros H. bind_inv H.
  destruct (startFastImport_frame _ _ E) as (_ & Hbr & _).
  bind_inv H. destruct a0 as [[mark desc0] r1].
  pose proof (markFrom_registry_only _ _ _ _ _ _ _ _ Hbr E0) as Hmf.
  apply markFrom_inv in E0. subst r1.
  exists mark, desc0. eexists. split; [exact Hmf|].
  destruct (Z.eqb_spec mark (-1)) as [Hm|Hm].
  - injection H as <- <-. split; [|contradiction].
    intros _. cbn. rewrite Hbr. split; reflexivity.
  - split; [contradiction|]. intros _.
    assert (Hreset : exists r2 ref desc1,
               branches r2 = touch_branch from (branches a)
               /\ resetBranch b n mark ref desc1 r2 = Ok (status, r')).
    { destruct (mark =? 0); eexists; eexists; eexists; (split; [|exact H]); reflexivity. }
    destruct Hreset as (r2 & ref & desc1 & Hbr2 & Hreset).
    apply resetBranch_inv in Hreset as (-> & _ & Hbr' & _).
    assert (Hb : branches r' !! b
                 = Some {| created := n;
                           commits := commits (br_at b (branches r2)) ++ [n];
                           marks := marks (br_at b (branches r2)) ++ [mark] |})
      by (rewrite Hbr'; apply lookup_insert_eq).
    split; [reflexivity|].
    rewrite (br_at_present _ _ _ Hb). cbn [marks commits created].
    rewrite !last_snoc. repeat split.
    intros Hn. rewrite (markFrom_last _ _ _ _ _ _ _ desc Hb eq_refl eq_refl).
    cbn [created]. apply Z.eqb_neq in Hn. rewrite Hn. reflexivity.
Qed.

Lemma createBranch_inherits_mark_witness :
  exists r',
    createBranch "c" 8 "b" 4 repository_S4 = Ok (EXIT_SUCCESS, r')
    /\ markFrom "c" 8 EmptyString r' = Ok (2, EmptyString, r').
Proof.
  destruct (createBranch "c" 8 "b" 4 repository_S4) as [[status r']|f] eqn:E;
    [|vm_compute in E; discriminate E].
  destruct (createBranch_inherits_mark _ _ EmptyString _ _ _ _ _ E)
    as (mark & desc0 & r1 & Hmf & _ & Hok).
  vm_compute in Hmf. injection Hmf as <- _ _.
  destruct (Hok ltac:(discriminate)) as (-> & _ & _ & _ & Hlook).
  exists r'. split; [reflexivity|]. apply Hlook. discriminate.
Defined.

(** ** Replaying the log of a run *)

(** One entry of the log below the cutoff, with a mark that the marks
    file covers. *)
Lemma scan_log_one (raw b : string) (rev mark pos cutoff lvm last_revnum : Z) (r : Repo) :
  log_entry raw = Some (rev, b, mark) -> rev < cutoff -> mark <= lvm ->
  let replay := scan_repo (scan_log [raw] pos cutoff lvm last_revnum r) in
  let br := br_at b (branches r) in
  branches replay
  = <[b := {| created := if ((created br =? 0) || (mark =? 0)
                             || (match marks br with [] => true | _ => false end))%bool
                         then rev else created br;
              commits := commits br ++ [rev];
              marks := marks br ++ [mark] |}]> (branches r)
  /\ last_commit_mark replay = Z.max (last_commit_mark r) mark.
Proof.
  intros He Hrev Hmark. cbn zeta. cbn [scan_log]. rewrite He.
  destruct (Z.leb_spec cutoff rev) as [|_]; [lia|].
  destruct (Z.ltb_spec lvm mark) as [|_]; [lia|].
  destruct (rev <? last_revnum);
    cbn [last_commit_mark note notes branches];
    destruct (Z.ltb_spec (last_commit_mark r) mark); cbn; split; try reflexivity; lia.
Qed.

Lemma commit_registry cfg t r r' :
  commit cfg t r = Ok r' ->
  let br := br_at (branch t) (branches r) in
  branches r'
  = <[branch t := {| created := if (negb (created br =? 0)
                                    && negb (match marks br with [] => true | _ => false end))%bool
                                then created br else revnum t;
                     commits := commits br ++ [revnum t];
                     marks := marks br ++ [last_commit_mark r + 1] |}]> (branches r).
Proof.
  intros H. cbn zeta. pose proof (commit_branch _ _ _ _ H) as Hb. cbn zeta in Hb.
  apply commit_inv in H as (_ & _ & _ & _ & _ & _ & [cr Hbr] & _).
  rewrite Hbr in Hb. rewrite lookup_insert_eq in Hb. injection Hb as Hcr.
  rewrite Hbr, Hcr. reflexivity.
Qed.

(** X19. Replaying a commit.  The progress line that [commit()] writes,
    read by the loop of [setupIncremental] in the state before the commit,
    gives the registry and the commit counter that the commit itself left:
    a resumed run sees the branch as the interrupted run did.  (The
    revision is from 0 up to the greatest [int] and below the cutoff, the
    mark is covered by the marks file, and the branch name has no [#].) *)
Theorem commit_replayed (cfg : Config) (t : Transaction) (r r' : Repo)
    (cutoff lvm pos last_revnum : Z) :
  commit cfg t r = Ok r' ->
  0 <= revnum t <= Bytes.INT_MAX -> 0 <= last_commit_mark r < Bytes.INT_MAX ->
  Bytes.indexOf "#" (branch t) = None ->
  revnum t < cutoff -> last_commit_mark r' <= lvm ->
  exists before line,
    wire r' = wire r +:+ before +:+ nl +:+ line +:+ nl +:+ nl
    /\ let replay := scan_repo (scan_log [line +:+ nl] pos cutoff lvm last_revnum r) in
       branches replay = branches r'
       /\ last_commit_mark replay = last_commit_mark r'.
Proof.
  intros H Hrev Hlcm Hb Hcut Hlvm.
  pose proof (commit_registry _ _ _ _ H) as Hreg. cbn zeta in Hreg.
  apply commit_inv in H as (_ & Hmark & _ & _ & _ & _ & _ & Hwire & _).
  cbn zeta in Hmark, Hwire. rewrite Hmark in Hlvm.
  set (mark := last_commit_mark r + 1) in *.
  set (desc := merge_desc (merge_marks t r)) in *.
  set (message := commit_message cfg (log t) (svnprefix t) (revnum t)) in *.
  exists (commit_header t mark message +:+ message +:+ nl
          +:+ merge_lines (merge_marks t r)
          +:+ deletion_lines (deletedFiles t) +:+ modifiedFiles t).
  exists ("progress SVN r" +:+ Bytes.number (revnum t)
          +:+ " branch " +:+ branch t +:+ " = :" +:+ Bytes.number mark
          +:+ (if Bytes.isEmpty desc then EmptyString else " # merge from")
          +:+ desc).
  split.
  { rewrite Hwire. unfold commit_progress. rewrite !append_assoc. reflexivity. }
  assert (Hentry : log_entry
            (("progress SVN r" +:+ Bytes.number (revnum t)
              +:+ " branch " +:+ branch t +:+ " = :" +:+ Bytes.number mark
              +:+ (if Bytes.isEmpty desc then EmptyString else " # merge from")
              +:+ desc) +:+ nl)
          = Some (revnum t, branch t, mark)).
  { rewrite !append_assoc.
    apply log_entry_progress; try assumption; [subst mark; lia|].
    destruct desc as [|c desc']; [left; reflexivity|].
    right. exists (" merge from" +:+ String c desc' +:+ nl). reflexivity. }
  destruct (scan_log_one _ _ _ _ pos cutoff lvm last_revnum r Hentry Hcut Hlvm)
    as [Hbr Hl].
  cbn zeta. rewrite Hbr, Hl, Hreg, Hmark. split; [|subst mark; lia].
  f_equal. f_equal.
  assert (Hm0 : (mark =? 0) = false) by (apply Z.eqb_neq; subst mark; lia).
  rewrite Hm0.
  destruct (created _ =? 0); destruct (marks _); reflexivity.
Qed.

Lemma commit_replayed_witness :
  exists r' before line,
    commit default_config transaction_S4 repository_S4 = Ok r'
    /\ wire r' = wire repository_S4 +:+ before +:+ nl +:+ line +:+ nl +:+ nl
    /\ branches (scan_repo (scan_log [line +:+ nl] 0 100 6 0 repository_S4))
       = branches r'.
Proof.
  destruct (commit default_config transaction_S4 repository_S4) as [r'|f] eqn:E;
    [|vm_compute in E; discriminate E].
  destruct (commit_replayed default_config transaction_S4 repository_S4 r'
              100 6 0 0 E) as (before & line & Hwire & Hbr & _);
    [vm_compute; split; discriminate|vm_compute; split; [discriminate|reflexivity]
    |reflexivity|reflexivity| |].
  - apply commit_inv in E as (_ & -> & _). vm_compute. discriminate.
  - exists r', before, line. split; [reflexivity|]. split; [exact Hwire|exact Hbr].
Defined.

(** X20. Replaying a branch reset.  The progress line that [resetBranch]
    writes (for [createBranch] and [deleteBranch]), read by the loop of
    [setupIncremental] in the state before the reset, appends the same
    revision and mark to the branch as the reset did and leaves the other
    branches alone.  The creation revision differs: the reset always sets
    it to the revision of the reset, the replay does so only when the
    branch was not created, had no marks, or the mark is 0, and keeps the
    earlier creation revision otherwise.  The replay also raises
    [last_commit_mark] to the mark, which the reset leaves alone. *)
Theorem reset_replayed (b resetTo comment : string) (revnum mark : Z) (r r' : Repo)
    (status cutoff lvm pos last_revnum : Z) :
  resetBranch b revnum mark resetTo comment r = Ok (status, r') ->
  0 <= revnum <= Bytes.INT_MAX -> 0 <= mark <= Bytes.INT_MAX ->
  Bytes.indexOf "#" b = None ->
  revnum < cutoff -> mark <= lvm ->
  exists before line,
    wire r' = wire r +:+ before +:+ line +:+ nl +:+ nl
    /\ let replay := scan_repo (scan_log [line +:+ nl] pos cutoff lvm last_revnum r) in
       let old := br_at b (branches r) in
       commits (br_at b (branches replay)) = commits (br_at b (branches r'))
       /\ marks (br_at b (branches replay)) = marks (br_at b (branches r'))
       /\ (forall k, k <> b -> branches replay !! k = branches r' !! k)
       /\ created (br_at b (branches r')) = revnum
       /\ created (br_at b (branches replay))
          = (if ((created old =? 0) || (mark =? 0)
                 || (match marks old with [] => true | _ => false end))%bool
             then revnum else created old)
       /\ last_commit_mark r' = last_commit_mark r
       /\ last_commit_mark replay = Z.max (last_commit_mark r) mark.
Proof.
  intros H Hrev Hmark Hb Hcut Hlvm.
  pose proof (resetBranch_inv _ _ _ _ _ _ _ _ H) as (_ & (_ & _ & Hlcm & _) & Hbr & _).
  unfold resetBranch in H. bind_inv H. injection H as _ Hr'.
  exists ((if a
           then "reset " +:+ "refs/backups/r" +:+ Bytes.number revnum
                +:+ Bytes.mid 4 (-1) (to_branchRef b) +:+ nl
                +:+ "from " +:+ to_branchRef b +:+ nl +:+ nl
           else EmptyString)
          +:+ "reset " +:+ to_branchRef b +:+ nl
          +:+ "from " +:+ resetTo +:+ nl +:+ nl).
  exists ("progress SVN r" +:+ Bytes.number revnum
          +:+ " branch " +:+ b +:+ " = :" +:+ Bytes.number mark
          +:+ " # " +:+ comment).
  split.
  { rewrite <- Hr'.
    destruct a; cbn [wire write set_branches note notes branches];
      rewrite ?append_assoc; reflexivity. }
  assert (Hentry : log_entry
            (("progress SVN r" +:+ Bytes.number revnum
              +:+ " branch " +:+ b +:+ " = :" +:+ Bytes.number mark
              +:+ " # " +:+ comment) +:+ nl)
          = Some (revnum, b, mark)).
  { rewrite !append_assoc.
    apply log_entry_progress; try assumption.
    right. exists (" " +:+ comment +:+ nl). reflexivity. }
  destruct (scan_log_one _ _ _ _ pos cutoff lvm last_revnum r Hentry Hcut Hlvm)
    as [Hbr2 Hl].
  cbn zeta. rewrite Hl, Hbr2, Hbr, !br_at_insert, String.eqb_refl.
  cbn [commits marks created].
  repeat split; try assumption.
  intros k Hk. rewrite !lookup_insert_ne by congruence. reflexivity.
Qed.

Lemma reset_replayed_witness :
  exists r' before line,
    resetBranch "b" 8 3 ":3" "from branch master" repository_S4
    = Ok (EXIT_SUCCESS, r')
    /\ wire r' = wire repository_S4 +:+ before +:+ line +:+ nl +:+ nl
    /\ created (br_at "b" (branches r')) = 8
    /\ created (br_at "b"
                  (branches (scan_repo (scan_log [line +:+ nl] 0 100 6 0
                                          repository_S4)))) = 4.
Proof.
  destruct (resetBranch "b" 8 3 ":3" "from branch master" repository_S4)
    as [[status r']|f] eqn:E; [|vm_compute in E; discriminate E].
  destruct (reset_replayed _ _ _ _ _ _ _ _ 100 6 0 0 E)
    as (before & line & Hwire & _ & _ & _ & Hlive & Hreplay & _);
    [vm_compute; split; discriminate..|reflexivity|reflexivity|vm_compute; discriminate|].
  apply resetBranch_inv in E as (-> & _).
  exists r', before, line. split; [reflexivity|]. split; [exact Hwire|].
  split; [exact Hlive|]. rewrite Hreplay. reflexivity.
Defined.
